(** * sfz.py: decoding and validation of resident identity-card numbers

    A shallow embedding of [sfz.py] and the properties of its decoding
    pipeline: check-character computation, the 15 to 18 character upgrade,
    region resolution, the derived attributes and [parse_id_info] itself.

    Python values are modelled as follows.
    - [str] is a list of Unicode code points ([N]); [len], slicing and
      indexing count code points, as in Python.
    - [int] is [Z].
    - A [dict] from [str] to [str] is a [gmap str str]; [d.get(k)] is [d !! k].
    - A raised exception is the [Raise] outcome of the [res] monad.
    - The [OrderedDict] filled in by [parse_id_info] is the record [info].
    - [datetime.date.today()] is the parameter [current_date]. *)

From Stdlib Require Import ZArith NArith List String Ascii Bool Lia.
From Stdlib Require Import Decimal.
From stdpp Require Import base option list gmap.
Import ListNotations.

Local Open Scope Z_scope.

(** ** Strings *)

Abbreviation char := N.
Abbreviation str := (list N).

(** Literals are written as UTF-8 text and decoded to code points. *)
Fixpoint u8_go (need : nat) (acc : N) (s : string) : str :=
  match s with
  | EmptyString => []
  | String a s' =>
      let b := N_of_ascii a in
      match need with
      | O =>
          if (b <? 0x80)%N then b :: u8_go 0 0%N s'
          else if (b <? 0xE0)%N then u8_go 1 (b - 0xC0)%N s'
          else if (b <? 0xF0)%N then u8_go 2 (b - 0xE0)%N s'
          else u8_go 3 (b - 0xF0)%N s'
      | S n =>
          let acc' := (acc * 64 + (b - 0x80))%N in
          match n with
          | O => acc' :: u8_go 0 0%N s'
          | S _ => u8_go n acc' s'
          end
      end
  end.

Definition u8 (s : string) : str := u8_go 0 0%N s.

Definition str_eqb (a b : str) : bool := bool_decide (a = b).

(** [len(s)] *)
Definition len (s : str) : Z := Z.of_nat (length s).

(** [s[a:b]] for constants [0 <= a <= b]. *)
Definition slice (a b : nat) (s : str) : str := take (b - a) (drop a s).

(** ** Exceptions *)

Inductive exn := ValueError | IndexError.

Inductive res (A : Type) : Type :=
| Ok (a : A)
| Raise (e : exn).
Arguments Ok {A} a.
Arguments Raise {A} e.

Definition bind {A B} (m : res A) (k : A -> res B) : res B :=
  match m with
  | Ok a => k a
  | Raise e => Raise e
  end.

Notation "'do' x <- m ;; k" := (bind m (fun x => k))
  (at level 10, x name, m at level 99, k at level 200).

(** [s[i]] for a constant [i >= 0]: a one-character string, or [IndexError]. *)
Definition index (s : str) (i : nat) : res str :=
  match s !! i with
  | Some c => Ok [c]
  | None => Raise IndexError
  end.

(** ** The character database

    The built-ins [str.strip], [str.upper], [str.isdigit] and [int] consult
    the Unicode character database.  Below 128 they are written out; from
    128 on they read the tables that follow, which are those of CPython 3.11
    (Unicode 14.0). *)

Local Open Scope N_scope.

Definition unicode_whitespace : list (N * N) :=
  [(0x85, 0x85); (0xA0, 0xA0); (0x1680, 0x1680); (0x2000, 0x200A); (0x2028, 0x2029);
   (0x202F, 0x202F); (0x205F, 0x205F); (0x3000, 0x3000)].

Definition unicode_decimal_zeros : list N :=
  [0x660; 0x6F0; 0x7C0; 0x966; 0x9E6; 0xA66; 0xAE6; 0xB66;
   0xBE6; 0xC66; 0xCE6; 0xD66; 0xDE6; 0xE50; 0xED0; 0xF20;
   0x1040; 0x1090; 0x17E0; 0x1810; 0x1946; 0x19D0; 0x1A80; 0x1A90;
   0x1B50; 0x1BB0; 0x1C40; 0x1C50; 0xA620; 0xA8D0; 0xA900; 0xA9D0;
   0xA9F0; 0xAA50; 0xABF0; 0xFF10; 0x104A0; 0x10D30; 0x11066; 0x110F0;
   0x11136; 0x111D0; 0x112F0; 0x11450; 0x114D0; 0x11650; 0x116C0; 0x11730;
   0x118E0; 0x11950; 0x11C50; 0x11D50; 0x11DA0; 0x16A60; 0x16AC0; 0x16B50;
   0x1D7CE; 0x1D7D8; 0x1D7E2; 0x1D7EC; 0x1D7F6; 0x1E140; 0x1E2F0; 0x1E950;
   0x1FBF0].

Definition unicode_other_digits : list (N * N) :=
  [(0xB2, 0xB3); (0xB9, 0xB9); (0x1369, 0x1371); (0x19DA, 0x19DA);
   (0x2070, 0x2070); (0x2074, 0x2079); (0x2080, 0x2089); (0x2460, 0x2468);
   (0x2474, 0x247C); (0x2488, 0x2490); (0x24EA, 0x24EA); (0x24F5, 0x24FD);
   (0x24FF, 0x24FF); (0x2776, 0x277E); (0x2780, 0x2788); (0x278A, 0x2792);
   (0x10A40, 0x10A43); (0x10E60, 0x10E68); (0x11052, 0x1105A); (0x1F100, 0x1F10A)].

Definition unicode_upper_special : list (N * list N) :=
  [(0xDF, [0x53; 0x53]); (0x149, [0x2BC; 0x4E]); (0x1F0, [0x4A; 0x30C]);
   (0x390, [0x399; 0x308; 0x301]); (0x3B0, [0x3A5; 0x308; 0x301]); (0x587, [0x535; 0x552]);
   (0x1E96, [0x48; 0x331]); (0x1E97, [0x54; 0x308]); (0x1E98, [0x57; 0x30A]);
   (0x1E99, [0x59; 0x30A]); (0x1E9A, [0x41; 0x2BE]); (0x1F50, [0x3A5; 0x313]);
   (0x1F52, [0x3A5; 0x313; 0x300]); (0x1F54, [0x3A5; 0x313; 0x301]); (0x1F56, [0x3A5; 0x313; 0x342]);
   (0x1F80, [0x1F08; 0x399]); (0x1F81, [0x1F09; 0x399]); (0x1F82, [0x1F0A; 0x399]);
   (0x1F83, [0x1F0B; 0x399]); (0x1F84, [0x1F0C; 0x399]); (0x1F85, [0x1F0D; 0x399]);
   (0x1F86, [0x1F0E; 0x399]); (0x1F87, [0x1F0F; 0x399]); (0x1F88, [0x1F08; 0x399]);
   (0x1F89, [0x1F09; 0x399]); (0x1F8A, [0x1F0A; 0x399]); (0x1F8B, [0x1F0B; 0x399]);
   (0x1F8C, [0x1F0C; 0x399]); (0x1F8D, [0x1F0D; 0x399]); (0x1F8E, [0x1F0E; 0x399]);
   (0x1F8F, [0x1F0F; 0x399]); (0x1F90, [0x1F28; 0x399]); (0x1F91, [0x1F29; 0x399]);
   (0x1F92, [0x1F2A; 0x399]); (0x1F93, [0x1F2B; 0x399]); (0x1F94, [0x1F2C; 0x399]);
   (0x1F95, [0x1F2D; 0x399]); (0x1F96, [0x1F2E; 0x399]); (0x1F97, [0x1F2F; 0x399]);
   (0x1F98, [0x1F28; 0x399]); (0x1F99, [0x1F29; 0x399]); (0x1F9A, [0x1F2A; 0x399]);
   (0x1F9B, [0x1F2B; 0x399]); (0x1F9C, [0x1F2C; 0x399]); (0x1F9D, [0x1F2D; 0x399]);
   (0x1F9E, [0x1F2E; 0x399]); (0x1F9F, [0x1F2F; 0x399]); (0x1FA0, [0x1F68; 0x399]);
   (0x1FA1, [0x1F69; 0x399]); (0x1FA2, [0x1F6A; 0x399]); (0x1FA3, [0x1F6B; 0x399]);
   (0x1FA4, [0x1F6C; 0x399]); (0x1FA5, [0x1F6D; 0x399]); (0x1FA6, [0x1F6E; 0x399]);
   (0x1FA7, [0x1F6F; 0x399]); (0x1FA8, [0x1F68; 0x399]); (0x1FA9, [0x1F69; 0x399]);
   (0x1FAA, [0x1F6A; 0x399]); (0x1FAB, [0x1F6B; 0x399]); (0x1FAC, [0x1F6C; 0x399]);
   (0x1FAD, [0x1F6D; 0x399]); (0x1FAE, [0x1F6E; 0x399]); (0x1FAF, [0x1F6F; 0x399]);
   (0x1FB2, [0x1FBA; 0x399]); (0x1FB3, [0x391; 0x399]); (0x1FB4, [0x386; 0x399]);
   (0x1FB6, [0x391; 0x342]); (0x1FB7, [0x391; 0x342; 0x399]); (0x1FBC, [0x391; 0x399]);
   (0x1FC2, [0x1FCA; 0x399]); (0x1FC3, [0x397; 0x399]); (0x1FC4, [0x389; 0x399]);
   (0x1FC6, [0x397; 0x342]); (0x1FC7, [0x397; 0x342; 0x399]); (0x1FCC, [0x397; 0x399]);
   (0x1FD2, [0x399; 0x308; 0x300]); (0x1FD3, [0x399; 0x308; 0x301]); (0x1FD6, [0x399; 0x342]);
   (0x1FD7, [0x399; 0x308; 0x342]); (0x1FE2, [0x3A5; 0x308; 0x300]); (0x1FE3, [0x3A5; 0x308; 0x301]);
   (0x1FE4, [0x3A1; 0x313]); (0x1FE6, [0x3A5; 0x342]); (0x1FE7, [0x3A5; 0x308; 0x342]);
   (0x1FF2, [0x1FFA; 0x399]); (0x1FF3, [0x3A9; 0x399]); (0x1FF4, [0x38F; 0x399]);
   (0x1FF6, [0x3A9; 0x342]); (0x1FF7, [0x3A9; 0x342; 0x399]); (0x1FFC, [0x3A9; 0x399]);
   (0xFB00, [0x46; 0x46]); (0xFB01, [0x46; 0x49]); (0xFB02, [0x46; 0x4C]);
   (0xFB03, [0x46; 0x46; 0x49]); (0xFB04, [0x46; 0x46; 0x4C]); (0xFB05, [0x53; 0x54]);
   (0xFB06, [0x53; 0x54]); (0xFB13, [0x544; 0x546]); (0xFB14, [0x544; 0x535]);
   (0xFB15, [0x544; 0x53B]); (0xFB16, [0x54E; 0x546]); (0xFB17, [0x544; 0x53D])].

Definition unicode_upper_runs : list (N * N * N * N) :=
  [(0xB5, 0xB5, 1, 0x39C); (0xE0, 0xF6, 1, 0xC0); (0xF8, 0xFE, 1, 0xD8);
   (0xFF, 0xFF, 1, 0x178); (0x101, 0x12F, 2, 0x100); (0x131, 0x131, 1, 0x49);
   (0x133, 0x137, 2, 0x132); (0x13A, 0x148, 2, 0x139); (0x14B, 0x177, 2, 0x14A);
   (0x17A, 0x17E, 2, 0x179); (0x17F, 0x17F, 1, 0x53); (0x180, 0x180, 1, 0x243);
   (0x183, 0x185, 2, 0x182); (0x188, 0x188, 1, 0x187); (0x18C, 0x18C, 1, 0x18B);
   (0x192, 0x192, 1, 0x191); (0x195, 0x195, 1, 0x1F6); (0x199, 0x199, 1, 0x198);
   (0x19A, 0x19A, 1, 0x23D); (0x19E, 0x19E, 1, 0x220); (0x1A1, 0x1A5, 2, 0x1A0);
   (0x1A8, 0x1A8, 1, 0x1A7); (0x1AD, 0x1AD, 1, 0x1AC); (0x1B0, 0x1B0, 1, 0x1AF);
   (0x1B4, 0x1B6, 2, 0x1B3); (0x1B9, 0x1B9, 1, 0x1B8); (0x1BD, 0x1BD, 1, 0x1BC);
   (0x1BF, 0x1BF, 1, 0x1F7); (0x1C5, 0x1C5, 1, 0x1C4); (0x1C6, 0x1C6, 1, 0x1C4);
   (0x1C8, 0x1C8, 1, 0x1C7); (0x1C9, 0x1C9, 1, 0x1C7); (0x1CB, 0x1CB, 1, 0x1CA);
   (0x1CC, 0x1CC, 1, 0x1CA); (0x1CE, 0x1DC, 2, 0x1CD); (0x1DD, 0x1DD, 1, 0x18E);
   (0x1DF, 0x1EF, 2, 0x1DE); (0x1F2, 0x1F2, 1, 0x1F1); (0x1F3, 0x1F3, 1, 0x1F1);
   (0x1F5, 0x1F5, 1, 0x1F4); (0x1F9, 0x21F, 2, 0x1F8); (0x223, 0x233, 2, 0x222);
   (0x23C, 0x23C, 1, 0x23B); (0x23F, 0x240, 1, 0x2C7E); (0x242, 0x242, 1, 0x241);
   (0x247, 0x24F, 2, 0x246); (0x250, 0x250, 1, 0x2C6F); (0x251, 0x251, 1, 0x2C6D);
   (0x252, 0x252, 1, 0x2C70); (0x253, 0x253, 1, 0x181); (0x254, 0x254, 1, 0x186);
   (0x256, 0x257, 1, 0x189); (0x259, 0x259, 1, 0x18F); (0x25B, 0x25B, 1, 0x190);
   (0x25C, 0x25C, 1, 0xA7AB); (0x260, 0x260, 1, 0x193); (0x261, 0x261, 1, 0xA7AC);
   (0x263, 0x263, 1, 0x194); (0x265, 0x265, 1, 0xA78D); (0x266, 0x266, 1, 0xA7AA);
   (0x268, 0x268, 1, 0x197); (0x269, 0x269, 1, 0x196); (0x26A, 0x26A, 1, 0xA7AE);
   (0x26B, 0x26B, 1, 0x2C62); (0x26C, 0x26C, 1, 0xA7AD); (0x26F, 0x26F, 1, 0x19C);
   (0x271, 0x271, 1, 0x2C6E); (0x272, 0x272, 1, 0x19D); (0x275, 0x275, 1, 0x19F);
   (0x27D, 0x27D, 1, 0x2C64); (0x280, 0x280, 1, 0x1A6); (0x282, 0x282, 1, 0xA7C5);
   (0x283, 0x283, 1, 0x1A9); (0x287, 0x287, 1, 0xA7B1); (0x288, 0x288, 1, 0x1AE);
   (0x289, 0x289, 1, 0x244); (0x28A, 0x28B, 1, 0x1B1); (0x28C, 0x28C, 1, 0x245);
   (0x292, 0x292, 1, 0x1B7); (0x29D, 0x29D, 1, 0xA7B2); (0x29E, 0x29E, 1, 0xA7B0);
   (0x345, 0x345, 1, 0x399); (0x371, 0x373, 2, 0x370); (0x377, 0x377, 1, 0x376);
   (0x37B, 0x37D, 1, 0x3FD); (0x3AC, 0x3AC, 1, 0x386); (0x3AD, 0x3AF, 1, 0x388);
   (0x3B1, 0x3C1, 1, 0x391); (0x3C2, 0x3C2, 1, 0x3A3); (0x3C3, 0x3CB, 1, 0x3A3);
   (0x3CC, 0x3CC, 1, 0x38C); (0x3CD, 0x3CE, 1, 0x38E); (0x3D0, 0x3D0, 1, 0x392);
   (0x3D1, 0x3D1, 1, 0x398); (0x3D5, 0x3D5, 1, 0x3A6); (0x3D6, 0x3D6, 1, 0x3A0);
   (0x3D7, 0x3D7, 1, 0x3CF); (0x3D9, 0x3EF, 2, 0x3D8); (0x3F0, 0x3F0, 1, 0x39A);
   (0x3F1, 0x3F1, 1, 0x3A1); (0x3F2, 0x3F2, 1, 0x3F9); (0x3F3, 0x3F3, 1, 0x37F);
   (0x3F5, 0x3F5, 1, 0x395); (0x3F8, 0x3F8, 1, 0x3F7); (0x3FB, 0x3FB, 1, 0x3FA);
   (0x430, 0x44F, 1, 0x410); (0x450, 0x45F, 1, 0x400); (0x461, 0x481, 2, 0x460);
   (0x48B, 0x4BF, 2, 0x48A); (0x4C2, 0x4CE, 2, 0x4C1); (0x4CF, 0x4CF, 1, 0x4C0);
   (0x4D1, 0x52F, 2, 0x4D0); (0x561, 0x586, 1, 0x531); (0x10D0, 0x10FA, 1, 0x1C90);
   (0x10FD, 0x10FF, 1, 0x1CBD); (0x13F8, 0x13FD, 1, 0x13F0); (0x1C80, 0x1C80, 1, 0x412);
   (0x1C81, 0x1C81, 1, 0x414); (0x1C82, 0x1C82, 1, 0x41E); (0x1C83, 0x1C84, 1, 0x421);
   (0x1C85, 0x1C85, 1, 0x422); (0x1C86, 0x1C86, 1, 0x42A); (0x1C87, 0x1C87, 1, 0x462);
   (0x1C88, 0x1C88, 1, 0xA64A); (0x1D79, 0x1D79, 1, 0xA77D); (0x1D7D, 0x1D7D, 1, 0x2C63);
   (0x1D8E, 0x1D8E, 1, 0xA7C6); (0x1E01, 0x1E95, 2, 0x1E00); (0x1E9B, 0x1E9B, 1, 0x1E60);
   (0x1EA1, 0x1EFF, 2, 0x1EA0); (0x1F00, 0x1F07, 1, 0x1F08); (0x1F10, 0x1F15, 1, 0x1F18);
   (0x1F20, 0x1F27, 1, 0x1F28); (0x1F30, 0x1F37, 1, 0x1F38); (0x1F40, 0x1F45, 1, 0x1F48);
   (0x1F51, 0x1F57, 2, 0x1F59); (0x1F60, 0x1F67, 1, 0x1F68); (0x1F70, 0x1F71, 1, 0x1FBA);
   (0x1F72, 0x1F75, 1, 0x1FC8); (0x1F76, 0x1F77, 1, 0x1FDA); (0x1F78, 0x1F79, 1, 0x1FF8);
   (0x1F7A, 0x1F7B, 1, 0x1FEA); (0x1F7C, 0x1F7D, 1, 0x1FFA); (0x1FB0, 0x1FB1, 1, 0x1FB8);
   (0x1FBE, 0x1FBE, 1, 0x399); (0x1FD0, 0x1FD1, 1, 0x1FD8); (0x1FE0, 0x1FE1, 1, 0x1FE8);
   (0x1FE5, 0x1FE5, 1, 0x1FEC); (0x214E, 0x214E, 1, 0x2132); (0x2170, 0x217F, 1, 0x2160);
   (0x2184, 0x2184, 1, 0x2183); (0x24D0, 0x24E9, 1, 0x24B6); (0x2C30, 0x2C5F, 1, 0x2C00);
   (0x2C61, 0x2C61, 1, 0x2C60); (0x2C65, 0x2C65, 1, 0x23A); (0x2C66, 0x2C66, 1, 0x23E);
   (0x2C68, 0x2C6C, 2, 0x2C67); (0x2C73, 0x2C73, 1, 0x2C72); (0x2C76, 0x2C76, 1, 0x2C75);
   (0x2C81, 0x2CE3, 2, 0x2C80); (0x2CEC, 0x2CEE, 2, 0x2CEB); (0x2CF3, 0x2CF3, 1, 0x2CF2);
   (0x2D00, 0x2D25, 1, 0x10A0); (0x2D27, 0x2D27, 1, 0x10C7); (0x2D2D, 0x2D2D, 1, 0x10CD);
   (0xA641, 0xA66D, 2, 0xA640); (0xA681, 0xA69B, 2, 0xA680); (0xA723, 0xA72F, 2, 0xA722);
   (0xA733, 0xA76F, 2, 0xA732); (0xA77A, 0xA77C, 2, 0xA779); (0xA77F, 0xA787, 2, 0xA77E);
   (0xA78C, 0xA78C, 1, 0xA78B); (0xA791, 0xA793, 2, 0xA790); (0xA794, 0xA794, 1, 0xA7C4);
   (0xA797, 0xA7A9, 2, 0xA796); (0xA7B5, 0xA7C3, 2, 0xA7B4); (0xA7C8, 0xA7CA, 2, 0xA7C7);
   (0xA7D1, 0xA7D1, 1, 0xA7D0); (0xA7D7, 0xA7D9, 2, 0xA7D6); (0xA7F6, 0xA7F6, 1, 0xA7F5);
   (0xAB53, 0xAB53, 1, 0xA7B3); (0xAB70, 0xABBF, 1, 0x13A0); (0xFF41, 0xFF5A, 1, 0xFF21);
   (0x10428, 0x1044F, 1, 0x10400); (0x104D8, 0x104FB, 1, 0x104B0); (0x10597, 0x105A1, 1, 0x10570);
   (0x105A3, 0x105B1, 1, 0x1057C); (0x105B3, 0x105B9, 1, 0x1058C); (0x105BB, 0x105BC, 1, 0x10594);
   (0x10CC0, 0x10CF2, 1, 0x10C80); (0x118C0, 0x118DF, 1, 0x118A0); (0x16E60, 0x16E7F, 1, 0x16E40);
   (0x1E922, 0x1E943, 1, 0x1E900)].
Local Close Scope N_scope.

Definition in_ranges (c : char) (rs : list (N * N)) : bool :=
  existsb (fun '(lo, hi) => (lo <=? c)%N && (c <=? hi)%N) rs.

(** [c.isspace()] for one character. *)
Definition isspace (c : char) : bool :=
  if (c <? 128)%N
  then ((9 <=? c)%N && (c <=? 13)%N) || ((28 <=? c)%N && (c <=? 32)%N)
  else in_ranges c unicode_whitespace.

(** The value of a decimal digit (general category Nd): digits come in runs
    of ten, zero first. *)
Definition decimal_value (c : char) : option Z :=
  if (c <? 128)%N
  then (if (48 <=? c)%N && (c <=? 57)%N then Some (Z.of_N (c - 48)) else None)
  else option_map (fun z => Z.of_N (c - z))
         (find (fun z => (z <=? c)%N && (c <? z + 10)%N) unicode_decimal_zeros).

(** [c.isdigit()] for one character: decimal digits and the other characters
    of numeric type Digit (superscripts, circled digits, ...). *)
Definition isdigit_char (c : char) : bool :=
  match decimal_value c with
  | Some _ => true
  | None => (128 <=? c)%N && in_ranges c unicode_other_digits
  end.

(** [c.upper()] for one character; the result can be longer than one. *)
Definition upper_char (c : char) : str :=
  if (c <? 128)%N
  then (if (97 <=? c)%N && (c <=? 122)%N then [(c - 32)%N] else [c])
  else
    match find (fun e => (fst e =? c)%N) unicode_upper_special with
    | Some (_, u) => u
    | None =>
        match find (fun '(lo, hi, step, _) =>
                      (lo <=? c)%N && (c <=? hi)%N && ((c - lo) mod step =? 0)%N)
                unicode_upper_runs with
        | Some (lo, _, _, target) => [(target + (c - lo))%N]
        | None => [c]
        end
    end.

(** [s.strip()] *)
Fixpoint drop_while (p : char -> bool) (s : str) : str :=
  match s with
  | [] => []
  | c :: s' => if p c then drop_while p s' else s
  end.

Definition lstrip (s : str) : str := drop_while isspace s.
Definition rstrip (s : str) : str := rev (drop_while isspace (rev s)).
Definition strip (s : str) : str := rstrip (lstrip s).

(** [s.upper()] *)
Definition upper (s : str) : str := flat_map upper_char s.

(** [s.isdigit()]: at least one character, all of them digits. *)
Definition isdigit (s : str) : bool :=
  match s with
  | [] => false
  | _ => forallb isdigit_char s
  end.

(** [int(s)] in base 10: surrounding whitespace is dropped, one sign is
    allowed, then decimal digits, with single underscores between digits. *)
Fixpoint int_digits (acc : Z) (after_digit : bool) (s : str) : option Z :=
  match s with
  | [] => if after_digit then Some acc else None
  | c :: s' =>
      match decimal_value c with
      | Some d => int_digits (10 * acc + d) true s'
      | None =>
          if (c =? 95)%N && after_digit then
            match s' with
            | [] => None
            | _ => int_digits_us acc s'
            end
          else None
      end
  end
with int_digits_us (acc : Z) (s : str) : option Z :=
  match s with
  | [] => None
  | c :: s' =>
      match decimal_value c with
      | Some d => int_digits (10 * acc + d) true s'
      | None => None
      end
  end.

Definition int (s : str) : res Z :=
  let body := strip s in
  let '(sign, digits) :=
    match body with
    | 45%N :: r => (-1, r)
    | 43%N :: r => (1, r)
    | _ => (1, body)
    end in
  match int_digits 0 false digits with
  | Some v => Ok (sign * v)
  | None => Raise ValueError
  end.

(** [str(n)] for a non-negative [n], and [format(n, "0wd")]. *)
Fixpoint uint_digits (u : Decimal.uint) : str :=
  match u with
  | Nil => []
  | D0 u => 48%N :: uint_digits u
  | D1 u => 49%N :: uint_digits u
  | D2 u => 50%N :: uint_digits u
  | D3 u => 51%N :: uint_digits u
  | D4 u => 52%N :: uint_digits u
  | D5 u => 53%N :: uint_digits u
  | D6 u => 54%N :: uint_digits u
  | D7 u => 55%N :: uint_digits u
  | D8 u => 56%N :: uint_digits u
  | D9 u => 57%N :: uint_digits u
  end.

Definition str_of_int (n : Z) : str :=
  if n <? 0 then 45%N :: uint_digits (N.to_uint (Z.to_N (- n)))
  else uint_digits (N.to_uint (Z.to_N n)).

Definition format_0d (width : nat) (n : Z) : str :=
  let digits := uint_digits (N.to_uint (Z.to_N (Z.abs n))) in
  if n <? 0 then 45%N :: replicate (width - 1 - length digits) 48%N ++ digits
  else replicate (width - length digits) 48%N ++ digits.

(** [sep.join(parts)] *)
Fixpoint join (sep : str) (parts : list str) : str :=
  match parts with
  | [] => []
  | [p] => p
  | p :: rest => p ++ sep ++ join sep rest
  end.

(** [s.split(sep)] for a one-character separator. *)
Fixpoint split (sep : char) (s : str) : list str :=
  match s with
  | [] => [[]]
  | c :: s' =>
      if (c =? sep)%N then [] :: split sep s'
      else match split sep s' with
           | [] => [[c]]
           | w :: ws => (c :: w) :: ws
           end
  end.

(** [parts[-1]] on the result of [split], which is never empty. *)
Definition last_item (parts : list str) : str := List.last parts [].

(** [l[i]] for a list: negative indices count from the end. *)
Definition item {A} (l : list A) (i : Z) : res A :=
  let i' := if i <? 0 then i + Z.of_nat (length l) else i in
  if i' <? 0 then Raise IndexError
  else match l !! Z.to_nat i' with
       | Some a => Ok a
       | None => Raise IndexError
       end.

(** ** Region resolution ([get_region_detail], lines 23-51)

    [region_walk] follows the function body and records, next to the list
    [details] it builds, which level each component came from and which keys
    were passed to [region_codes.get].  [components] is [None] when the
    function leaves through the early [return] of line 37. *)

Inductive level := Province | City | District.

Record walk := mkwalk {
  components : option (list (level * str));
  lookups : list str
}.

(** [if v:] for the result of [d.get(k)]: present and not empty. *)
Definition truthy (v : option str) : option str :=
  match v with
  | Some (c :: s) => Some (c :: s)
  | _ => None
  end.

Definition slash : char := 47%N.

Definition unknown_province : str := Eval vm_compute in u8 "未知省份".
Definition unknown_region : str := Eval vm_compute in u8 "未知地区".

Definition region_walk (code : str) (region_codes : gmap str str) : walk :=
  let province_code := take 2 code ++ u8 "0000" in
  match truthy (region_codes !! province_code) with
  | None => mkwalk None [province_code]
  | Some province =>
      let details := [(Province, province)] in
      let city_code := take 4 code ++ u8 "00" in
      let '(details, looked) :=
        if negb (str_eqb city_code province_code) then
          (match truthy (region_codes !! city_code) with
           | Some city => details ++ [(City, last_item (split slash city))]
           | None => details
           end, [province_code; city_code])
        else (details, [province_code]) in
      let details :=
        match truthy (region_codes !! code) with
        | Some district => details ++ [(District, last_item (split slash district))]
        | None => details
        end in
      mkwalk (Some details) (looked ++ [code])
  end.

Definition get_region_detail (code : str) (region_codes : gmap str str) : list str :=
  match components (region_walk code region_codes) with
  | None => [unknown_province]
  | Some details =>
      match details with
      | [] => [unknown_region]
      | _ => map snd details
      end
  end.

(** ** Check character ([compute_check_code], lines 54-63) *)

Definition coefficients : list Z :=
  [7; 9; 10; 5; 8; 4; 2; 1; 6; 3; 7; 9; 10; 5; 8; 4; 2].

Definition check_codes : list str :=
  map u8 ["1"; "0"; "X"; "9"; "8"; "7"; "6"; "5"; "4"; "3"; "2"]%string.

(** [sum(int(id_17[i]) * coefficients[i] for i in range(17))], one index at
    a time. *)
Fixpoint weighted_sum (id_17 : str) (indices : list nat) (total : Z) : res Z :=
  match indices with
  | [] => Ok total
  | i :: rest =>
      do c <- index id_17 i ;;
      do d <- int c ;;
      do k <- item coefficients (Z.of_nat i) ;;
      weighted_sum id_17 rest (total + d * k)
  end.

Definition compute_check_code (id_17 : str) : res str :=
  do total <- weighted_sum id_17 (seq 0 17) 0 ;;
  item check_codes (total mod 11).

(** ** Upgrade of the 15 character form ([upgrade_15_to_18], lines 66-75) *)

Definition upgrade_15_to_18 (id_15 : str) : res (option str) :=
  if (len id_15 =? 15) && isdigit id_15 then
    let new_id := take 6 id_15 ++ u8 "19" ++ drop 6 id_15 in
    do check <- compute_check_code new_id ;;
    Ok (Some (new_id ++ check))
  else Ok None.

(** ** Dates *)

Record date := mkdate { year : Z; month : Z; day : Z }.

Definition is_leap (y : Z) : bool :=
  (y mod 4 =? 0) && (negb (y mod 100 =? 0) || (y mod 400 =? 0)).

Definition days_in_month (y m : Z) : Z :=
  if m =? 2 then (if is_leap y then 29 else 28)
  else if (m =? 4) || (m =? 6) || (m =? 9) || (m =? 11) then 30
  else 31.

Definition date_ok (d : date) : bool :=
  (1 <=? year d) && (year d <=? 9999) &&
  (1 <=? month d) && (month d <=? 12) &&
  (1 <=? day d) && (day d <=? days_in_month (year d) (month d)).

(** [datetime.date(y, m, d)] *)
Definition make_date (y m d : Z) : res date :=
  if date_ok (mkdate y m d) then Ok (mkdate y m d) else Raise ValueError.

(** [datetime.datetime.strptime(s, "%Y%m%d").date()].  The format compiles
    to a regular expression of three groups,
    [(\d\d\d\d)(1[0-2]|0[1-9]|[1-9])(3[0-1]|[1-2]\d|0[1-9]|[1-9]| [1-9])],
    matched at the start of [s] with the alternatives tried from the left;
    text left over after the match, or no match, is a [ValueError]. *)

Definition cls := char -> bool.
Definition lit (a : string) : cls :=
  fun c => match u8 a with [x] => (c =? x)%N | _ => false end.
Definition between (a b : string) : cls :=
  fun c => match u8 a, u8 b with
           | [lo], [hi] => (lo <=? c)%N && (c <=? hi)%N
           | _, _ => false
           end.
Definition re_digit : cls := fun c => bool_decide (is_Some (decimal_value c)).

Fixpoint match_atoms (atoms : list cls) (s : str) : option (str * str) :=
  match atoms, s with
  | [], _ => Some ([], s)
  | a :: atoms', c :: s' =>
      if a c then
        match match_atoms atoms' s' with
        | Some (m, r) => Some (c :: m, r)
        | None => None
        end
      else None
  | _ :: _, [] => None
  end.

Fixpoint re_match (groups : list (list (list cls))) (s : str)
  : option (list str * str) :=
  match groups with
  | [] => Some ([], s)
  | g :: groups' =>
      (fix alternatives (alts : list (list cls)) : option (list str * str) :=
         match alts with
         | [] => None
         | alt :: alts' =>
             match match_atoms alt s with
             | Some (m, r) =>
                 match re_match groups' r with
                 | Some (ms, r') => Some (m :: ms, r')
                 | None => alternatives alts'
                 end
             | None => alternatives alts'
             end
         end) g
  end.

Definition re_Y : list (list cls) := [[re_digit; re_digit; re_digit; re_digit]].
Definition re_m : list (list cls) :=
  [[lit "1"; between "0" "2"]; [lit "0"; between "1" "9"]; [between "1" "9"]].
Definition re_d : list (list cls) :=
  [[lit "3"; between "0" "1"]; [between "1" "2"; re_digit];
   [lit "0"; between "1" "9"]; [between "1" "9"]; [lit " "; between "1" "9"]].

Definition strptime_Ymd (s : str) : res date :=
  match re_match [re_Y; re_m; re_d] s with
  | Some ([y; m; d], []) =>
      do y <- int y ;;
      do m <- int m ;;
      do d <- int d ;;
      make_date y m d
  | _ => Raise ValueError
  end.

(** [d.strftime("%Y-%m-%d")].  CPython hands the format to the C library,
    and glibc prints [%Y] as the decimal number of the year without padding:
    four digits from year 1000 on, fewer below ("999-01-01").  [%m] and [%d]
    are two digits. *)
Definition strftime_Ymd (d : date) : str :=
  str_of_int (year d) ++ u8 "-" ++ format_0d 2 (month d) ++ u8 "-"
  ++ format_0d 2 (day d).

(** ** Derived attributes *)

(** [get_zodiac_sign], lines 78-95 *)
Definition zodiac_signs : list (Z * str) :=
  [(120, u8 "水瓶座"); (219, u8 "双鱼座"); (321, u8 "白羊座"); (420, u8 "金牛座");
   (521, u8 "双子座"); (622, u8 "巨蟹座"); (723, u8 "狮子座"); (823, u8 "处女座");
   (923, u8 "天秤座"); (1024, u8 "天蝎座"); (1123, u8 "射手座"); (1222, u8 "摩羯座")].

(** The [for index, (cutoff, sign) in enumerate(zodiac_signs)] loop, with
    the [return] of line 95 after it. *)
Fixpoint zodiac_loop (birth_num : Z) (index : Z) (rest : list (Z * str)) : res str :=
  match rest with
  | [] =>
      do e <- item zodiac_signs (-1) ;; Ok (snd e)
  | (cutoff, sign) :: rest' =>
      if birth_num <? cutoff then
        if 0 <? index then do e <- item zodiac_signs (index - 1) ;; Ok (snd e)
        else do e <- item zodiac_signs (-1) ;; Ok (snd e)
      else zodiac_loop birth_num (index + 1) rest'
  end.

Definition get_zodiac_sign (birth_date : date) : res str :=
  do birth_num <- int (str_of_int (month birth_date) ++ format_0d 2 (day birth_date)) ;;
  zodiac_loop birth_num 0 zodiac_signs.

(** [get_chinese_zodiac], lines 98-107 *)
Definition zodiacs : list str :=
  map u8 ["鼠"; "牛"; "虎"; "兔"; "龙"; "蛇"; "马"; "羊"; "猴"; "鸡"; "狗"; "猪"]%string.

Definition get_chinese_zodiac (year : Z) : res str :=
  let base_year := 1900 in
  let index := (year - base_year) mod 12 in
  item zodiacs index.

(** [get_birth_season], lines 110-124 *)
Definition get_birth_season (birth_date : date) : str :=
  let month := month birth_date in
  if (3 <=? month) && (month <=? 5) then u8 "春季"
  else if (6 <=? month) && (month <=? 8) then u8 "夏季"
  else if (9 <=? month) && (month <=? 11) then u8 "秋季"
  else u8 "冬季".

(** The age expression of lines 191-193.  [(a, b) < (c, d)] on tuples
    compares the first components that differ; a [bool] subtracts as 0 or 1. *)
Definition tuple_lt (a b : Z * Z) : bool :=
  if negb (fst a =? fst b) then fst a <? fst b
  else if negb (snd a =? snd b) then snd a <? snd b
  else false.

Definition age_on (current_date birth_date : date) : Z :=
  year current_date - year birth_date
  - Z.b2z (tuple_lt (month current_date, day current_date)
                    (month birth_date, day birth_date)).
(** ** The parser ([parse_id_info], lines 127-207)

    The function fills in one dictionary and leaves through one of several
    [return info] statements, or through an exception that nothing catches.
    A statement is run on the dictionary built so far and yields the
    dictionary after it together with a signal: go on with a value, leave
    through [return info], or raise.  Assignments made before an exception
    stay in the dictionary, as they do in Python. *)

Record info := mkinfo {
  address : str;          (* "地址" *)
  birth_date : str;       (* "出生日期" *)
  age : Z;                (* "年龄" *)
  gender : str;           (* "性别" *)
  check_code : str;       (* "校验码" *)
  valid : bool;           (* "有效性" *)
  error : str;            (* "错误信息" *)
  zodiac : str;           (* "星座" *)
  chinese_zodiac : str;   (* "生肖" *)
  birth_season : str      (* "出生季节" *)
}.

(** Lines 134-145. *)
Definition initial_info : info :=
  mkinfo (u8 "未知") [] 0 [] [] false [] [] [] [].

Definition set_address v i :=
  mkinfo v (birth_date i) (age i) (gender i) (check_code i) (valid i) (error i)
         (zodiac i) (chinese_zodiac i) (birth_season i).
Definition set_birth_date v i :=
  mkinfo (address i) v (age i) (gender i) (check_code i) (valid i) (error i)
         (zodiac i) (chinese_zodiac i) (birth_season i).
Definition set_age v i :=
  mkinfo (address i) (birth_date i) v (gender i) (check_code i) (valid i) (error i)
         (zodiac i) (chinese_zodiac i) (birth_season i).
Definition set_gender v i :=
  mkinfo (address i) (birth_date i) (age i) v (check_code i) (valid i) (error i)
         (zodiac i) (chinese_zodiac i) (birth_season i).
Definition set_check_code v i :=
  mkinfo (address i) (birth_date i) (age i) (gender i) v (valid i) (error i)
         (zodiac i) (chinese_zodiac i) (birth_season i).
Definition set_valid v i :=
  mkinfo (address i) (birth_date i) (age i) (gender i) (check_code i) v (error i)
         (zodiac i) (chinese_zodiac i) (birth_season i).
Definition set_error v i :=
  mkinfo (address i) (birth_date i) (age i) (gender i) (check_code i) (valid i) v
         (zodiac i) (chinese_zodiac i) (birth_season i).
Definition set_zodiac v i :=
  mkinfo (address i) (birth_date i) (age i) (gender i) (check_code i) (valid i) (error i)
         v (chinese_zodiac i) (birth_season i).
Definition set_chinese_zodiac v i :=
  mkinfo (address i) (birth_date i) (age i) (gender i) (check_code i) (valid i) (error i)
         (zodiac i) v (birth_season i).
Definition set_birth_season v i :=
  mkinfo (address i) (birth_date i) (age i) (gender i) (check_code i) (valid i) (error i)
         (zodiac i) (chinese_zodiac i) v.

Inductive signal (A : Type) : Type :=
| Next (a : A)
| Return
| Throw (e : exn).
Arguments Next {A} a.
Arguments Return {A}.
Arguments Throw {A} e.

Definition stmt (A : Type) : Type := info -> info * signal A.

Definition pass {A} (a : A) : stmt A := fun i => (i, Next a).

Definition seq_stmt {A B} (m : stmt A) (k : A -> stmt B) : stmt B :=
  fun i =>
    match m i with
    | (i', Next a) => k a i'
    | (i', Return) => (i', Return)
    | (i', Throw e) => (i', Throw e)
    end.

Notation "'run' x <- m ;; k" := (seq_stmt m (fun x => k))
  (at level 10, x name, m at level 99, k at level 200).
Notation "'exec' m ;; k" := (seq_stmt m (fun _ => k))
  (at level 10, m at level 99, k at level 200).

(** [info[key] = v] *)
Definition assign (set : info -> info) : stmt unit := fun i => (set i, Next tt).

(** [return info] *)
Definition return_info {A} : stmt A := fun i => (i, Return).

(** A call that can raise. *)
Definition call {A} (r : res A) : stmt A :=
  fun i => match r with
           | Ok a => (i, Next a)
           | Raise e => (i, Throw e)
           end.

(** [try: body except ValueError: handler] *)
Definition try_except_ValueError {A} (body handler : stmt A) : stmt A :=
  fun i =>
    match body i with
    | (i', Throw ValueError) => handler i'
    | other => other
    end.

Definition err_17_digits : str := Eval vm_compute in u8 "错误：17 位身份证必须全为数字".
Definition err_length : str := Eval vm_compute in u8 "错误：身份证号码长度不正确".
Definition err_15 : str := Eval vm_compute in u8 "错误：无效的 15 位身份证号码".
Definition err_18_format : str := Eval vm_compute in u8 "错误：无效的 18 位身份证格式".
Definition err_checksum_prefix : str := Eval vm_compute in u8 "错误：校验码不匹配（应为".
Definition err_checksum_suffix : str := Eval vm_compute in u8 "）".
Definition err_checksum (expected_check : str) : str :=
  err_checksum_prefix ++ expected_check ++ err_checksum_suffix.
Definition err_birth_date : str := Eval vm_compute in u8 "错误：无效的出生日期".

(** Lines 147-181: trimming, completion of the 17 and 15 character forms,
    format and check-character verification.  Goes on with the 18 character
    number.  The [print] of line 155 is not modelled. *)
Definition normalize (id_number : str) : stmt str :=
  let id_num := upper (strip id_number) in
  run id_num <-
    (if len id_num =? 17 then
       if isdigit id_num then
         run check_code <- call (compute_check_code id_num) ;;
         pass (id_num ++ check_code)
       else
         exec assign (set_error err_17_digits) ;;
         return_info
     else pass id_num) ;;
  exec (if negb ((len id_num =? 15) || (len id_num =? 18)) then
         exec assign (set_error err_length) ;;
         return_info
       else pass tt) ;;
  run id_num <-
    (if len id_num =? 15 then
       run upgraded <- call (upgrade_15_to_18 id_num) ;;
       match upgraded with
       | Some (c :: rest) => pass (c :: rest)
       | _ =>
           exec assign (set_error err_15) ;;
           return_info
       end
     else pass id_num) ;;
  exec (if negb (len id_num =? 18) || negb (isdigit (take 17 id_num)) then
         exec assign (set_error err_18_format) ;;
         return_info
       else pass tt) ;;
  run expected_check <- call (compute_check_code (take 17 id_num)) ;;
  run supplied <- call (index id_num 17) ;;
  exec (if negb (str_eqb supplied expected_check) then
         exec assign (set_error (err_checksum expected_check)) ;;
         return_info
       else pass tt) ;;
  pass id_num.

(** Lines 183-207: address, birth date and the attributes derived from it,
    gender and check character. *)
Definition decode (current_date : date) (region_codes : gmap str str)
    (id_num : str) : stmt unit :=
  let region_code := take 6 id_num in
  let region_details := get_region_detail region_code region_codes in
  exec assign (set_address (join (u8 " ") region_details)) ;;
  exec try_except_ValueError
        (run birth_date <- call (strptime_Ymd (slice 6 14 id_num)) ;;
         exec assign (set_age (age_on current_date birth_date)) ;;
         exec assign (set_birth_date (strftime_Ymd birth_date)) ;;
         run sign <- call (get_zodiac_sign birth_date) ;;
         exec assign (set_zodiac sign) ;;
         run animal <- call (get_chinese_zodiac (year birth_date)) ;;
         exec assign (set_chinese_zodiac animal) ;;
         assign (set_birth_season (get_birth_season birth_date)))
        (exec assign (set_error err_birth_date) ;;
         return_info) ;;
  run digit <- call (index id_num 16) ;;
  run gender_code <- call (int digit) ;;
  exec assign (set_gender (if gender_code mod 2 =? 1 then u8 "男" else u8 "女")) ;;
  run last <- call (index id_num 17) ;;
  exec assign (set_check_code last) ;;
  exec assign (set_valid true) ;;
  return_info.

Definition parse_id_info (current_date : date) (id_number : str)
    (region_codes : gmap str str) : res info :=
  match (run id_num <- normalize id_number ;;
         decode current_date region_codes id_num) initial_info with
  | (i, Throw e) => Raise e
  | (i, _) => Ok i
  end.

(** ** Loading the directory ([load_region_data], lines 5-20)

    The file is given by the lines its iteration yields, or by [None] when
    opening it raises [FileNotFoundError]; the message printed in that case
    is not modelled, nor are other I/O or decoding errors, which the
    function does not catch. *)

(** [s.split()]: the maximal runs of characters that are no whitespace. *)
Fixpoint split_at (p : char -> bool) (s : str) : list str :=
  match s with
  | [] => [[]]
  | c :: s' =>
      if p c then [] :: split_at p s'
      else match split_at p s' with
           | [] => [[c]]
           | w :: ws => (c :: w) :: ws
           end
  end.

Definition nonempty (w : str) : bool :=
  match w with
  | [] => false
  | _ => true
  end.

Definition split_whitespace (s : str) : list str :=
  filter (fun w => nonempty w = true) (split_at isspace s).

(** The body of the [for line in file] loop. *)
Definition load_line (region_codes : gmap str str) (line : str) : gmap str str :=
  let parts := split_whitespace (strip line) in
  match parts with
  | [code; name] => <[code := name]> region_codes
  | _ => region_codes
  end.

Definition load_region_data (file : option (list str)) : gmap str str :=
  match file with
  | Some lines => fold_left load_line lines ∅
  | None => ∅
  end.

(** ** Vocabulary of the properties *)

(** An ASCII digit, ['0'] to ['9']. *)
Definition ascii_digit (c : char) : Prop := (48 <= c <= 57)%N.

(** The check character as the specification words it: the digit at
    position [i] times the [i]-th coefficient, summed over the 17 positions,
    reduced modulo 11, looked up in the table of check characters. *)
Definition digit_at (id17 : str) (i : nat) : Z := Z.of_N (nth i id17 0%N) - 48.

Definition check_character_spec (id17 : str) : str :=
  let products :=
    map (fun i => digit_at id17 i
                  * nth i [7; 9; 10; 5; 8; 4; 2; 1; 6; 3; 7; 9; 10; 5; 8; 4; 2] 0)
        (seq 0 17) in
  let total := fold_right Z.add 0 products in
  nth (Z.to_nat (total mod 11))
      (map u8 ["1"; "0"; "X"; "9"; "8"; "7"; "6"; "5"; "4"; "3"; "2"]%string) [].

(** The zodiac sign as the specification words it: the first entry of the
    cutoff table whose cutoff exceeds [month*100 + day] selects the entry
    before it; the first entry, or no entry, selects the last one. *)
Definition zodiac_sign_spec (birth : date) : str :=
  let birthNum := month birth * 100 + day birth in
  match list_find (fun e : Z * str => birthNum < fst e) zodiac_signs with
  | Some (S i, _) => snd (nth i zodiac_signs (0, []))
  | Some (O, _) => snd (List.last zodiac_signs (0, []))
  | None => snd (List.last zodiac_signs (0, []))
  end.

(** The age as the specification words it, with the lexicographic order on
    (month, day) pairs spelled out. *)
Definition month_day_before (a b : date) : Prop :=
  month a < month b \/ (month a = month b /\ day a < day b).

Definition age_spec (reference birth : date) : Z :=
  year reference - year birth
  - (if decide (month_day_before reference birth) then 1 else 0).

(** [birth] is on or before [reference]. *)
Definition not_after (birth reference : date) : Prop :=
  year birth < year reference
  \/ (year birth = year reference /\ ~ month_day_before reference birth).

(** The birth date carried by an input: that of characters 6 to 13 of the
    number [normalize] goes on with. *)
Definition birth_of (id_number : str) : option date :=
  match normalize id_number initial_info with
  | (_, Next id_num) =>
      match strptime_Ymd (slice 6 14 id_num) with
      | Ok birth => Some birth
      | Raise _ => None
      end
  | _ => None
  end.

(** A valid 18 character number: 17 digits followed by the check character
    computed from them. *)
Definition valid_number (id : str) (check : char) : Prop :=
  length id = 18%nat
  /\ isdigit (take 17 id) = true
  /\ id !! 17%nat = Some check
  /\ compute_check_code (take 17 id) = Ok [check].

(** The code points from [lo] to [hi]. *)
Definition enumerate_range (lo hi : N) : list N :=
  map (fun k => (lo + N.of_nat k)%N) (seq 0 (N.to_nat (hi + 1 - lo))).

(** The characters from 128 on that [isdigit] accepts, listed one by one. *)
Definition unicode_digit_chars : list N :=
  flat_map (fun z => enumerate_range z (z + 9)) unicode_decimal_zeros
  ++ flat_map (fun r : N * N => enumerate_range (fst r) (snd r)) unicode_other_digits.

(** Trimming and uppercasing leave a character alone. *)
Definition unchanged_char (c : char) : bool :=
  negb (isspace c) && bool_decide (upper_char c = [c]).

(** The keys [get_region_detail] builds from a code. *)
Definition province_key (code : str) : str := take 2 code ++ u8 "0000".
Definition city_key (code : str) : str := take 4 code ++ u8 "00".

(** The fields a successful parse fills in. *)
Definition populated (current_date : date) (birth : date) (i : info) : Prop :=
  address i <> []
  /\ birth_date i = strftime_Ymd birth /\ birth_date i <> []
  /\ age i = age_on current_date birth
  /\ (gender i = u8 "男" \/ gender i = u8 "女")
  /\ length (check_code i) = 1%nat
  /\ In (zodiac i) (map snd zodiac_signs)
  /\ In (chinese_zodiac i) zodiacs
  /\ In (birth_season i) (map u8 ["春季"; "夏季"; "秋季"; "冬季"]%string).

(** Every field but the error message and the address is as initialised. *)
Definition derived_fields_default (i : info) : Prop :=
  birth_date i = [] /\ age i = 0 /\ gender i = [] /\ check_code i = []
  /\ zodiac i = [] /\ chinese_zodiac i = [] /\ birth_season i = [].

(** The directory and reference date of the end-to-end example. *)
Definition beijing : gmap str str :=
  <[u8 "110000" := u8 "北京市"]>
    (<[u8 "110100" := u8 "北京市/市辖区"]>
       (<[u8 "110105" := u8 "北京市/市辖区/朝阳区"]> ∅)).

Definition new_year_2024 : date := mkdate 2024 1 1.

(** A directory whose province entry is the empty string. *)
Definition blank_province : gmap str str := <[u8 "110000" := []]> ∅.

(** The last three steps (lines 173-181) on an 18 character number. *)
Definition verify (id_num : str) : stmt str :=
  exec (if negb (len id_num =? 18) || negb (isdigit (take 17 id_num)) then
          exec assign (set_error err_18_format) ;;
          return_info
        else pass tt) ;;
  run expected_check <- call (compute_check_code (take 17 id_num)) ;;
  run supplied <- call (index id_num 17) ;;
  exec (if negb (str_eqb supplied expected_check) then
          exec assign (set_error (err_checksum expected_check)) ;;
          return_info
        else pass tt) ;;
  pass id_num.

(** The dictionary a successful parse returns. *)
Definition decoded (current_date birth : date) (addr gender_name animal check : str)
    (i : info) : info :=
  set_valid true
    (set_check_code check
       (set_gender gender_name
          (set_birth_season (get_birth_season birth)
             (set_chinese_zodiac animal
                (set_zodiac (zodiac_sign_spec birth)
                   (set_birth_date (strftime_Ymd birth)
                      (set_age (age_on current_date birth)
                         (set_address addr i)))))))).

(** Whether [int(f"{month}{day:02d}")] is [month*100 + day]. *)
Definition birth_num_agrees (m d : Z) : bool :=
  match int (str_of_int m ++ format_0d 2 d) with
  | Ok v => v =? m * 100 + d
  | Raise _ => false
  end.

(** The gender and the animal [decode] assigns (lines 196 and 203-204). *)
Definition gender_of (gender_code : Z) : str :=
  if gender_code mod 2 =? 1 then u8 "男" else u8 "女".

Definition animal_of (year : Z) : str :=
  nth (Z.to_nat ((year - 1900) mod 12)) zodiacs [].

(** The value [int] gives for the character at index 16. *)
Definition gender_digit (id : str) : Z :=
  match id !! 16%nat with
  | Some d => match int [d] with Ok v => v | Raise _ => 0 end
  | None => 0
  end.

(** [parse_id_info] in one expression: what it returns in terms of what
    [normalize] and [strptime] give. *)
Definition parse_summary (current_date : date) (id_number : str)
    (region_codes : gmap str str) : res info :=
  match normalize id_number initial_info with
  | (i, Return) => Ok i
  | (_, Throw e) => Raise e
  | (_, Next id) =>
      let addr := join (u8 " ") (get_region_detail (take 6 id) region_codes) in
      match strptime_Ymd (slice 6 14 id) with
      | Raise _ => Ok (set_error err_birth_date (set_address addr initial_info))
      | Ok birth =>
          Ok (decoded current_date birth addr (gender_of (gender_digit id))
                (animal_of (year birth)) (drop 17 id) initial_info)
      end
  end.

(** The weighted sum [compute_check_code] reduces modulo 11. *)
Definition check_total (s : str) : Z :=
  fold_right Z.add 0
    (map (fun i => digit_at s i * nth i coefficients 0) (seq 0 17)).

(** Whether a difference [delta] of two digits, weighted by the difference
    of the coefficients at positions [i] and [k], is a multiple of 11. *)
Definition swap_unseen (i k : nat) (delta : Z) : bool :=
  ((nth i coefficients 0 - nth k coefficients 0) * delta) mod 11 =? 0.

Definition digit_differences : list Z :=
  [-9; -8; -7; -6; -5; -4; -3; -2; -1; 1; 2; 3; 4; 5; 6; 7; 8; 9].

(** The number a string of ASCII digits stands for. *)
Definition digits_value (s : str) : Z :=
  fold_left (fun acc c => 10 * acc + (Z.of_N c - 48)) s 0.

(** All strings of [n] ASCII digits. *)
Fixpoint digit_strings (n : nat) : list str :=
  match n with
  | O => [[]]
  | S n' =>
      flat_map (fun c => map (cons c) (digit_strings n'))
               [48; 49; 50; 51; 52; 53; 54; 55; 56; 57]%N
  end.

(** On four digits [int] gives their value, and from 1000 on [%Y] prints
    them back. *)
Definition year_digits_agree (y : str) : bool :=
  match int y with
  | Ok v =>
      (v =? digits_value y)
      && (if 1000 <=? v then bool_decide (str_of_int v = y) else true)
  | Raise _ => false
  end.

(** What the month and day groups of the format read from the characters
    after the year: the values of the two groups when they match all of the
    characters and [int] accepts them. *)
Definition month_day_reading (md : str) : option (Z * Z) :=
  match re_match [re_m; re_d] md with
  | Some ([ms; ds], []) =>
      match int ms, int ds with
      | Ok mv, Ok dv => Some (mv, dv)
      | _, _ => None
      end
  | _ => None
  end.

Definition month_day_in_range (m d : Z) : bool :=
  (1 <=? m) && (m <=? 12) && (1 <=? d) && (d <=? 31).

(** On four digits the groups read the month and the day the digits spell,
    which [%m] and [%d] print back, exactly when these are a month from 1 to
    12 and a day from 1 to 31. *)
Definition month_day_digits_agree (md : str) : bool :=
  let m := digits_value (take 2 md) in
  let d := digits_value (drop 2 md) in
  if month_day_in_range m d then
    bool_decide (month_day_reading md = Some (m, d))
    && bool_decide (format_0d 2 m = take 2 md)
    && bool_decide (format_0d 2 d = drop 2 md)
  else bool_decide (month_day_reading md = None).

(** The calendar date that eight ASCII digits spell as YYYYMMDD. *)
Definition spelled_date (d8 : str) : date :=
  mkdate (digits_value (take 4 d8)) (digits_value (slice 4 6 d8))
         (digits_value (slice 6 8 d8)).

(** ** The model on sample inputs *)

Example strip_upper_sample : upper (strip (u8 "  11010519491231002x ")) = u8 "11010519491231002X".
Proof. vm_compute. reflexivity. Qed.

Example upper_can_lengthen : upper (u8 "ß") = u8 "SS".
Proof. vm_compute. reflexivity. Qed.

Example isdigit_is_wider_than_int :
  isdigit (u8 "²") = true /\ int (u8 "²") = Raise ValueError
  /\ isdigit (u8 "１９") = true /\ int (u8 "１９") = Ok 19.
Proof. vm_compute. repeat split; reflexivity. Qed.

Example strptime_samples :
  strptime_Ymd (u8 "19900307") = Ok (mkdate 1990 3 7)
  /\ strptime_Ymd (u8 "20000229") = Ok (mkdate 2000 2 29)
  /\ strptime_Ymd (u8 "19000229") = Raise ValueError
  /\ strptime_Ymd (u8 "19901307") = Raise ValueError
  /\ strptime_Ymd (u8 "19900332") = Raise ValueError
  /\ strptime_Ymd (u8 "00000101") = Raise ValueError.
Proof. vm_compute. repeat split; reflexivity. Qed.

Example strftime_samples :
  strftime_Ymd (mkdate 1990 3 7) = u8 "1990-03-07"
  /\ strftime_Ymd (mkdate 1000 12 31) = u8 "1000-12-31"
  /\ strftime_Ymd (mkdate 999 1 1) = u8 "999-01-01"
  /\ strftime_Ymd (mkdate 1 1 1) = u8 "1-01-01".
Proof. vm_compute. repeat split; reflexivity. Qed.

Example upgrade_sample :
  upgrade_15_to_18 (u8 "110105491231002") = Ok (Some (u8 "11010519491231002X")).
Proof. vm_compute. reflexivity. Qed.

Example attribute_samples :
  get_chinese_zodiac 1900 = Ok (u8 "鼠")
  /\ get_chinese_zodiac 1990 = Ok (u8 "马")
  /\ get_birth_season (mkdate 1990 3 7) = u8 "春季"
  /\ get_birth_season (mkdate 1949 12 31) = u8 "冬季"
  /\ strftime_Ymd (mkdate 1990 3 7) = u8 "1990-03-07".
Proof. vm_compute. repeat split; reflexivity. Qed.

Example region_samples :
  get_region_detail (u8 "110105") beijing = [u8 "北京市"; u8 "市辖区"; u8 "朝阳区"]
  /\ lookups (region_walk (u8 "110105") beijing) = [u8 "110000"; u8 "110100"; u8 "110105"]
  /\ get_region_detail (u8 "110105") ∅ = [u8 "未知省份"].
Proof. vm_compute. repeat split; reflexivity. Qed.

(** ** Facts about the built-ins on ASCII digits *)

Lemma ascii_digit_cases (c : char) :
  ascii_digit c -> In c [48; 49; 50; 51; 52; 53; 54; 55; 56; 57]%N.
Proof.
  unfold ascii_digit. intros [Hlo Hhi]. simpl.
  assert (c = 48 \/ c = 49 \/ c = 50 \/ c = 51 \/ c = 52 \/ c = 53 \/ c = 54
          \/ c = 55 \/ c = 56 \/ c = 57)%N by lia.
  intuition auto.
Qed.

Ltac each_digit H :=
  apply ascii_digit_cases in H; simpl in H;
  repeat (destruct H as [H | H]; [subst; vm_compute; reflexivity |]);
  destruct H.

Lemma int_ascii_digit (c : char) :
  ascii_digit c -> int [c] = Ok (Z.of_N c - 48).
Proof. intros H. each_digit H. Qed.

Lemma upper_char_ascii_digit (c : char) :
  ascii_digit c -> upper_char c = [c].
Proof. intros H. each_digit H. Qed.

Lemma isspace_ascii_digit (c : char) :
  ascii_digit c -> isspace c = false.
Proof. intros H. each_digit H. Qed.

Lemma in_enumerate_range (lo hi c : N) :
  (lo <= c <= hi)%N -> In c (enumerate_range lo hi).
Proof.
  intros Hc. unfold enumerate_range. apply in_map_iff.
  exists (N.to_nat (c - lo)). split; [lia | apply in_seq; lia].
Qed.

Lemma in_ranges_true (c : char) (rs : list (N * N)) :
  in_ranges c rs = true ->
  exists lo hi, In (lo, hi) rs /\ (lo <= c <= hi)%N.
Proof.
  unfold in_ranges. rewrite existsb_exists. intros ([lo hi] & Hin & Hb).
  apply andb_prop in Hb. destruct Hb as [Hlo Hhi].
  apply N.leb_le in Hlo. apply N.leb_le in Hhi. eauto.
Qed.

(** Every character that [isdigit] accepts is an ASCII digit or is listed. *)
Lemma isdigit_char_listed (c : char) :
  isdigit_char c = true -> ascii_digit c \/ In c unicode_digit_chars.
Proof.
  unfold isdigit_char, decimal_value, ascii_digit, unicode_digit_chars.
  destruct (c <? 128)%N eqn:Hascii.
  - destruct ((48 <=? c)%N && (c <=? 57)%N) eqn:Hd.
    + intros _. left. apply andb_prop in Hd. destruct Hd as [Hlo Hhi].
      apply N.leb_le in Hlo. apply N.leb_le in Hhi. lia.
    + intros H. apply andb_prop in H. destruct H as [H _].
      apply N.leb_le in H. apply N.ltb_lt in Hascii. lia.
  - intros H. right. apply in_or_app.
    destruct (find _ unicode_decimal_zeros) as [z |] eqn:Hz.
    + left. apply find_some in Hz. destruct Hz as [Hin Hb].
      apply andb_prop in Hb. destruct Hb as [Hlo Hhi].
      apply N.leb_le in Hlo. apply N.ltb_lt in Hhi.
      apply in_flat_map. exists z. split; [exact Hin |].
      apply in_enumerate_range. lia.
    + right. cbn [option_map] in H.
      apply andb_prop in H. destruct H as [_ H].
      destruct (in_ranges_true _ _ H) as (lo & hi & Hin & Hc).
      apply in_flat_map. exists (lo, hi). split; [exact Hin |].
      apply in_enumerate_range. exact Hc.
Qed.

Lemma unicode_digit_chars_unchanged :
  forallb unchanged_char unicode_digit_chars = true.
Proof. vm_compute. reflexivity. Qed.

(** A character that [isdigit] accepts is no whitespace and is its own
    uppercase form. *)
Lemma isdigit_char_unchanged (c : char) :
  isdigit_char c = true -> isspace c = false /\ upper_char c = [c].
Proof.
  intros H. destruct (isdigit_char_listed c H) as [Hd | Hin].
  - split; [exact (isspace_ascii_digit c Hd) | exact (upper_char_ascii_digit c Hd)].
  - pose proof unicode_digit_chars_unchanged as Ht.
    rewrite forallb_forall in Ht. specialize (Ht c Hin).
    unfold unchanged_char in Ht. apply andb_prop in Ht. destruct Ht as [Hs Hu].
    apply negb_true_iff in Hs. apply bool_decide_eq_true in Hu.
    split; assumption.
Qed.

Lemma int_raises_ValueError (s : str) (e : exn) :
  int s = Raise e -> e = ValueError.
Proof.
  unfold int. destruct (strip s) as [|c r]; simpl.
  - intros H. congruence.
  - destruct (match c with 45%N => _ | _ => _ end) as [sg ds].
    destruct (int_digits 0 false ds); congruence.
Qed.

(** ** The check character *)

Lemma item_in_range {A} (l : list A) (i : Z) (d : A) :
  0 <= i < Z.of_nat (length l) -> item l i = Ok (nth (Z.to_nat i) l d).
Proof.
  intros Hi. unfold item.
  destruct (i <? 0) eqn:Hneg; [lia |]. rewrite Hneg.
  destruct (l !! Z.to_nat i) as [a|] eqn:Hl.
  - f_equal. symmetry. apply nth_lookup_Some with (d := d) in Hl. exact Hl.
  - apply lookup_ge_None in Hl. lia.
Qed.

Lemma index_in_range (s : str) (i : nat) :
  (i < length s)%nat -> index s i = Ok [nth i s 0%N].
Proof.
  intros Hi. unfold index.
  destruct (s !! i) as [c|] eqn:Hs.
  - apply nth_lookup_Some with (d := 0%N) in Hs. now rewrite Hs.
  - apply lookup_ge_None in Hs. lia.
Qed.

Lemma weighted_sum_digits (s : str) :
  length s = 17%nat -> Forall ascii_digit s ->
  forall n a total, (a + n <= 17)%nat ->
    weighted_sum s (seq a n) total
    = Ok (total + fold_right Z.add 0
                    (map (fun i => digit_at s i * nth i coefficients 0) (seq a n))).
Proof.
  intros Hlen Hdig. induction n as [|n IH]; intros a total Hle.
  - simpl. f_equal. lia.
  - cbn [seq weighted_sum map fold_right].
    rewrite index_in_range by lia. cbn [bind].
    assert (Hc : ascii_digit (nth a s 0%N)).
    { apply (proj1 (Forall_nth ascii_digit 0%N s) Hdig). lia. }
    rewrite (int_ascii_digit _ Hc). cbn [bind].
    rewrite (item_in_range coefficients (Z.of_nat a) 0)
      by (unfold coefficients; simpl length; lia).
    cbn [bind]. rewrite IH by lia. rewrite Nat2Z.id.
    unfold digit_at. f_equal. lia.
Qed.

(** C3. On every string of 17 ASCII digits [compute_check_code] returns the
    character the specification describes (weights, sum, modulo 11, table
    lookup), and on "11010519491231002" it returns 'X'. *)
Theorem compute_check_code_is_spec :
  (forall id_17 : str,
      length id_17 = 17%nat -> Forall ascii_digit id_17 ->
      compute_check_code id_17 = Ok (check_character_spec id_17))
  /\ compute_check_code (u8 "11010519491231002") = Ok (u8 "X").
Proof.
  split; [| vm_compute; reflexivity].
  intros id_17 Hlen Hdig. unfold compute_check_code.
  rewrite (weighted_sum_digits id_17 Hlen Hdig 17 0 0) by lia.
  cbn [bind]. unfold check_character_spec.
  rewrite Z.add_0_l.
  apply item_in_range.
  pose proof (Z.mod_pos_bound
                (fold_right Z.add 0
                   (map (fun i => digit_at id_17 i * nth i coefficients 0) (seq 0 17)))
                11 ltac:(lia)) as Hb.
  unfold check_codes. simpl length. exact Hb.
Qed.

Lemma compute_check_code_is_spec_witness :
  compute_check_code (u8 "11010519491231002")
  = Ok (check_character_spec (u8 "11010519491231002")).
Proof.
  apply (proj1 compute_check_code_is_spec).
  - reflexivity.
  - vm_compute. repeat constructor; discriminate.
Defined.

(** ** The zodiac sign *)

Lemma in_Z_range (lo n : nat) (z : Z) :
  Z.of_nat lo <= z < Z.of_nat (lo + n) -> In z (map Z.of_nat (seq lo n)).
Proof.
  intros Hz. apply in_map_iff. exists (Z.to_nat z).
  split; [lia | apply in_seq; lia].
Qed.

Lemma birth_num_table :
  forallb (fun m => forallb (birth_num_agrees m) (map Z.of_nat (seq 1 31)))
          (map Z.of_nat (seq 1 12)) = true.
Proof. vm_compute. reflexivity. Qed.

(** [int(f"{month}{day:02d}")] is [month*100 + day] on calendar months and
    days. *)
Lemma birth_num_value (m d : Z) :
  1 <= m <= 12 -> 1 <= d <= 31 ->
  int (str_of_int m ++ format_0d 2 d) = Ok (m * 100 + d).
Proof.
  intros Hm Hd.
  pose proof birth_num_table as Ht.
  rewrite forallb_forall in Ht.
  specialize (Ht m (in_Z_range 1 12 m ltac:(lia))).
  rewrite forallb_forall in Ht.
  specialize (Ht d (in_Z_range 1 31 d ltac:(lia))).
  unfold birth_num_agrees in Ht.
  destruct (int (str_of_int m ++ format_0d 2 d)) as [v|e]; [| discriminate].
  apply Z.eqb_eq in Ht. now subst.
Qed.

Lemma date_ok_bounds (b : date) :
  date_ok b = true ->
  1 <= year b <= 9999 /\ 1 <= month b <= 12 /\ 1 <= day b <= 31.
Proof.
  unfold date_ok, days_in_month. intros H.
  repeat (apply andb_prop in H; destruct H as [H ?]).
  repeat match goal with
         | [ Hx : (_ <=? _) = true |- _ ] => apply Z.leb_le in Hx
         end.
  repeat split; try lia.
  repeat match goal with
         | [ Hx : context [if ?c then _ else _] |- _ ] => destruct c
         end; lia.
Qed.

(** The loop of [get_zodiac_sign] against the wording of the specification,
    for every number it can be run on: [pre] is the part of the table the
    loop has passed. *)
Lemma zodiac_loop_suffix (n : Z) (rest pre : list (Z * str)) :
  pre ++ rest = zodiac_signs ->
  zodiac_loop n (Z.of_nat (length pre)) rest
  = Ok (match list_find (fun e : Z * str => n < fst e) rest with
        | Some (k, _) =>
            match (length pre + k)%nat with
            | S i => snd (nth i zodiac_signs (0, []))
            | O => snd (List.last zodiac_signs (0, []))
            end
        | None => snd (List.last zodiac_signs (0, []))
        end).
Proof.
  revert pre. induction rest as [| [cutoff sign] rest IH]; intros pre Hpre.
  - reflexivity.
  - assert (Hlen : (length pre < 12)%nat).
    { apply (f_equal (@length _)) in Hpre. rewrite length_app in Hpre.
      simpl in Hpre. lia. }
    cbn [zodiac_loop list_find fst].
    destruct (Z.ltb_spec n cutoff) as [Hlt | Hge].
    + rewrite (decide_True (P := n < cutoff)) by lia.
      rewrite Nat.add_0_r.
      destruct pre as [| p pre'].
      * reflexivity.
      * replace (0 <? Z.of_nat (length (p :: pre'))) with true
          by (symmetry; apply Z.ltb_lt; simpl length; lia).
        rewrite (item_in_range zodiac_signs _ (0, []))
          by (simpl length in *; lia).
        cbn [bind]. simpl length.
        replace (Z.to_nat (Z.of_nat (S (length pre')) - 1)) with (length pre') by lia.
        reflexivity.
    + rewrite (decide_False (P := n < cutoff)) by lia.
      specialize (IH (pre ++ [(cutoff, sign)])).
      rewrite <- app_assoc in IH. specialize (IH Hpre).
      rewrite length_app in IH. simpl length in IH.
      rewrite Nat2Z.inj_add in IH. change (Z.of_nat 1) with 1 in IH.
      rewrite IH.
      destruct (list_find (fun e : Z * str => n < fst e) rest) as [[k e] |];
        simpl; [| reflexivity].
      replace (length pre + 1 + k)%nat with (S (length pre + k)) by lia.
      replace (length pre + S k)%nat with (S (length pre + k)) by lia.
      reflexivity.
Qed.

Lemma get_zodiac_sign_on_calendar_date (birth : date) :
  date_ok birth = true -> get_zodiac_sign birth = Ok (zodiac_sign_spec birth).
Proof.
  intros Hok.
  destruct (date_ok_bounds birth Hok) as (_ & Hm & Hd).
  unfold get_zodiac_sign. rewrite birth_num_value by assumption.
  cbn [bind].
  exact (zodiac_loop_suffix (month birth * 100 + day birth) zodiac_signs [] eq_refl).
Qed.

(** C4. On every valid calendar date [get_zodiac_sign] returns the sign the
    specification describes: [month*100 + day] is compared with the cutoffs
    in order, the first cutoff above it selects the entry before, and the
    first entry or no entry selects the last one.  So 01-19 gives 摩羯座,
    01-20 gives 水瓶座 and 12-22 gives 摩羯座, in every year. *)
Theorem get_zodiac_sign_is_spec :
  (forall birth : date,
      date_ok birth = true ->
      get_zodiac_sign birth = Ok (zodiac_sign_spec birth))
  /\ (forall y, get_zodiac_sign (mkdate y 1 19) = Ok (u8 "摩羯座"))
  /\ (forall y, get_zodiac_sign (mkdate y 1 20) = Ok (u8 "水瓶座"))
  /\ (forall y, get_zodiac_sign (mkdate y 12 22) = Ok (u8 "摩羯座")).
Proof.
  split; [exact get_zodiac_sign_on_calendar_date |].
  repeat split; intros y; vm_compute; reflexivity.
Qed.

Lemma get_zodiac_sign_is_spec_witness :
  get_zodiac_sign (mkdate 1990 3 7) = Ok (zodiac_sign_spec (mkdate 1990 3 7)).
Proof.
  apply (proj1 get_zodiac_sign_is_spec). reflexivity.
Defined.

(** ** Region resolution *)

Lemma truthy_Some (v : option str) (p : str) :
  truthy v = Some p <-> v = Some p /\ p <> [].
Proof.
  destruct v as [[| c s] |]; simpl.
  - split; [discriminate | intros [H Hne]; congruence].
  - split.
    + intros H. split; [exact H | intros ->; discriminate].
    + intros [H _]. exact H.
  - split; [discriminate | intros [H _]; discriminate].
Qed.

(** What the function holds in [details] when it reaches line 51: the
    province entry first, then at most a city and a district component. *)
Lemma region_walk_components (code : str) (region_codes : gmap str str)
    (details : list (level * str)) :
  components (region_walk code region_codes) = Some details ->
  exists province rest,
    region_codes !! province_key code = Some province /\ province <> []
    /\ details = (Province, province) :: rest
    /\ Forall (fun e => fst e <> Province) rest.
Proof.
  unfold region_walk. fold (province_key code). fold (city_key code).
  destruct (truthy (region_codes !! province_key code)) as [province |] eqn:Hp;
    [| discriminate].
  apply truthy_Some in Hp. destruct Hp as [Hp Hne].
  intros H. exists province.
  destruct (negb (str_eqb (city_key code) (province_key code)));
    destruct (truthy (region_codes !! city_key code));
    destruct (truthy (region_codes !! code));
    simpl in H; injection H as <-; eexists; repeat split; eauto;
    repeat constructor; simpl; discriminate.
Qed.

(** C6, as amended.  When the province key is absent the result is exactly
    ["未知省份"] and the province key is the only one looked up.  When the
    province key holds a non-empty name and neither the city key nor the
    code itself is in the directory, the address is that name alone.  A city
    component occurs only if the city key differs from the province key and
    is in the directory, and it is the last '/'-separated segment of the
    city entry. *)
Theorem get_region_detail_fallbacks (code : str) (region_codes : gmap str str) :
  (region_codes !! province_key code = None ->
     get_region_detail code region_codes = [unknown_province]
     /\ lookups (region_walk code region_codes) = [province_key code])
  /\ (forall province,
        region_codes !! province_key code = Some province -> province <> [] ->
        region_codes !! city_key code = None ->
        region_codes !! code = None ->
        get_region_detail code region_codes = [province]
        /\ join (u8 " ") (get_region_detail code region_codes) = province)
  /\ (forall details name,
        components (region_walk code region_codes) = Some details ->
        In (City, name) details ->
        city_key code <> province_key code
        /\ exists entry,
             region_codes !! city_key code = Some entry
             /\ name = last_item (split slash entry)).
Proof.
  unfold get_region_detail, region_walk.
  fold (province_key code). fold (city_key code).
  split; [| split].
  - intros Hnone. rewrite Hnone. simpl. split; reflexivity.
  - intros province Hp Hne Hc Hd.
    rewrite Hp, Hc, Hd.
    destruct province as [| c s]; [congruence |]. simpl.
    destruct (negb (str_eqb (city_key code) (province_key code)));
      simpl; split; reflexivity.
  - intros details name.
    destruct (truthy (region_codes !! province_key code)) as [province |];
      [| discriminate].
    unfold str_eqb.
    destruct (bool_decide_reflect (city_key code = province_key code)) as [Heq | Hne];
      simpl negb; cbv iota.
    + destruct (truthy (region_codes !! code)); simpl;
        intros H Hin; injection H as <-; simpl in Hin;
        intuition congruence.
    + destruct (truthy (region_codes !! city_key code)) as [entry |] eqn:Hc;
        destruct (truthy (region_codes !! code)); simpl;
        intros H Hin; injection H as <-; simpl in Hin.
      all: try (exfalso; intuition congruence).
      all: apply truthy_Some in Hc; destruct Hc as [Hc _].
      all: split; [exact Hne | exists entry; split; [exact Hc |]].
      all: intuition congruence.
Qed.

Lemma get_region_detail_fallbacks_witness :
  get_region_detail (u8 "990101") beijing = [unknown_province]
  /\ get_region_detail (u8 "119999") beijing = [u8 "北京市"]
  /\ city_key (u8 "110105") <> province_key (u8 "110105").
Proof.
  split; [| split].
  - apply (proj1 (get_region_detail_fallbacks (u8 "990101") beijing)).
    vm_compute. reflexivity.
  - apply (proj1 (proj2 (get_region_detail_fallbacks (u8 "119999") beijing)));
      vm_compute; [reflexivity | discriminate | reflexivity | reflexivity].
  - apply (proj2 (proj2 (get_region_detail_fallbacks (u8 "110105") beijing))
             [(Province, u8 "北京市"); (City, u8 "市辖区"); (District, u8 "朝阳区")]
             (u8 "市辖区")).
    + vm_compute. reflexivity.
    + simpl. right. left. reflexivity.
Defined.

(** C6 as stated fails: with the province key mapped to the empty string and
    no city or district entry, the address is "未知省份", not the (empty)
    province name. *)
Lemma get_region_detail_blank_province :
  blank_province !! province_key (u8 "110105") = Some []
  /\ blank_province !! city_key (u8 "110105") = None
  /\ blank_province !! u8 "110105" = None
  /\ join (u8 " ") (get_region_detail (u8 "110105") blank_province) = u8 "未知省份"
  /\ join (u8 " ") (get_region_detail (u8 "110105") blank_province) <> [].
Proof. vm_compute. repeat split; discriminate. Qed.

(** C9. The resolver's result is never empty; it is either ["未知省份"] or
    starts with the province entry; the list built before line 51 is never
    empty, so the ["未知地区"] fallback is never taken, and a result
    ["未知地区"] can only be a province entry of that very name; and
    ["未知省份"] results both from an absent province key and from one mapped
    to the empty string. *)
Theorem get_region_detail_shape (code : str) (region_codes : gmap str str) :
  get_region_detail code region_codes <> []
  /\ (get_region_detail code region_codes = [unknown_province]
      \/ exists province rest,
           region_codes !! province_key code = Some province
           /\ get_region_detail code region_codes = province :: rest)
  /\ components (region_walk code region_codes) <> Some []
  /\ (get_region_detail code region_codes = [unknown_region] ->
      region_codes !! province_key code = Some unknown_region)
  /\ (region_codes !! province_key code = None
      \/ region_codes !! province_key code = Some [] ->
      get_region_detail code region_codes = [unknown_province]).
Proof.
  unfold get_region_detail.
  destruct (components (region_walk code region_codes)) as [details |] eqn:Hw.
  - destruct (region_walk_components _ _ _ Hw) as (p & rest & Hp & Hne & -> & _).
    simpl. repeat split.
    + discriminate.
    + right. exists p, (map snd rest). split; [exact Hp | reflexivity].
    + discriminate.
    + intros H. injection H as -> _. exact Hp.
    + intros [H | H]; congruence.
  - repeat split.
    + discriminate.
    + left. reflexivity.
    + discriminate.
    + intros H. discriminate H.
Qed.

Lemma get_region_detail_shape_witness :
  get_region_detail (u8 "110105") blank_province = [unknown_province].
Proof.
  apply (proj2 (proj2 (proj2 (proj2 (get_region_detail_shape (u8 "110105") blank_province))))).
  right. vm_compute. reflexivity.
Defined.

(** ** The check character on arbitrary strings *)

Lemma bind_Ok_inv {A B} (m : res A) (k : A -> res B) (b : B) :
  bind m k = Ok b -> exists a, m = Ok a /\ k a = Ok b.
Proof. destruct m as [a | e]; simpl; [eauto | discriminate]. Qed.

Lemma weighted_sum_Ok_inv (s : str) :
  forall n a total t,
    weighted_sum s (seq a n) total = Ok t ->
    forall i, (a <= i < a + n)%nat ->
      exists c v, s !! i = Some c /\ int [c] = Ok v.
Proof.
  induction n as [| n IH]; intros a total t H i Hi; [lia |].
  cbn [seq weighted_sum] in H.
  apply bind_Ok_inv in H. destruct H as (c1 & Hidx & H).
  apply bind_Ok_inv in H. destruct H as (d & Hint & H).
  apply bind_Ok_inv in H. destruct H as (k & _ & H).
  destruct (decide (i = a)) as [-> | Hne].
  - unfold index in Hidx. destruct (s !! a) as [c |]; [| discriminate].
    injection Hidx as <-. eauto.
  - apply (IH _ _ _ H). lia.
Qed.

Lemma weighted_sum_Raise_inv (s : str) :
  forall n a total e,
    (a + n <= length s)%nat -> (a + n <= 17)%nat ->
    weighted_sum s (seq a n) total = Raise e ->
    e = ValueError /\ exists c, In c s /\ int [c] = Raise ValueError.
Proof.
  induction n as [| n IH]; intros a total e Hlen H17 H; [discriminate |].
  cbn [seq weighted_sum] in H.
  rewrite index_in_range in H by lia. cbn [bind] in H.
  destruct (int [nth a s 0%N]) as [d | e'] eqn:Hint.
  - cbn [bind] in H.
    rewrite (item_in_range coefficients (Z.of_nat a) 0) in H
      by (unfold coefficients; simpl length; lia).
    cbn [bind] in H. eapply IH; [| | exact H]; lia.
  - cbn [bind] in H. injection H as <-.
    pose proof (int_raises_ValueError _ _ Hint) as ->.
    split; [reflexivity |]. exists (nth a s 0%N).
    split; [apply nth_In; lia | exact Hint].
Qed.

Lemma item_check_codes (i : Z) (r : str) :
  item check_codes i = Ok r ->
  exists c, r = [c] /\ In c [49; 48; 88; 57; 56; 55; 54; 53; 52; 51; 50]%N.
Proof.
  unfold item.
  match goal with
  | [ |- context [if ?b then Raise IndexError else _] ] => destruct b
  end; [discriminate |].
  destruct (check_codes !! _) as [x |] eqn:Hx; [| discriminate].
  intros H. injection H as <-.
  apply list_elem_of_lookup_2 in Hx. apply list_elem_of_In in Hx.
  vm_compute in Hx.
  repeat (destruct Hx as [<- | Hx]; [eexists; split; [reflexivity |]; simpl; tauto |]).
  destruct Hx.
Qed.

(** A computed check character is one of the eleven of the table. *)
Lemma compute_check_code_Ok (s r : str) :
  compute_check_code s = Ok r ->
  exists c, r = [c] /\ In c [49; 48; 88; 57; 56; 55; 54; 53; 52; 51; 50]%N.
Proof.
  unfold compute_check_code. intros H.
  apply bind_Ok_inv in H. destruct H as (t & _ & H).
  exact (item_check_codes _ _ H).
Qed.

(** When the check character is computed, [int] accepted each of the first
    17 characters. *)
Lemma compute_check_code_Ok_int (s r : str) (i : nat) :
  compute_check_code s = Ok r -> (i < 17)%nat ->
  exists c v, s !! i = Some c /\ int [c] = Ok v.
Proof.
  unfold compute_check_code. intros H Hi.
  apply bind_Ok_inv in H. destruct H as (t & H & _).
  apply (weighted_sum_Ok_inv _ _ _ _ _ H). lia.
Qed.

(** On 17 characters the computation fails only where [int] rejects one of
    them. *)
Lemma compute_check_code_Raise (s : str) (e : exn) :
  length s = 17%nat ->
  compute_check_code s = Raise e ->
  e = ValueError /\ exists c, In c s /\ int [c] = Raise ValueError.
Proof.
  unfold compute_check_code. intros Hlen H.
  destruct (weighted_sum s (seq 0 17) 0) as [t | e'] eqn:Hw.
  - cbn [bind] in H.
    rewrite (item_in_range check_codes (t mod 11) []) in H; [discriminate |].
    pose proof (Z.mod_pos_bound t 11 ltac:(lia)).
    unfold check_codes. simpl length. lia.
  - cbn [bind] in H. injection H as <-.
    apply (weighted_sum_Raise_inv s 17 0 0 e'); [lia | lia | exact Hw].
Qed.

Lemma check_char_facts (c : char) :
  In c [49; 48; 88; 57; 56; 55; 54; 53; 52; 51; 50]%N ->
  isspace c = false /\ upper_char c = [c].
Proof.
  simpl. intros H.
  repeat (destruct H as [<- | H]; [split; reflexivity |]).
  destruct H.
Qed.

(** ** The stages of [normalize], one equation per path *)

Ltac len_is s k b :=
  replace (len s =? k) with b
    by (symmetry; first [apply Z.eqb_eq | apply Z.eqb_neq]; unfold len; lia).

Ltac run_stmt :=
  cbn beta iota delta [seq_stmt call pass assign return_info negb orb andb].

Lemma str_eqb_refl (a : str) : str_eqb a a = true.
Proof. unfold str_eqb. apply bool_decide_eq_true. reflexivity. Qed.

Lemma str_eqb_single (x c : char) : str_eqb [x] [c] = bool_decide (x = c).
Proof.
  unfold str_eqb. apply bool_decide_ext. split; [intros H | intros ->]; congruence.
Qed.

Lemma index_app_last (s : str) (c : char) (n : nat) :
  length s = n -> index (s ++ [c]) n = Ok [c].
Proof.
  intros <-. unfold index. rewrite list_lookup_middle by reflexivity. reflexivity.
Qed.

Lemma verify_completed (body : str) (c : char) (i : info) :
  length body = 17%nat -> isdigit body = true ->
  compute_check_code body = Ok [c] ->
  verify (body ++ [c]) i = (i, Next (body ++ [c])).
Proof.
  intros Hlen Hdig Hc. unfold verify.
  assert (Hl : length (body ++ [c]) = 18%nat)
    by (rewrite length_app; simpl; lia).
  len_is (body ++ [c]) 18 true.
  rewrite (take_app_length' body [c] 17) by (symmetry; exact Hlen).
  rewrite Hdig, Hc, (index_app_last body c 17 Hlen).
  run_stmt. rewrite str_eqb_refl. reflexivity.
Qed.

Lemma normalize_17_digits (s id0 : str) (c : char) (i : info) :
  upper (strip s) = id0 -> length id0 = 17%nat -> isdigit id0 = true ->
  compute_check_code id0 = Ok [c] ->
  normalize s i = (i, Next (id0 ++ [c])).
Proof.
  intros Hid Hlen Hdig Hc.
  pose proof (verify_completed id0 c i Hlen Hdig Hc) as Hv.
  unfold verify in Hv. unfold normalize. rewrite Hid.
  assert (Hl : length (id0 ++ [c]) = 18%nat)
    by (rewrite length_app; simpl; lia).
  len_is id0 17 true. rewrite Hdig, Hc. run_stmt.
  len_is (id0 ++ [c]) 15 false. len_is (id0 ++ [c]) 18 true.
  run_stmt. exact Hv.
Qed.

Lemma normalize_17_raise (s id0 : str) (e : exn) (i : info) :
  upper (strip s) = id0 -> length id0 = 17%nat -> isdigit id0 = true ->
  compute_check_code id0 = Raise e ->
  normalize s i = (i, Throw e).
Proof.
  intros Hid Hlen Hdig Hc. unfold normalize. rewrite Hid.
  len_is id0 17 true. rewrite Hdig, Hc. reflexivity.
Qed.

Lemma normalize_17_other (s id0 : str) (i : info) :
  upper (strip s) = id0 -> length id0 = 17%nat -> isdigit id0 = false ->
  normalize s i = (set_error err_17_digits i, Return).
Proof.
  intros Hid Hlen Hdig. unfold normalize. rewrite Hid.
  len_is id0 17 true. rewrite Hdig. reflexivity.
Qed.

Lemma normalize_bad_length (s id0 : str) (i : info) :
  upper (strip s) = id0 ->
  length id0 <> 15%nat -> length id0 <> 17%nat -> length id0 <> 18%nat ->
  normalize s i = (set_error err_length i, Return).
Proof.
  intros Hid H15 H17 H18. unfold normalize. rewrite Hid.
  len_is id0 17 false. run_stmt.
  len_is id0 15 false. len_is id0 18 false. reflexivity.
Qed.

(** The 17 characters the upgrade computes the check character from. *)
Lemma upgraded_length (id0 : str) :
  length id0 = 15%nat -> length (take 6 id0 ++ u8 "19" ++ drop 6 id0) = 17%nat.
Proof.
  intros Hlen. rewrite !length_app, length_take, length_drop, Hlen. reflexivity.
Qed.

Lemma isdigit_Forall (s : str) :
  isdigit s = true <-> s <> [] /\ Forall (fun c => isdigit_char c = true) s.
Proof.
  unfold isdigit. destruct s as [| c s].
  - split; [discriminate | intros [H _]; congruence].
  - rewrite forallb_forall, List.Forall_forall.
    split; [intros H; split; [discriminate | exact H] | intros [_ H]; exact H].
Qed.

Lemma upgraded_isdigit (id0 : str) :
  isdigit id0 = true -> isdigit (take 6 id0 ++ u8 "19" ++ drop 6 id0) = true.
Proof.
  rewrite !isdigit_Forall. intros [_ Hall]. split.
  - intros H. apply (f_equal (@length _)) in H.
    rewrite !length_app in H. simpl in H. lia.
  - apply Forall_app_2; [apply Forall_take; exact Hall |].
    apply Forall_app_2; [repeat constructor |].
    apply Forall_drop. exact Hall.
Qed.

Lemma normalize_15_digits (s id0 : str) (c : char) (i : info) :
  upper (strip s) = id0 -> length id0 = 15%nat -> isdigit id0 = true ->
  compute_check_code (take 6 id0 ++ u8 "19" ++ drop 6 id0) = Ok [c] ->
  normalize s i = (i, Next ((take 6 id0 ++ u8 "19" ++ drop 6 id0) ++ [c])).
Proof.
  intros Hid Hlen Hdig Hc.
  pose proof (verify_completed _ c i (upgraded_length id0 Hlen)
                (upgraded_isdigit id0 Hdig) Hc) as Hv.
  unfold verify in Hv. unfold normalize. rewrite Hid.
  len_is id0 17 false. run_stmt. len_is id0 15 true. run_stmt.
  unfold upgrade_15_to_18. len_is id0 15 true. rewrite Hdig.
  cbn [andb]. rewrite Hc. cbn [bind].
  destruct ((take 6 id0 ++ u8 "19" ++ drop 6 id0) ++ [c]) as [| x rest] eqn:Hnew.
  { apply (f_equal (@length _)) in Hnew. rewrite length_app in Hnew.
    simpl in Hnew. lia. }
  run_stmt. exact Hv.
Qed.

Lemma normalize_15_raise (s id0 : str) (e : exn) (i : info) :
  upper (strip s) = id0 -> length id0 = 15%nat -> isdigit id0 = true ->
  compute_check_code (take 6 id0 ++ u8 "19" ++ drop 6 id0) = Raise e ->
  normalize s i = (i, Throw e).
Proof.
  intros Hid Hlen Hdig Hc. unfold normalize. rewrite Hid.
  len_is id0 17 false. run_stmt. len_is id0 15 true. run_stmt.
  unfold upgrade_15_to_18. len_is id0 15 true. rewrite Hdig.
  cbn [andb]. rewrite Hc. reflexivity.
Qed.

Lemma normalize_15_other (s id0 : str) (i : info) :
  upper (strip s) = id0 -> length id0 = 15%nat -> isdigit id0 = false ->
  normalize s i = (set_error err_15 i, Return).
Proof.
  intros Hid Hlen Hdig. unfold normalize. rewrite Hid.
  len_is id0 17 false. run_stmt. len_is id0 15 true. run_stmt.
  unfold upgrade_15_to_18. len_is id0 15 true. rewrite Hdig.
  reflexivity.
Qed.

Lemma normalize_18 (s id0 : str) (i : info) :
  upper (strip s) = id0 -> length id0 = 18%nat ->
  normalize s i = verify id0 i.
Proof.
  intros Hid Hlen. unfold normalize, verify. rewrite Hid.
  len_is id0 17 false. run_stmt. len_is id0 15 false. len_is id0 18 true.
  run_stmt. len_is id0 18 true. reflexivity.
Qed.

Lemma verify_format (id0 : str) (i : info) :
  length id0 = 18%nat -> isdigit (take 17 id0) = false ->
  verify id0 i = (set_error err_18_format i, Return).
Proof.
  intros Hlen Hdig. unfold verify. len_is id0 18 true. rewrite Hdig. reflexivity.
Qed.

Lemma verify_raise (id0 : str) (e : exn) (i : info) :
  length id0 = 18%nat -> isdigit (take 17 id0) = true ->
  compute_check_code (take 17 id0) = Raise e ->
  verify id0 i = (i, Throw e).
Proof.
  intros Hlen Hdig Hc. unfold verify. len_is id0 18 true.
  rewrite Hdig, Hc. reflexivity.
Qed.

Lemma verify_match (id0 : str) (c : char) (i : info) :
  length id0 = 18%nat -> isdigit (take 17 id0) = true ->
  compute_check_code (take 17 id0) = Ok [c] -> id0 !! 17%nat = Some c ->
  verify id0 i = (i, Next id0).
Proof.
  intros Hlen Hdig Hc Hlast. unfold verify, index. len_is id0 18 true.
  rewrite Hdig, Hc, Hlast. run_stmt. rewrite str_eqb_refl. reflexivity.
Qed.

Lemma verify_mismatch (id0 : str) (c x : char) (i : info) :
  length id0 = 18%nat -> isdigit (take 17 id0) = true ->
  compute_check_code (take 17 id0) = Ok [c] -> id0 !! 17%nat = Some x ->
  x <> c ->
  verify id0 i = (set_error (err_checksum [c]) i, Return).
Proof.
  intros Hlen Hdig Hc Hlast Hne. unfold verify, index. len_is id0 18 true.
  rewrite Hdig, Hc, Hlast. run_stmt.
  rewrite str_eqb_single, bool_decide_eq_false_2 by exact Hne. reflexivity.
Qed.

(** ** Outcomes of [normalize] *)

Lemma In_take (c : char) (n : nat) (s : str) : In c (take n s) -> In c s.
Proof.
  intros H. rewrite <- (take_drop n s). apply in_or_app. left. exact H.
Qed.

Lemma In_drop (c : char) (n : nat) (s : str) : In c (drop n s) -> In c s.
Proof.
  intros H. rewrite <- (take_drop n s). apply in_or_app. right. exact H.
Qed.

Lemma isdigit_In (s : str) (c : char) :
  isdigit s = true -> In c s -> isdigit_char c = true.
Proof.
  intros Hd Hin. apply isdigit_Forall in Hd. destruct Hd as [_ Hall].
  rewrite List.Forall_forall in Hall. exact (Hall c Hin).
Qed.

(** [normalize] goes on with an 18 character number that carries its own
    check character, or returns with one of five messages and nothing else
    assigned, or lets through the [ValueError] of [int] on a character that
    [isdigit] had accepted. *)
Lemma normalize_outcome (s : str) (i : info) :
  match normalize s i with
  | (i', Next id) =>
      i' = i /\ length id = 18%nat
      /\ exists c, compute_check_code (take 17 id) = Ok [c] /\ id !! 17%nat = Some c
  | (i', Return) =>
      exists msg,
        i' = set_error msg i
        /\ (msg = err_17_digits \/ msg = err_length \/ msg = err_15
            \/ msg = err_18_format
            \/ (length (upper (strip s)) = 18%nat /\ exists c, msg = err_checksum [c]))
  | (i', Throw e) =>
      i' = i /\ e = ValueError
      /\ exists c, In c (upper (strip s)) /\ isdigit_char c = true
                   /\ int [c] = Raise ValueError
  end.
Proof.
  remember (upper (strip s)) as id0 eqn:Hid. symmetry in Hid.
  destruct (decide (length id0 = 17%nat)) as [H17 | H17].
  { destruct (isdigit id0) eqn:Hdig.
    - destruct (compute_check_code id0) as [r | e] eqn:Hc.
      + destruct (compute_check_code_Ok _ _ Hc) as (c & -> & _).
        rewrite (normalize_17_digits s id0 c i Hid H17 Hdig Hc).
        split; [reflexivity |]. split; [rewrite length_app; simpl; lia |].
        exists c. rewrite (take_app_length' id0 [c] 17) by (symmetry; exact H17).
        split; [exact Hc |]. apply list_lookup_middle. symmetry. exact H17.
      + rewrite (normalize_17_raise s id0 e i Hid H17 Hdig Hc).
        destruct (compute_check_code_Raise id0 e H17 Hc) as (-> & c & Hin & Hint).
        split; [reflexivity |]. split; [reflexivity |].
        exists c. split; [exact Hin |]. split; [| exact Hint].
        exact (isdigit_In id0 c Hdig Hin).
    - rewrite (normalize_17_other s id0 i Hid H17 Hdig).
      exists err_17_digits. split; [reflexivity | left; reflexivity]. }
  destruct (decide (length id0 = 15%nat)) as [H15 | H15].
  { destruct (isdigit id0) eqn:Hdig.
    - destruct (compute_check_code (take 6 id0 ++ u8 "19" ++ drop 6 id0))
        as [r | e] eqn:Hc.
      + destruct (compute_check_code_Ok _ _ Hc) as (c & -> & _).
        rewrite (normalize_15_digits s id0 c i Hid H15 Hdig Hc).
        pose proof (upgraded_length id0 H15) as Hl.
        split; [reflexivity |]. split; [rewrite length_app, Hl; reflexivity |].
        exists c. rewrite take_app_length' by (symmetry; exact Hl).
        split; [exact Hc |]. apply list_lookup_middle. symmetry. exact Hl.
      + rewrite (normalize_15_raise s id0 e i Hid H15 Hdig Hc).
        destruct (compute_check_code_Raise _ e (upgraded_length id0 H15) Hc)
          as (-> & c & Hin & Hint).
        split; [reflexivity |]. split; [reflexivity |].
        assert (Hin0 : In c id0).
        { apply in_app_or in Hin. destruct Hin as [Hin | Hin];
            [exact (In_take _ _ _ Hin) |].
          apply in_app_or in Hin. destruct Hin as [Hin | Hin];
            [| exact (In_drop _ _ _ Hin)].
          change (u8 "19") with [49%N; 57%N] in Hin.
          destruct Hin as [Hin | [Hin | []]]; subst c;
            vm_compute in Hint; discriminate. }
        exists c. split; [exact Hin0 |]. split; [| exact Hint].
        exact (isdigit_In id0 c Hdig Hin0).
    - rewrite (normalize_15_other s id0 i Hid H15 Hdig).
      exists err_15. split; [reflexivity | right; right; left; reflexivity]. }
  destruct (decide (length id0 = 18%nat)) as [H18 | H18].
  { rewrite (normalize_18 s id0 i Hid H18).
    destruct (isdigit (take 17 id0)) eqn:Hdig.
    - destruct (compute_check_code (take 17 id0)) as [r | e] eqn:Hc.
      + destruct (compute_check_code_Ok _ _ Hc) as (c & -> & _).
        destruct (id0 !! 17%nat) as [x |] eqn:Hx;
          [| apply lookup_ge_None in Hx; lia].
        destruct (decide (x = c)) as [-> | Hne].
        * rewrite (verify_match id0 c i H18 Hdig Hc Hx).
          split; [reflexivity |]. split; [exact H18 |]. eauto.
        * rewrite (verify_mismatch id0 c x i H18 Hdig Hc Hx Hne).
          exists (err_checksum [c]). split; [reflexivity |].
          do 4 right. split; [exact H18 | exists c; reflexivity].
      + rewrite (verify_raise id0 e i H18 Hdig Hc).
        assert (Hl : length (take 17 id0) = 17%nat)
          by (rewrite length_take; lia).
        destruct (compute_check_code_Raise _ e Hl Hc) as (-> & c & Hin & Hint).
        split; [reflexivity |]. split; [reflexivity |].
        exists c. split; [exact (In_take _ _ _ Hin) |]. split; [| exact Hint].
        exact (isdigit_In _ c Hdig Hin).
    - rewrite (verify_format id0 i H18 Hdig).
      exists err_18_format. split; [reflexivity | right; right; right; left; reflexivity]. }
  rewrite (normalize_bad_length s id0 i Hid H15 H17 H18).
  exists err_length. split; [reflexivity | right; left; reflexivity].
Qed.

(** ** Birth date and derived attributes *)

Lemma make_date_Ok (y m d : Z) (b : date) :
  make_date y m d = Ok b -> date_ok b = true.
Proof.
  unfold make_date. destruct (date_ok (mkdate y m d)) eqn:Hok; [| discriminate].
  intros H. injection H as <-. exact Hok.
Qed.

Lemma make_date_Raise (y m d : Z) (e : exn) :
  make_date y m d = Raise e -> e = ValueError.
Proof.
  unfold make_date. destruct (date_ok (mkdate y m d)); [discriminate |].
  intros H. injection H as <-. reflexivity.
Qed.

(** A date that [strptime] returns is a calendar date. *)
Lemma strptime_Ymd_Ok (s : str) (b : date) :
  strptime_Ymd s = Ok b -> date_ok b = true.
Proof.
  unfold strptime_Ymd.
  destruct (re_match [re_Y; re_m; re_d] s) as [[[| y [| m [| d [| ? ?]]]] [| ? ?]] |];
    try discriminate.
  intros H.
  apply bind_Ok_inv in H. destruct H as (yv & _ & H).
  apply bind_Ok_inv in H. destruct H as (mv & _ & H).
  apply bind_Ok_inv in H. destruct H as (dv & _ & H).
  exact (make_date_Ok _ _ _ _ H).
Qed.

(** [strptime] fails with [ValueError] only. *)
Lemma strptime_Ymd_Raise (s : str) (e : exn) :
  strptime_Ymd s = Raise e -> e = ValueError.
Proof.
  unfold strptime_Ymd.
  destruct (re_match [re_Y; re_m; re_d] s) as [[[| y [| m [| d [| ? ?]]]] [| ? ?]] |];
    try (intros H; injection H as <-; reflexivity).
  destruct (int y) as [yv | e1] eqn:Hy; cbn [bind];
    [| intros H; injection H as <-; exact (int_raises_ValueError _ _ Hy)].
  destruct (int m) as [mv | e2] eqn:Hm; cbn [bind];
    [| intros H; injection H as <-; exact (int_raises_ValueError _ _ Hm)].
  destruct (int d) as [dv | e3] eqn:Hd; cbn [bind];
    [| intros H; injection H as <-; exact (int_raises_ValueError _ _ Hd)].
  apply make_date_Raise.
Qed.

Lemma get_chinese_zodiac_Ok (y : Z) :
  exists animal, get_chinese_zodiac y = Ok animal /\ In animal zodiacs.
Proof.
  unfold get_chinese_zodiac.
  pose proof (Z.mod_pos_bound (y - 1900) 12 ltac:(lia)) as Hb.
  assert (Hlen : length zodiacs = 12%nat) by reflexivity.
  exists (nth (Z.to_nat ((y - 1900) mod 12)) zodiacs []).
  split; [apply item_in_range; lia | apply nth_In; lia].
Qed.

Lemma zodiac_sign_spec_In (b : date) :
  In (zodiac_sign_spec b) (map snd zodiac_signs).
Proof.
  unfold zodiac_sign_spec.
  assert (Hlast : In (snd (List.last zodiac_signs (0, []))) (map snd zodiac_signs)).
  { vm_compute. tauto. }
  destruct (list_find _ zodiac_signs) as [[[| k] e] |] eqn:Hf; try exact Hlast.
  apply list_find_Some in Hf. destruct Hf as (Hk & _ & _).
  apply lookup_lt_Some in Hk.
  apply in_map. apply nth_In. lia.
Qed.

Lemma get_birth_season_In (b : date) :
  In (get_birth_season b) (map u8 ["春季"; "夏季"; "秋季"; "冬季"]%string).
Proof.
  unfold get_birth_season.
  repeat match goal with
         | [ |- context [if ?c then _ else _] ] => destruct c
         end; simpl; tauto.
Qed.

(** ** Outcomes of [decode] *)

Ltac run_decode :=
  unfold seq_stmt, call, pass, assign, return_info, try_except_ValueError;
  cbv beta iota.

(** On a number that passed [normalize], [decode] returns: with the
    birth-date message when characters 6 to 13 are no calendar date, and with
    every field assigned otherwise.  It raises nothing. *)
Lemma decode_outcome (current_date : date) (region_codes : gmap str str)
    (id : str) (c : char) (i : info) :
  length id = 18%nat ->
  compute_check_code (take 17 id) = Ok [c] -> id !! 17%nat = Some c ->
  let addr := join (u8 " ") (get_region_detail (take 6 id) region_codes) in
  match strptime_Ymd (slice 6 14 id) with
  | Raise _ =>
      decode current_date region_codes id i
      = (set_error err_birth_date (set_address addr i), Return)
  | Ok birth =>
      exists digit v animal,
        id !! 16%nat = Some digit /\ int [digit] = Ok v
        /\ In animal zodiacs
        /\ decode current_date region_codes id i
           = (decoded current_date birth addr
                (if v mod 2 =? 1 then u8 "男" else u8 "女") animal [c] i,
              Return)
  end.
Proof.
  intros Hlen Hc Hlast addr.
  destruct (compute_check_code_Ok_int (take 17 id) [c] 16 Hc ltac:(lia))
    as (digit & v & Hdigit & Hint).
  rewrite lookup_take_lt in Hdigit by lia.
  unfold decode. fold addr. run_decode.
  destruct (strptime_Ymd (slice 6 14 id)) as [birth | e] eqn:Hb.
  - pose proof (strptime_Ymd_Ok _ _ Hb) as Hok. run_decode.
    rewrite (get_zodiac_sign_on_calendar_date birth Hok). run_decode.
    destruct (get_chinese_zodiac_Ok (year birth)) as (animal & Hanimal & Hin).
    rewrite Hanimal. run_decode. unfold index. rewrite Hdigit. run_decode.
    rewrite Hint. run_decode. rewrite Hlast. run_decode.
    exists digit, v, animal. repeat split; try assumption.
  - pose proof (strptime_Ymd_Raise _ _ Hb) as ->. reflexivity.
Qed.

(** ** The parser as a whole *)

Lemma parse_after_normalize (current_date : date) (s : str)
    (region_codes : gmap str str) :
  parse_id_info current_date s region_codes
  = match normalize s initial_info with
    | (i, Next id) =>
        match decode current_date region_codes id i with
        | (_, Throw e) => Raise e
        | (i', _) => Ok i'
        end
    | (i, Return) => Ok i
    | (_, Throw e) => Raise e
    end.
Proof.
  unfold parse_id_info, seq_stmt.
  destruct (normalize s initial_info) as [i [id | | e]]; reflexivity.
Qed.

Lemma get_region_detail_head (code : str) (region_codes : gmap str str) :
  exists name rest,
    get_region_detail code region_codes = name :: rest /\ name <> [].
Proof.
  unfold get_region_detail.
  destruct (components (region_walk code region_codes)) as [details |] eqn:Hw.
  - destruct (region_walk_components _ _ _ Hw) as (p & rest & _ & Hne & -> & _).
    exists p, (map snd rest). split; [reflexivity | exact Hne].
  - exists unknown_province, []. split; [reflexivity | discriminate].
Qed.

Lemma join_nonempty (sep name : str) (rest : list str) :
  name <> [] -> join sep (name :: rest) <> [].
Proof.
  intros Hne H. destruct rest; simpl in H.
  - contradiction.
  - apply app_eq_nil in H. destruct H as [H _]. contradiction.
Qed.

Lemma address_nonempty (code : str) (region_codes : gmap str str) :
  join (u8 " ") (get_region_detail code region_codes) <> [].
Proof.
  destruct (get_region_detail_head code region_codes) as (name & rest & -> & Hne).
  apply join_nonempty. exact Hne.
Qed.

Lemma strftime_Ymd_nonempty (b : date) : strftime_Ymd b <> [].
Proof.
  unfold strftime_Ymd. intros H.
  apply app_eq_nil in H. destruct H as [_ H].
  change (u8 "-") with [45%N] in H. discriminate.
Qed.

Lemma err_checksum_nonempty (e : str) : err_checksum e <> [].
Proof. unfold err_checksum, err_checksum_prefix. discriminate. Qed.

(** The fourth character tells the check-character message from the others. *)
Lemma err_checksum_fourth (e : str) : err_checksum e !! 3%nat = Some 26657%N.
Proof. reflexivity. Qed.

Lemma err_checksum_differs (e msg : str) :
  msg !! 3%nat <> Some 26657%N -> msg <> err_checksum e.
Proof. intros H ->. apply H. apply err_checksum_fourth. Qed.

(** What [parse_id_info] does on every input, path by path. *)
Lemma parse_id_info_paths (current_date : date) (s : str)
    (region_codes : gmap str str) :
  (exists msg,
      parse_id_info current_date s region_codes = Ok (set_error msg initial_info)
      /\ normalize s initial_info = (set_error msg initial_info, Return)
      /\ (msg = err_17_digits \/ msg = err_length \/ msg = err_15
          \/ msg = err_18_format
          \/ (length (upper (strip s)) = 18%nat /\ exists c, msg = err_checksum [c])))
  \/ (exists id,
        normalize s initial_info = (initial_info, Next id)
        /\ (exists e, strptime_Ymd (slice 6 14 id) = Raise e)
        /\ parse_id_info current_date s region_codes
           = Ok (set_error err_birth_date
                   (set_address
                      (join (u8 " ") (get_region_detail (take 6 id) region_codes))
                      initial_info)))
  \/ (exists id birth c digit v animal,
        normalize s initial_info = (initial_info, Next id)
        /\ strptime_Ymd (slice 6 14 id) = Ok birth
        /\ id !! 17%nat = Some c /\ id !! 16%nat = Some digit
        /\ int [digit] = Ok v /\ In animal zodiacs
        /\ parse_id_info current_date s region_codes
           = Ok (decoded current_date birth
                   (join (u8 " ") (get_region_detail (take 6 id) region_codes))
                   (if v mod 2 =? 1 then u8 "男" else u8 "女") animal [c]
                   initial_info))
  \/ (parse_id_info current_date s region_codes = Raise ValueError
      /\ exists c, In c (upper (strip s)) /\ isdigit_char c = true
                   /\ int [c] = Raise ValueError).
Proof.
  rewrite parse_after_normalize.
  pose proof (normalize_outcome s initial_info) as Hn.
  destruct (normalize s initial_info) as [i [id | | e]].
  - destruct Hn as (-> & Hlen & c & Hc & Hlast).
    pose proof (decode_outcome current_date region_codes id c initial_info
                  Hlen Hc Hlast) as Hd.
    cbv zeta in Hd.
    destruct (strptime_Ymd (slice 6 14 id)) as [birth | e] eqn:Hb.
    + destruct Hd as (digit & v & animal & Hdigit & Hint & Hin & Hd).
      rewrite Hd. right. right. left.
      exists id, birth, c, digit, v, animal. repeat split; assumption.
    + rewrite Hd. right. left. exists id. repeat split. exists e. exact Hb.
  - destruct Hn as (msg & -> & Hmsg). left. exists msg. repeat split. exact Hmsg.
  - destruct Hn as (-> & -> & Hbad). right. right. right. split; [reflexivity | exact Hbad].
Qed.

(** C1 as stated fails: "110105199003078515" ends in '5' while the check
    character of its first 17 digits is '0', so the parser returns validity
    false with the check-character message. *)
Lemma end_to_end_example_rejected :
  compute_check_code (u8 "11010519900307851") = Ok (u8 "0")
  /\ parse_id_info new_year_2024 (u8 "110105199003078515") beijing
     = Ok (set_error (err_checksum (u8 "0")) initial_info)
  /\ valid (set_error (err_checksum (u8 "0")) initial_info) = false.
Proof. vm_compute. repeat split; reflexivity. Qed.

(** C1, as amended.  For "110105199003078510", the 17 digits of the example
    followed by their check character '0', with the three-entry directory
    for 朝阳区 and reference date 2024-01-01, the parser returns validity
    true, address "北京市 市辖区 朝阳区", gender 男 (the digit at index 16 is
    1, odd) and age 33, the age on 2024-01-01 of someone born 1990-03-07. *)
Theorem parse_end_to_end :
  exists r,
    parse_id_info new_year_2024 (u8 "110105199003078510") beijing = Ok r
    /\ valid r = true
    /\ error r = []
    /\ address r = u8 "北京市 市辖区 朝阳区"
    /\ u8 "110105199003078510" !! 16%nat = Some 49%N
    /\ gender r = u8 "男"
    /\ birth_of (u8 "110105199003078510") = Some (mkdate 1990 3 7)
    /\ birth_date r = u8 "1990-03-07"
    /\ age r = age_on new_year_2024 (mkdate 1990 3 7)
    /\ age r = 33.
Proof.
  eexists. split; [vm_compute; reflexivity |].
  vm_compute. repeat split; reflexivity.
Qed.

(** C2 as stated fails: a number with a correct check character and month 13
    is returned with validity false and with the address already filled in. *)
Lemma parse_invalid_birth_date_keeps_address :
  exists r,
    parse_id_info new_year_2024 (u8 "11010519901307851") beijing = Ok r
    /\ valid r = false
    /\ error r = err_birth_date
    /\ address r = u8 "北京市 市辖区 朝阳区"
    /\ address r <> address initial_info.
Proof.
  eexists. split; [vm_compute; reflexivity |].
  vm_compute. repeat split; try reflexivity. discriminate.
Qed.

(** The length that decides the branch is taken after trimming and
    uppercasing: 15 digits followed by "ß" are 16 characters, which
    uppercasing makes 17, and the answer is the message for 17 characters,
    not the one for a wrong length. *)
Example length_is_counted_after_upper :
  length (strip (u8 "110105199003078ß")) = 16%nat
  /\ length (upper (strip (u8 "110105199003078ß"))) = 17%nat
  /\ parse_id_info new_year_2024 (u8 "110105199003078ß") beijing
     = Ok (set_error err_17_digits initial_info).
Proof. vm_compute. repeat split; reflexivity. Qed.

Lemma populated_decoded (current_date birth : date) (code : str)
    (region_codes : gmap str str) (v : Z) (animal : str) (c : char) :
  In animal zodiacs ->
  populated current_date birth
    (decoded current_date birth
       (join (u8 " ") (get_region_detail code region_codes))
       (if v mod 2 =? 1 then u8 "男" else u8 "女") animal [c] initial_info).
Proof.
  intros Hin. unfold populated, decoded. simpl.
  repeat split.
  - apply address_nonempty.
  - apply strftime_Ymd_nonempty.
  - destruct (v mod 2 =? 1); [left | right]; reflexivity.
  - apply zodiac_sign_spec_In.
  - exact Hin.
  - apply get_birth_season_In.
Qed.

(** C2, as amended.  Whenever the parser returns: with validity true the
    error message is empty and address, birth date, age, gender, check
    character, zodiac sign, Chinese zodiac and birth season are filled in
    from the birth date the number carries; with validity false the error
    message is not empty, every field derived from the birth date, the
    gender and the check character are as initialised, and the address is
    "未知" unless the message is the invalid-birth-date one.  The parser
    raises only [ValueError], and only on a character that [isdigit] accepts
    and [int] rejects.  A trimmed, uppercased input whose length is not 15,
    17 or 18 gives validity false with the incorrect-length message and
    every other field as initialised. *)
Theorem parse_id_info_result (current_date : date) (s : str)
    (region_codes : gmap str str) :
  match parse_id_info current_date s region_codes with
  | Ok r =>
      (valid r = true ->
         error r = []
         /\ exists birth, birth_of s = Some birth /\ populated current_date birth r)
      /\ (valid r = false ->
            error r <> [] /\ derived_fields_default r
            /\ (error r <> err_birth_date -> address r = u8 "未知"))
  | Raise e =>
      e = ValueError
      /\ exists c, In c (upper (strip s)) /\ isdigit_char c = true
                   /\ int [c] = Raise ValueError
  end
  /\ (length (upper (strip s)) <> 15%nat ->
      length (upper (strip s)) <> 17%nat ->
      length (upper (strip s)) <> 18%nat ->
      parse_id_info current_date s region_codes
      = Ok (set_error err_length initial_info)).
Proof.
  split.
  - destruct (parse_id_info_paths current_date s region_codes)
      as [(msg & -> & _ & Hmsg)
         | [(id & _ & _ & ->)
           | [(id & birth & c & digit & v & animal & Hn & Hb & _ & _ & _ & Hin & ->)
             | [-> Hbad]]]].
    + split; [intros H; discriminate |]. intros _. simpl.
      split; [| split; [repeat split | intros _; reflexivity]].
      destruct Hmsg as [-> | [-> | [-> | [-> | (_ & c & ->)]]]];
        first [discriminate | apply err_checksum_nonempty].
    + split; [intros H; discriminate |]. intros _. simpl.
      split; [discriminate |]. split; [repeat split |].
      intros H. contradiction.
    + split; [| intros H; discriminate]. intros _.
      split; [reflexivity |]. exists birth. split.
      * unfold birth_of. rewrite Hn, Hb. reflexivity.
      * apply populated_decoded. exact Hin.
    + split; [reflexivity | exact Hbad].
  - intros H15 H17 H18. rewrite parse_after_normalize.
    rewrite (normalize_bad_length s _ initial_info eq_refl H15 H17 H18).
    reflexivity.
Qed.

Lemma parse_id_info_result_witness :
  parse_id_info new_year_2024 (u8 "1234567890") beijing
  = Ok (set_error err_length initial_info).
Proof.
  apply (proj2 (parse_id_info_result new_year_2024 (u8 "1234567890") beijing));
    vm_compute; discriminate.
Defined.

(** ** Age *)

Lemma age_on_is_spec (reference birth : date) :
  age_on reference birth = age_spec reference birth.
Proof.
  unfold age_on, age_spec, tuple_lt, month_day_before. cbn [fst snd].
  destruct (Z.eqb_spec (month reference) (month birth));
    destruct (Z.eqb_spec (day reference) (day birth));
    destruct (Z.ltb_spec (month reference) (month birth));
    destruct (Z.ltb_spec (day reference) (day birth));
    cbn [negb Z.b2z]; case_decide; lia.
Qed.

(** A valid result carries the age of the birth date of the input. *)
Lemma parse_valid_age (current_date : date) (s : str)
    (region_codes : gmap str str) (r : info) :
  parse_id_info current_date s region_codes = Ok r -> valid r = true ->
  exists birth, birth_of s = Some birth /\ age r = age_on current_date birth.
Proof.
  intros Hp Hv.
  destruct (parse_id_info_paths current_date s region_codes)
    as [(msg & H & _)
       | [(id & _ & _ & H)
         | [(id & birth & c & digit & v & animal & Hn & Hb & _ & _ & _ & _ & H)
           | [H _]]]];
    rewrite H in Hp; try discriminate; injection Hp as <-;
    try discriminate Hv.
  exists birth. split; [| reflexivity].
  unfold birth_of. rewrite Hn, Hb. reflexivity.
Qed.

(** C5. The age is the difference of the years, less one exactly when the
    (month, day) of the reference date is lexicographically before that of
    the birth date; seen from 2024-06-15 a birth on 2000-06-16 gives 23 and
    one on 2000-06-15 gives 24; and this is the age every valid result
    carries. *)
Theorem age_is_spec :
  (forall reference birth : date,
      age_on reference birth = age_spec reference birth)
  /\ age_on (mkdate 2024 6 15) (mkdate 2000 6 16) = 23
  /\ age_on (mkdate 2024 6 15) (mkdate 2000 6 15) = 24
  /\ (forall current_date s region_codes r,
        parse_id_info current_date s region_codes = Ok r -> valid r = true ->
        exists birth,
          birth_of s = Some birth /\ age r = age_spec current_date birth).
Proof.
  split; [exact age_on_is_spec |].
  split; [reflexivity |]. split; [reflexivity |].
  intros current_date s region_codes r Hp Hv.
  destruct (parse_valid_age _ _ _ _ Hp Hv) as (birth & Hb & Hage).
  exists birth. split; [exact Hb |]. rewrite Hage. apply age_on_is_spec.
Qed.

Lemma age_is_spec_witness :
  exists birth,
    birth_of (u8 "110105199003078510") = Some birth
    /\ age (decoded new_year_2024 (mkdate 1990 3 7)
              (u8 "北京市 市辖区 朝阳区") (u8 "男") (u8 "马") (u8 "0") initial_info)
       = age_spec new_year_2024 birth.
Proof.
  apply (proj2 (proj2 (proj2 age_is_spec))
           new_year_2024 (u8 "110105199003078510") beijing).
  - vm_compute. reflexivity.
  - reflexivity.
Defined.

(** C8 as stated fails: a number whose birth date lies after the reference
    date parses as valid with a negative age. *)
Lemma parse_future_birth_negative_age :
  exists r,
    parse_id_info new_year_2024 (u8 "110105209901010012") beijing = Ok r
    /\ valid r = true
    /\ age r = -75
    /\ ~ 0 <= age r.
Proof.
  eexists. split; [vm_compute; reflexivity |].
  vm_compute. repeat split; try reflexivity. intros H. apply H. reflexivity.
Qed.

(** C8, as amended.  For every input that parses with validity true and
    whose birth date is not after the reference date, the age is not
    negative. *)
Theorem age_nonnegative (current_date : date) (s : str)
    (region_codes : gmap str str) (r : info) (birth : date) :
  parse_id_info current_date s region_codes = Ok r ->
  valid r = true ->
  birth_of s = Some birth ->
  not_after birth current_date ->
  0 <= age r.
Proof.
  intros Hp Hv Hb Hle.
  destruct (parse_valid_age _ _ _ _ Hp Hv) as (birth' & Hb' & ->).
  rewrite Hb in Hb'. injection Hb' as <-.
  rewrite age_on_is_spec. unfold age_spec.
  destruct Hle as [Hlt | [Heq Hnot]]; case_decide; try lia. contradiction.
Qed.

Lemma age_nonnegative_witness :
  0 <= age (decoded new_year_2024 (mkdate 1990 3 7)
              (u8 "北京市 市辖区 朝阳区") (u8 "男") (u8 "马") (u8 "0") initial_info).
Proof.
  apply (age_nonnegative new_year_2024 (u8 "110105199003078510") beijing _
           (mkdate 1990 3 7)).
  - vm_compute. reflexivity.
  - reflexivity.
  - vm_compute. reflexivity.
  - left. simpl. lia.
Defined.

(** ** Where the check-character message can come from *)

(** The check-character message is given only to inputs of 18 characters
    (after trimming and uppercasing). *)
Lemma checksum_message_needs_18 (current_date : date) (s : str)
    (region_codes : gmap str str) (r : info) (e : str) :
  parse_id_info current_date s region_codes = Ok r ->
  error r = err_checksum e ->
  length (upper (strip s)) = 18%nat.
Proof.
  intros Hp He.
  destruct (parse_id_info_paths current_date s region_codes)
    as [(msg & H & _ & Hmsg)
       | [(id & _ & _ & H)
         | [(id & birth & c & digit & v & animal & _ & _ & _ & _ & _ & _ & H)
           | [H _]]]];
    rewrite H in Hp; try discriminate; injection Hp as <-; simpl in He.
  - destruct Hmsg as [-> | [-> | [-> | [-> | (Hlen & _)]]]];
      try exact Hlen;
      exfalso; revert He; apply err_checksum_differs; vm_compute; discriminate.
  - exfalso; revert He; apply err_checksum_differs; vm_compute; discriminate.
  - exfalso; revert He; apply err_checksum_differs; vm_compute; discriminate.
Qed.

(** C10. An input that is 15 or 17 characters, all digits, after trimming
    and uppercasing never gets the check-character message: on 17 digits the
    parser goes on with the digits followed by the character it has just
    computed from them, and the message is given only to inputs of 18
    characters. *)
Theorem no_checksum_mismatch_on_15_or_17 (current_date : date) (s : str)
    (region_codes : gmap str str) :
  (length (upper (strip s)) = 15%nat \/ length (upper (strip s)) = 17%nat ->
   isdigit (upper (strip s)) = true ->
   forall r e,
     parse_id_info current_date s region_codes = Ok r ->
     error r <> err_checksum e)
  /\ (length (upper (strip s)) = 17%nat ->
      isdigit (upper (strip s)) = true ->
      forall c,
        compute_check_code (upper (strip s)) = Ok [c] ->
        normalize s initial_info = (initial_info, Next (upper (strip s) ++ [c])))
  /\ (forall r e,
        parse_id_info current_date s region_codes = Ok r ->
        error r = err_checksum e ->
        length (upper (strip s)) = 18%nat).
Proof.
  split; [| split].
  - intros Hlen _ r e Hp He.
    pose proof (checksum_message_needs_18 _ _ _ _ _ Hp He). lia.
  - intros Hlen Hdig c Hc.
    exact (normalize_17_digits s _ c initial_info eq_refl Hlen Hdig Hc).
  - intros r e. apply checksum_message_needs_18.
Qed.

Lemma no_checksum_mismatch_on_15_or_17_witness :
  error (decoded new_year_2024 (mkdate 1949 12 31)
           (u8 "北京市 市辖区 朝阳区") (u8 "女") (u8 "牛") (u8 "X") initial_info)
  <> err_checksum (u8 "X").
Proof.
  apply (proj1 (no_checksum_mismatch_on_15_or_17 new_year_2024
                  (u8 "110105491231002") beijing)).
  - left. vm_compute. reflexivity.
  - vm_compute. reflexivity.
  - vm_compute. reflexivity.
Defined.

(** ** Valid numbers and corrupted check characters *)

Lemma strip_fixed (x y : char) (body : str) :
  isspace x = false -> isspace y = false ->
  strip (x :: body ++ [y]) = x :: body ++ [y].
Proof.
  intros Hx Hy. unfold strip, lstrip, rstrip.
  cbn [drop_while]. rewrite Hx.
  change (x :: body ++ [y]) with ((x :: body) ++ [y]).
  rewrite rev_unit. cbn [drop_while]. rewrite Hy.
  rewrite <- (rev_unit (x :: body) y). apply rev_involutive.
Qed.

Lemma upper_app (a b : str) : upper (a ++ b) = upper a ++ upper b.
Proof. unfold upper. apply flat_map_app. Qed.

Lemma upper_fixed (s : str) :
  Forall (fun c => upper_char c = [c]) s -> upper s = s.
Proof.
  unfold upper. induction 1 as [| c s Hc _ IH]; [reflexivity |].
  cbn [flat_map]. rewrite Hc, IH. reflexivity.
Qed.

Lemma upper_digits (s : str) : isdigit s = true -> upper s = s.
Proof.
  intros H. apply isdigit_Forall in H. destruct H as [_ H].
  apply upper_fixed. apply (Forall_impl _ _ _ H).
  intros c Hc. exact (proj2 (isdigit_char_unchanged c Hc)).
Qed.

(** A valid number is its 17 digits followed by its check character. *)
Lemma valid_number_split (id : str) (c : char) :
  valid_number id c ->
  id = take 17 id ++ [c]
  /\ In c [49; 48; 88; 57; 56; 55; 54; 53; 52; 51; 50]%N.
Proof.
  intros (Hlen & Hdig & Hlast & Hc). split.
  - rewrite <- (take_drop 17 id) at 1. f_equal.
    rewrite (drop_S id c 17 Hlast). rewrite drop_ge by lia. reflexivity.
  - destruct (compute_check_code_Ok _ _ Hc) as (c' & Heq & Hin).
    injection Heq as ->. exact Hin.
Qed.

(** Trimming and uppercasing leave digits followed by a character [y] that
    is no whitespace in place, up to the uppercasing of [y]. *)
Lemma trim_upper_digits_then (digits : str) (y : char) :
  isdigit digits = true -> isspace y = false ->
  upper (strip (digits ++ [y])) = digits ++ upper_char y.
Proof.
  intros Hdig Hy. destruct digits as [| x body]; [discriminate |].
  assert (Hx : isdigit_char x = true) by (apply (isdigit_In _ x Hdig); left; reflexivity).
  cbn [app]. rewrite strip_fixed;
    [| exact (proj1 (isdigit_char_unchanged x Hx)) | exact Hy].
  change (x :: body ++ [y]) with ((x :: body) ++ [y]).
  rewrite upper_app, (upper_digits _ Hdig).
  unfold upper. cbn [flat_map]. rewrite app_nil_r. reflexivity.
Qed.

(** C7 as stated fails: in the valid number "11010519491231002X" the check
    character 'X' can be replaced by the different character 'x', and the
    result still parses as valid, since the input is uppercased first. *)
Lemma lowercase_check_character_accepted :
  valid_number (u8 "11010519491231002X") 88%N
  /\ 120%N <> 88%N
  /\ exists r,
       parse_id_info new_year_2024
         (take 17 (u8 "11010519491231002X") ++ [120%N]) beijing = Ok r
       /\ valid r = true /\ error r = [].
Proof.
  split; [| split; [discriminate |]].
  - unfold valid_number. repeat split; vm_compute; reflexivity.
  - eexists. split; [vm_compute; reflexivity |]. split; reflexivity.
Qed.

(** C7, as amended.  A valid 18 character number passes [normalize]
    unchanged: the recomputed check character matches its 18th character.
    Replacing the 18th character by a character that is no whitespace and
    whose uppercase form is a single character other than the check
    character makes the parser return validity false with the
    check-character message, which contains the expected character. *)
Theorem valid_number_round_trip (id : str) (c : char) :
  valid_number id c ->
  (forall i, normalize id i = (i, Next id))
  /\ (forall current_date region_codes x u,
        isspace x = false -> upper_char x = [u] -> u <> c ->
        parse_id_info current_date (take 17 id ++ [x]) region_codes
        = Ok (set_error (err_checksum [c]) initial_info)
        /\ valid (set_error (err_checksum [c]) initial_info) = false
        /\ error (set_error (err_checksum [c]) initial_info)
           = err_checksum_prefix ++ [c] ++ err_checksum_suffix).
Proof.
  intros Hvalid.
  destruct (valid_number_split id c Hvalid) as (Hid & Hin).
  destruct Hvalid as (Hlen & Hisd & Hlast & Hc).
  destruct (check_char_facts c Hin) as [Hspace Hupper].
  assert (Hl17 : length (take 17 id) = 17%nat) by (rewrite length_take; lia).
  split.
  - intros i.
    assert (Hfix : upper (strip id) = id).
    { rewrite Hid at 1.
      rewrite (trim_upper_digits_then _ c Hisd Hspace), Hupper.
      symmetry. exact Hid. }
    rewrite (normalize_18 id id i Hfix Hlen).
    exact (verify_match id c i Hlen Hisd Hc Hlast).
  - intros current_date region_codes x u Hx Hu Hdiff.
    split; [| split; reflexivity].
    assert (Hfix : upper (strip (take 17 id ++ [x])) = take 17 id ++ [u]).
    { rewrite (trim_upper_digits_then _ x Hisd Hx), Hu. reflexivity. }
    assert (Hl18 : length (take 17 id ++ [u]) = 18%nat)
      by (rewrite length_app, Hl17; reflexivity).
    assert (Htake : take 17 (take 17 id ++ [u]) = take 17 id)
      by (apply take_app_length'; symmetry; exact Hl17).
    rewrite parse_after_normalize.
    rewrite (normalize_18 _ _ initial_info Hfix Hl18).
    rewrite (verify_mismatch (take 17 id ++ [u]) c u initial_info Hl18).
    + reflexivity.
    + rewrite Htake. exact Hisd.
    + rewrite Htake. exact Hc.
    + apply list_lookup_middle. symmetry. exact Hl17.
    + exact Hdiff.
Qed.

Lemma valid_number_round_trip_witness :
  normalize (u8 "11010519491231002X") initial_info
  = (initial_info, Next (u8 "11010519491231002X"))
  /\ parse_id_info new_year_2024 (take 17 (u8 "11010519491231002X") ++ [53%N]) beijing
     = Ok (set_error (err_checksum [88%N]) initial_info).
Proof.
  assert (Hv : valid_number (u8 "11010519491231002X") 88%N).
  { unfold valid_number. repeat split; vm_compute; reflexivity. }
  split.
  - apply (proj1 (valid_number_round_trip _ _ Hv)).
  - apply (proj2 (valid_number_round_trip _ _ Hv) new_year_2024 beijing 53%N 53%N).
    + reflexivity.
    + reflexivity.
    + discriminate.
Defined.

(** * Further properties of the code *)

(** ** The parser in one expression *)

Lemma get_chinese_zodiac_value (y : Z) :
  get_chinese_zodiac y = Ok (animal_of y).
Proof.
  unfold get_chinese_zodiac, animal_of.
  pose proof (Z.mod_pos_bound (y - 1900) 12 ltac:(lia)) as Hb.
  apply item_in_range. change (length zodiacs) with 12%nat. lia.
Qed.

Lemma decode_valid (current_date : date) (region_codes : gmap str str)
    (id : str) (c digit : char) (v : Z) (birth : date) (i : info) :
  id !! 17%nat = Some c -> id !! 16%nat = Some digit -> int [digit] = Ok v ->
  strptime_Ymd (slice 6 14 id) = Ok birth ->
  decode current_date region_codes id i
  = (decoded current_date birth
       (join (u8 " ") (get_region_detail (take 6 id) region_codes))
       (gender_of v) (animal_of (year birth)) [c] i, Return).
Proof.
  intros Hlast Hdigit Hint Hb.
  pose proof (strptime_Ymd_Ok _ _ Hb) as Hok.
  unfold decode. run_decode. rewrite Hb. run_decode.
  rewrite (get_zodiac_sign_on_calendar_date birth Hok). run_decode.
  rewrite get_chinese_zodiac_value. run_decode.
  unfold index. rewrite Hdigit. run_decode. rewrite Hint. run_decode.
  rewrite Hlast. run_decode. reflexivity.
Qed.

Lemma parse_id_info_summary (current_date : date) (s : str)
    (region_codes : gmap str str) :
  parse_id_info current_date s region_codes
  = parse_summary current_date s region_codes.
Proof.
  rewrite parse_after_normalize. unfold parse_summary.
  pose proof (normalize_outcome s initial_info) as Hn.
  destruct (normalize s initial_info) as [i [id | | e]]; try reflexivity.
  destruct Hn as (-> & Hlen & c & Hc & Hlast). cbv zeta.
  destruct (strptime_Ymd (slice 6 14 id)) as [birth | e] eqn:Hb.
  - destruct (compute_check_code_Ok_int (take 17 id) [c] 16 Hc ltac:(lia))
      as (digit & v & Hdigit & Hint).
    rewrite lookup_take_lt in Hdigit by lia.
    rewrite (decode_valid _ _ id c digit v birth _ Hlast Hdigit Hint Hb).
    unfold gender_digit. rewrite Hdigit, Hint.
    rewrite (drop_S id c 17 Hlast), drop_ge by lia. reflexivity.
  - pose proof (decode_outcome current_date region_codes id c initial_info
                  Hlen Hc Hlast) as Hd.
    cbv zeta in Hd. rewrite Hb in Hd. rewrite Hd. reflexivity.
Qed.

(** X1. A returned result is valid exactly when the number that [normalize]
    goes on with carries a calendar date in characters 6 to 13. *)
Theorem valid_iff_birth_date (current_date : date) (s : str)
    (region_codes : gmap str str) (r : info) :
  parse_id_info current_date s region_codes = Ok r ->
  (valid r = true <-> is_Some (birth_of s)).
Proof.
  rewrite parse_id_info_summary. unfold parse_summary, birth_of.
  pose proof (normalize_outcome s initial_info) as Hn.
  destruct (normalize s initial_info) as [i [id | | e]].
  - destruct (strptime_Ymd (slice 6 14 id)) as [birth | e];
      intros H; injection H as <-; simpl; split; intros H;
      try discriminate; eauto.
    destruct H as [x H]. discriminate.
  - destruct Hn as (msg & -> & _). intros H. injection H as <-. simpl.
    split; intros H; [discriminate | destruct H as [x H]; discriminate].
  - discriminate.
Qed.

Lemma valid_iff_birth_date_witness :
  (valid (decoded new_year_2024 (mkdate 1990 3 7) (u8 "北京市 市辖区 朝阳区")
            (u8 "男") (u8 "马") (u8 "0") initial_info) = true
   <-> is_Some (birth_of (u8 "110105199003078510")))
  /\ birth_of (u8 "110105199003078510") = Some (mkdate 1990 3 7)
  /\ (valid (set_error err_birth_date
               (set_address (u8 "北京市 市辖区 朝阳区") initial_info)) = true
      <-> is_Some (birth_of (u8 "110105190002290017")))
  /\ birth_of (u8 "110105190002290017") = None.
Proof.
  split; [| split; [| split]].
  - apply (valid_iff_birth_date new_year_2024 (u8 "110105199003078510") beijing).
    vm_compute. reflexivity.
  - vm_compute. reflexivity.
  - apply (valid_iff_birth_date new_year_2024 (u8 "110105190002290017") beijing).
    vm_compute. reflexivity.
  - vm_compute. reflexivity.
Defined.

(** X2. The reference date decides nothing but the age: on another date the
    parser raises the same exception or returns the same dictionary up to
    the age, and the very same dictionary when the result is not valid. *)
Theorem clock_only_changes_age (current_date other_date : date) (s : str)
    (region_codes : gmap str str) :
  match parse_id_info current_date s region_codes with
  | Raise e => parse_id_info other_date s region_codes = Raise e
  | Ok r =>
      exists r',
        parse_id_info other_date s region_codes = Ok r'
        /\ set_age 0 r' = set_age 0 r
        /\ (valid r = false -> r' = r)
  end.
Proof.
  rewrite !parse_id_info_summary. unfold parse_summary.
  destruct (normalize s initial_info) as [i [id | | e]].
  - cbv zeta. destruct (strptime_Ymd (slice 6 14 id)) as [birth | e].
    + eexists. split; [reflexivity |]. split; [reflexivity |].
      intros H. discriminate H.
    + eexists. split; [reflexivity |]. split; reflexivity.
  - eexists. split; [reflexivity |]. split; reflexivity.
  - reflexivity.
Qed.

(** X3. The directory decides nothing but the address: with another
    directory the parser raises the same exception or returns the same
    dictionary up to the address; validity and error message never depend
    on the directory. *)
Theorem directory_only_changes_address (current_date : date) (s : str)
    (region_codes other_codes : gmap str str) :
  match parse_id_info current_date s region_codes with
  | Raise e => parse_id_info current_date s other_codes = Raise e
  | Ok r =>
      exists r',
        parse_id_info current_date s other_codes = Ok r'
        /\ set_address [] r' = set_address [] r
        /\ valid r' = valid r /\ error r' = error r
  end.
Proof.
  rewrite !parse_id_info_summary. unfold parse_summary.
  destruct (normalize s initial_info) as [i [id | | e]].
  - cbv zeta. destruct (strptime_Ymd (slice 6 14 id)) as [birth | e];
      eexists; split; try reflexivity; repeat split; reflexivity.
  - eexists. split; [reflexivity |]. repeat split; reflexivity.
  - reflexivity.
Qed.

(** X4. For a valid result: the address is resolved from the first six
    characters of the normalized number, the check character field is the
    one computed from its first 17 characters, and the gender is 男 exactly
    when the value of the character at index 16 is odd, 女 when it is even. *)
Theorem valid_result_fields (current_date : date) (s : str)
    (region_codes : gmap str str) (r : info) :
  parse_id_info current_date s region_codes = Ok r -> valid r = true ->
  exists id digit v,
    normalize s initial_info = (initial_info, Next id)
    /\ address r = join (u8 " ") (get_region_detail (take 6 id) region_codes)
    /\ compute_check_code (take 17 id) = Ok (check_code r)
    /\ id !! 16%nat = Some digit /\ int [digit] = Ok v
    /\ (gender r = u8 "男" <-> v mod 2 = 1)
    /\ (gender r = u8 "女" <-> v mod 2 = 0).
Proof.
  intros Hp Hv.
  destruct (parse_id_info_paths current_date s region_codes)
    as [(msg & H & _)
       | [(id & _ & _ & H)
         | [(id & birth & c & digit & v & animal & Hn & Hb & Hlast & Hd & Hint & _ & H)
           | [H _]]]];
    rewrite H in Hp; try discriminate; injection Hp as <-;
    try discriminate Hv.
  pose proof (normalize_outcome s initial_info) as Ho. rewrite Hn in Ho.
  destruct Ho as (_ & _ & c' & Hc & Hlast').
  rewrite Hlast in Hlast'. injection Hlast' as <-.
  exists id, digit, v. simpl.
  pose proof (Z.mod_pos_bound v 2 ltac:(lia)) as Hb2.
  repeat split; try assumption.
  - destruct (Z.eqb_spec (v mod 2) 1) as [He | He]; [intros _; exact He |].
    intros H'. vm_compute in H'. discriminate.
  - intros He. rewrite He. reflexivity.
  - destruct (Z.eqb_spec (v mod 2) 1) as [He | He]; [| intros _; lia].
    intros H'. vm_compute in H'. discriminate.
  - intros He. rewrite He. reflexivity.
Qed.

Lemma valid_result_fields_witness :
  exists id digit v,
    normalize (u8 "110105199003078510") initial_info = (initial_info, Next id)
    /\ address (decoded new_year_2024 (mkdate 1990 3 7)
                  (u8 "北京市 市辖区 朝阳区") (u8 "男") (u8 "马") (u8 "0") initial_info)
       = join (u8 " ") (get_region_detail (take 6 id) beijing)
    /\ compute_check_code (take 17 id)
       = Ok (check_code (decoded new_year_2024 (mkdate 1990 3 7)
                  (u8 "北京市 市辖区 朝阳区") (u8 "男") (u8 "马") (u8 "0") initial_info))
    /\ id !! 16%nat = Some digit /\ int [digit] = Ok v
    /\ (gender (decoded new_year_2024 (mkdate 1990 3 7)
                  (u8 "北京市 市辖区 朝阳区") (u8 "男") (u8 "马") (u8 "0") initial_info)
        = u8 "男" <-> v mod 2 = 1)
    /\ (gender (decoded new_year_2024 (mkdate 1990 3 7)
                  (u8 "北京市 市辖区 朝阳区") (u8 "男") (u8 "马") (u8 "0") initial_info)
        = u8 "女" <-> v mod 2 = 0).
Proof.
  apply (valid_result_fields new_year_2024 (u8 "110105199003078510") beijing).
  - vm_compute. reflexivity.
  - reflexivity.
Defined.

(** ** Trimming *)

Lemma drop_while_spaces (ws s : str) :
  Forall (fun c => isspace c = true) ws ->
  drop_while isspace (ws ++ s) = drop_while isspace s.
Proof.
  induction 1 as [| c ws Hc _ IH]; [reflexivity |].
  cbn [app drop_while]. rewrite Hc. exact IH.
Qed.

Lemma drop_while_app_kept (s t : str) :
  drop_while isspace s <> [] ->
  drop_while isspace (s ++ t) = drop_while isspace s ++ t.
Proof.
  induction s as [| c s IH]; cbn [app drop_while]; [contradiction |].
  destruct (isspace c); [exact IH | reflexivity].
Qed.

Lemma drop_while_all_spaces (s : str) :
  drop_while isspace s = [] -> Forall (fun c => isspace c = true) s.
Proof.
  induction s as [| c s IH]; cbn [drop_while]; [constructor |].
  destruct (isspace c) eqn:Hc; [| discriminate].
  intros H. constructor; [exact Hc | exact (IH H)].
Qed.

Lemma rstrip_spaces (s ws : str) :
  Forall (fun c => isspace c = true) ws -> rstrip (s ++ ws) = rstrip s.
Proof.
  intros H. unfold rstrip. rewrite rev_app_distr.
  rewrite drop_while_spaces; [reflexivity |].
  apply Forall_forall. intros c Hc. apply list_elem_of_In, in_rev in Hc.
  rewrite Forall_forall in H. apply H. apply list_elem_of_In. exact Hc.
Qed.

(** Whitespace around a string does not change what [strip] returns. *)
Lemma strip_surrounded (ws s ws' : str) :
  Forall (fun c => isspace c = true) ws ->
  Forall (fun c => isspace c = true) ws' ->
  strip (ws ++ s ++ ws') = strip s.
Proof.
  intros Hws Hws'. unfold strip, lstrip.
  rewrite (drop_while_spaces ws _ Hws).
  destruct (drop_while isspace s) as [| c t] eqn:Hs.
  - assert (Hall : Forall (fun c => isspace c = true) (s ++ ws'))
      by (apply Forall_app_2; [exact (drop_while_all_spaces s Hs) | exact Hws']).
    rewrite <- (app_nil_r (s ++ ws')).
    rewrite (drop_while_spaces _ [] Hall). reflexivity.
  - rewrite drop_while_app_kept by (rewrite Hs; discriminate).
    rewrite Hs. apply rstrip_spaces. exact Hws'.
Qed.

Lemma parse_depends_on_trimmed (current_date : date) (s s' : str)
    (region_codes : gmap str str) :
  strip s = strip s' ->
  parse_id_info current_date s region_codes
  = parse_id_info current_date s' region_codes.
Proof.
  intros H. rewrite !parse_after_normalize.
  unfold normalize. rewrite H. reflexivity.
Qed.

(** X5. Whitespace before and after the number is ignored: the parser gives
    the same outcome with and without it. *)
Theorem surrounding_whitespace_ignored (current_date : date) (ws s ws' : str)
    (region_codes : gmap str str) :
  Forall (fun c => isspace c = true) ws ->
  Forall (fun c => isspace c = true) ws' ->
  parse_id_info current_date (ws ++ s ++ ws') region_codes
  = parse_id_info current_date s region_codes.
Proof.
  intros Hws Hws'. apply parse_depends_on_trimmed.
  apply strip_surrounded; assumption.
Qed.

Lemma surrounding_whitespace_ignored_witness :
  parse_id_info new_year_2024
    (u8 "  " ++ u8 "110105199003078510" ++ [9%N; 12288%N]) beijing
  = parse_id_info new_year_2024 (u8 "110105199003078510") beijing.
Proof.
  apply surrounding_whitespace_ignored; repeat constructor.
Defined.

(** ** Exceptions *)

Lemma In_drop_while (c : char) (s : str) :
  In c (drop_while isspace s) -> In c s.
Proof.
  induction s as [| x s IH]; cbn [drop_while]; [tauto |].
  destruct (isspace x); [intros H; right; exact (IH H) | tauto].
Qed.

Lemma In_strip (c : char) (s : str) : In c (strip s) -> In c s.
Proof.
  unfold strip, rstrip, lstrip. intros H.
  apply in_rev, In_drop_while, in_rev in H. exact (In_drop_while _ _ H).
Qed.

Lemma upper_char_ascii (c x : char) :
  (c < 128)%N -> In x (upper_char c) -> (x < 128)%N.
Proof.
  intros Hc. unfold upper_char.
  replace (c <? 128)%N with true by (symmetry; apply N.ltb_lt; exact Hc).
  destruct ((97 <=? c)%N && (c <=? 122)%N); simpl; intros [<- | []]; lia.
Qed.

Lemma isdigit_char_ascii (c : char) :
  (c < 128)%N -> isdigit_char c = true -> ascii_digit c.
Proof.
  intros Hc H. destruct (isdigit_char_listed c H) as [Hd | Hin]; [exact Hd |].
  exfalso. unfold isdigit_char, decimal_value in H.
  replace (c <? 128)%N with true in H by (symmetry; apply N.ltb_lt; exact Hc).
  destruct ((48 <=? c)%N && (c <=? 57)%N) eqn:Hd.
  - clear H. revert Hin. apply andb_prop in Hd. destruct Hd as [Hlo Hhi].
    apply N.leb_le in Hlo. apply N.leb_le in Hhi.
    assert (Hcases : In c [48; 49; 50; 51; 52; 53; 54; 55; 56; 57]%N)
      by (apply ascii_digit_cases; unfold ascii_digit; lia).
    intros Hin. clear Hlo Hhi Hc.
    assert (Hall : forallb (fun x => (128 <=? x)%N) unicode_digit_chars = true)
      by (vm_compute; reflexivity).
    rewrite forallb_forall in Hall. apply Hall in Hin. apply N.leb_le in Hin.
    simpl in Hcases. intuition lia.
  - apply andb_prop in H. destruct H as [H _]. apply N.leb_le in H. lia.
Qed.

(** X6. On ASCII input the parser always returns a dictionary: no exception
    escapes. *)
Theorem ascii_input_returns (current_date : date) (s : str)
    (region_codes : gmap str str) :
  Forall (fun c => (c < 128)%N) s ->
  exists r, parse_id_info current_date s region_codes = Ok r.
Proof.
  intros Hascii.
  destruct (parse_id_info_paths current_date s region_codes)
    as [(msg & H & _)
       | [(id & _ & _ & H)
         | [(id & birth & c & digit & v & animal & _ & _ & _ & _ & _ & _ & H)
           | [_ (c & Hin & Hdig & Hint)]]]]; eauto.
  exfalso. unfold upper in Hin. apply in_flat_map in Hin.
  destruct Hin as (c0 & Hc0 & Hc).
  apply In_strip in Hc0. rewrite List.Forall_forall in Hascii.
  pose proof (upper_char_ascii c0 c (Hascii c0 Hc0) Hc) as Hlt.
  pose proof (isdigit_char_ascii c Hlt Hdig) as Hd.
  rewrite (int_ascii_digit c Hd) in Hint. discriminate.
Qed.

Lemma ascii_input_returns_witness :
  exists r, parse_id_info new_year_2024 (u8 "11010519900307851x") beijing = Ok r.
Proof.
  apply ascii_input_returns. vm_compute. repeat constructor.
Defined.

(** X7. An exception does escape the parser: when the trimmed, uppercased
    input is 17 characters that [isdigit] accepts and [int] rejects one of
    them (a superscript two, a circled digit), [ValueError] is raised,
    whatever the date and the directory. *)
Theorem digit_rejected_by_int_raises (current_date : date) (s : str)
    (region_codes : gmap str str) (c : char) :
  length (upper (strip s)) = 17%nat ->
  isdigit (upper (strip s)) = true ->
  In c (upper (strip s)) -> int [c] = Raise ValueError ->
  parse_id_info current_date s region_codes = Raise ValueError.
Proof.
  intros Hlen Hdig Hin Hint.
  destruct (compute_check_code (upper (strip s))) as [r | e] eqn:Hc.
  - exfalso. apply In_nth with (d := 0%N) in Hin.
    destruct Hin as (n & Hn & Hnth). rewrite Hlen in Hn.
    destruct (compute_check_code_Ok_int _ r n Hc Hn) as (x & v & Hx & Hv).
    apply nth_lookup_Some with (d := 0%N) in Hx. rewrite Hnth in Hx.
    subst x. rewrite Hint in Hv. discriminate.
  - destruct (compute_check_code_Raise _ e Hlen Hc) as (-> & _).
    rewrite parse_after_normalize.
    rewrite (normalize_17_raise s _ ValueError initial_info eq_refl Hlen Hdig Hc).
    reflexivity.
Qed.

Lemma digit_rejected_by_int_raises_witness :
  parse_id_info new_year_2024 (u8 "1101051990030785²") beijing = Raise ValueError.
Proof.
  apply (digit_rejected_by_int_raises _ _ _ 178%N); vm_compute;
    [reflexivity | reflexivity | tauto | reflexivity].
Defined.

(** ** Completion of the 17 and 15 character forms *)

Lemma normalize_of_valid_number (id : str) (c : char) (i : info) :
  valid_number id c -> normalize id i = (i, Next id).
Proof.
  intros Hvalid.
  destruct (valid_number_split id c Hvalid) as (Hid & Hin).
  destruct Hvalid as (Hlen & Hisd & Hlast & Hc).
  destruct (check_char_facts c Hin) as [Hspace Hupper].
  assert (Hfix : upper (strip id) = id).
  { rewrite Hid at 1.
    rewrite (trim_upper_digits_then _ c Hisd Hspace), Hupper.
    symmetry. exact Hid. }
  rewrite (normalize_18 id id i Hfix Hlen).
  exact (verify_match id c i Hlen Hisd Hc Hlast).
Qed.

Lemma completed_is_valid_number (body : str) (c : char) :
  length body = 17%nat -> isdigit body = true ->
  compute_check_code body = Ok [c] ->
  valid_number (body ++ [c]) c.
Proof.
  intros Hlen Hdig Hc. unfold valid_number.
  rewrite (take_app_length' body [c] 17) by (symmetry; exact Hlen).
  repeat split; try assumption.
  - rewrite length_app, Hlen. reflexivity.
  - apply list_lookup_middle. symmetry. exact Hlen.
Qed.

Lemma parse_same_normalize (current_date : date) (s s' : str)
    (region_codes : gmap str str) :
  normalize s initial_info = normalize s' initial_info ->
  parse_id_info current_date s region_codes
  = parse_id_info current_date s' region_codes.
Proof. intros H. rewrite !parse_after_normalize, H. reflexivity. Qed.

(** X8. A 17 digit input is parsed as the 18 character number made of the
    digits and the check character computed from them. *)
Theorem seventeen_digits_parse_as_completed (current_date : date) (s : str)
    (region_codes : gmap str str) (c : char) :
  length (upper (strip s)) = 17%nat ->
  isdigit (upper (strip s)) = true ->
  compute_check_code (upper (strip s)) = Ok [c] ->
  parse_id_info current_date s region_codes
  = parse_id_info current_date (upper (strip s) ++ [c]) region_codes.
Proof.
  intros Hlen Hdig Hc. apply parse_same_normalize.
  rewrite (normalize_17_digits s _ c initial_info eq_refl Hlen Hdig Hc).
  symmetry. apply (normalize_of_valid_number _ c).
  exact (completed_is_valid_number _ c Hlen Hdig Hc).
Qed.

Lemma seventeen_digits_parse_as_completed_witness :
  parse_id_info new_year_2024 (u8 " 11010519491231002 ") beijing
  = parse_id_info new_year_2024
      (upper (strip (u8 " 11010519491231002 ")) ++ [88%N]) beijing.
Proof.
  apply seventeen_digits_parse_as_completed; vm_compute; reflexivity.
Defined.

(** X9. [upgrade_15_to_18] returns [None] exactly on an input that is not 15
    characters, all digits; it never returns an empty string. *)
Theorem upgrade_15_to_18_refuses (id_15 : str) :
  (upgrade_15_to_18 id_15 = Ok None
   <-> ~ (length id_15 = 15%nat /\ isdigit id_15 = true))
  /\ upgrade_15_to_18 id_15 <> Ok (Some []).
Proof.
  unfold upgrade_15_to_18.
  destruct (Z.eqb_spec (len id_15) 15) as [Hl | Hl]; unfold len in Hl.
  - destruct (isdigit id_15) eqn:Hd; cbn [andb].
    + destruct (compute_check_code _) as [r | e]; cbn [bind]; split.
      * split; [discriminate | intros H; exfalso; apply H; split; [lia | reflexivity]].
      * intros H. injection H as H. apply app_eq_nil in H.
        destruct H as [H _]. apply app_eq_nil in H. destruct H as [_ H].
        discriminate H.
      * split; [discriminate | intros H; exfalso; apply H; split; [lia | reflexivity]].
      * discriminate.
    + split; [| discriminate].
      split; [intros _ [_ H]; discriminate | reflexivity].
  - cbn [andb]. split; [| discriminate].
    split; [intros _ [H _]; lia | reflexivity].
Qed.

(** X10. When [upgrade_15_to_18] returns a number, the input was 15 digits
    and the number is valid: 18 characters whose last one is the check
    character of the first 17.  It keeps the first six characters, has "19"
    at positions 6 and 7 and the remaining nine input characters after them,
    so removing positions 6, 7 and 17 gives the input back. *)
Theorem upgrade_15_to_18_round_trip (id_15 upgraded : str) :
  upgrade_15_to_18 id_15 = Ok (Some upgraded) ->
  length id_15 = 15%nat /\ isdigit id_15 = true
  /\ (exists c, valid_number upgraded c)
  /\ take 6 upgraded = take 6 id_15
  /\ slice 6 8 upgraded = u8 "19"
  /\ slice 8 17 upgraded = drop 6 id_15
  /\ take 6 upgraded ++ slice 8 17 upgraded = id_15.
Proof.
  unfold upgrade_15_to_18.
  destruct (Z.eqb_spec (len id_15) 15) as [Hl | Hl]; [| discriminate].
  destruct (isdigit id_15) eqn:Hd; [| discriminate]. cbn [andb].
  unfold len in Hl. assert (Hlen : length id_15 = 15%nat) by lia.
  destruct (compute_check_code _) as [r | e] eqn:Hc; [| discriminate].
  cbn [bind]. intros H. injection H as <-.
  destruct (compute_check_code_Ok _ _ Hc) as (c & -> & _).
  pose proof (upgraded_length id_15 Hlen) as Hl17.
  assert (Ht6 : length (take 6 id_15) = 6%nat) by (rewrite length_take; lia).
  assert (Hd6 : length (drop 6 id_15) = 9%nat) by (rewrite length_drop; lia).
  split; [exact Hlen |]. split; [reflexivity |].
  split; [exists c; exact (completed_is_valid_number _ c Hl17
                             (upgraded_isdigit id_15 Hd) Hc) |].
  assert (E6 : take 6 ((take 6 id_15 ++ u8 "19" ++ drop 6 id_15) ++ [c])
               = take 6 id_15).
  { rewrite <- !app_assoc. apply take_app_length'. symmetry. exact Ht6. }
  assert (E8 : slice 8 17 ((take 6 id_15 ++ u8 "19" ++ drop 6 id_15) ++ [c])
               = drop 6 id_15).
  { unfold slice. rewrite <- !app_assoc.
    rewrite drop_app_ge by lia. rewrite Ht6.
    change (u8 "19") with [49%N; 57%N]. cbn [Nat.sub app drop].
    apply take_app_length'. symmetry. exact Hd6. }
  split; [exact E6 |]. split; [| split; [exact E8 |]].
  - unfold slice. rewrite <- !app_assoc.
    rewrite drop_app_ge by lia. rewrite Ht6.
    change (u8 "19") with [49%N; 57%N]. reflexivity.
  - transitivity (take 6 id_15 ++ drop 6 id_15);
      [f_equal; [exact E6 | exact E8] | apply take_drop].
Qed.

Lemma upgrade_15_to_18_round_trip_witness :
  take 6 (u8 "11010519491231002X") ++ slice 8 17 (u8 "11010519491231002X")
  = u8 "110105491231002".
Proof.
  apply (upgrade_15_to_18_round_trip (u8 "110105491231002") (u8 "11010519491231002X")).
  vm_compute. reflexivity.
Defined.

(** X11. A 15 digit input is parsed as the 18 character number
    [upgrade_15_to_18] makes of it. *)
Theorem fifteen_digits_parse_as_upgraded (current_date : date) (s : str)
    (region_codes : gmap str str) (upgraded : str) :
  upgrade_15_to_18 (upper (strip s)) = Ok (Some upgraded) ->
  parse_id_info current_date s region_codes
  = parse_id_info current_date upgraded region_codes.
Proof.
  intros Hup. apply parse_same_normalize.
  pose proof Hup as Hup'. unfold upgrade_15_to_18 in Hup'.
  destruct (Z.eqb_spec (len (upper (strip s))) 15) as [Hl | Hl]; [| discriminate].
  destruct (isdigit (upper (strip s))) eqn:Hd; [| discriminate].
  cbn [andb] in Hup'. unfold len in Hl.
  assert (Hlen : length (upper (strip s)) = 15%nat) by lia.
  destruct (compute_check_code _) as [r | e] eqn:Hc; [| discriminate].
  cbn [bind] in Hup'. injection Hup' as <-.
  destruct (compute_check_code_Ok _ _ Hc) as (c & -> & _).
  rewrite (normalize_15_digits s _ c initial_info eq_refl Hlen Hd Hc).
  symmetry. apply (normalize_of_valid_number _ c).
  exact (completed_is_valid_number _ c (upgraded_length _ Hlen)
           (upgraded_isdigit _ Hd) Hc).
Qed.

Lemma fifteen_digits_parse_as_upgraded_witness :
  parse_id_info new_year_2024 (u8 "110105491231002") beijing
  = parse_id_info new_year_2024 (u8 "11010519491231002X") beijing.
Proof.
  apply fifteen_digits_parse_as_upgraded. vm_compute. reflexivity.
Defined.

(** ** What the check character detects *)

Lemma compute_check_code_total (s : str) :
  length s = 17%nat -> Forall ascii_digit s ->
  compute_check_code s
  = Ok (nth (Z.to_nat (check_total s mod 11)) check_codes []).
Proof.
  intros Hlen Hdig. unfold compute_check_code.
  rewrite (weighted_sum_digits s Hlen Hdig 17 0 0) by lia.
  cbn [bind]. rewrite Z.add_0_l. apply item_in_range.
  pose proof (Z.mod_pos_bound (check_total s) 11 ltac:(lia)) as Hb.
  change (length check_codes) with 11%nat. exact Hb.
Qed.

Lemma check_codes_distinct (r1 r2 : Z) :
  0 <= r1 < 11 -> 0 <= r2 < 11 ->
  nth (Z.to_nat r1) check_codes [] = nth (Z.to_nat r2) check_codes [] ->
  r1 = r2.
Proof.
  intros H1 H2.
  assert (C1 : r1 = 0 \/ r1 = 1 \/ r1 = 2 \/ r1 = 3 \/ r1 = 4 \/ r1 = 5 \/ r1 = 6
               \/ r1 = 7 \/ r1 = 8 \/ r1 = 9 \/ r1 = 10) by lia.
  assert (C2 : r2 = 0 \/ r2 = 1 \/ r2 = 2 \/ r2 = 3 \/ r2 = 4 \/ r2 = 5 \/ r2 = 6
               \/ r2 = 7 \/ r2 = 8 \/ r2 = 9 \/ r2 = 10) by lia.
  repeat (destruct C1 as [-> | C1]);
    repeat (destruct C2 as [-> | C2]); subst;
    intros H; vm_compute in H; first [reflexivity | discriminate H].
Qed.

(** Two strings of 17 ASCII digits have the same check character exactly
    when their weighted sums agree modulo 11. *)
Lemma same_check_code_iff (a b : str) :
  length a = 17%nat -> Forall ascii_digit a ->
  length b = 17%nat -> Forall ascii_digit b ->
  (compute_check_code a = compute_check_code b
   <-> (check_total b - check_total a) mod 11 = 0).
Proof.
  intros Hla Hda Hlb Hdb.
  rewrite (compute_check_code_total a Hla Hda), (compute_check_code_total b Hlb Hdb).
  pose proof (Z.mod_pos_bound (check_total a) 11 ltac:(lia)) as Ha.
  pose proof (Z.mod_pos_bound (check_total b) 11 ltac:(lia)) as Hb.
  split.
  - intros H. injection H as H. apply check_codes_distinct in H; [| lia | lia].
    rewrite Zminus_mod, H, Z.sub_diag. reflexivity.
  - intros H. f_equal. f_equal. f_equal.
    rewrite Zminus_mod in H.
    assert (Hz : (check_total b mod 11 - check_total a mod 11) = 0).
    { apply Z.mod_divide in H; [| lia]. destruct H as [q Hq].
      assert (q = 0) by lia. lia. }
    lia.
Qed.

Lemma sum_map_sub (f g : nat -> Z) (l : list nat) :
  fold_right Z.add 0 (map g l) - fold_right Z.add 0 (map f l)
  = fold_right Z.add 0 (map (fun j => g j - f j) l).
Proof. induction l as [| x l IH]; simpl; lia. Qed.

(** A sum whose terms vanish outside two positions. *)
Lemma sum_two_positions (h : nat -> Z) (i k : nat) (l : list nat) :
  NoDup l -> i <> k ->
  (forall j, In j l -> j <> i -> j <> k -> h j = 0) ->
  fold_right Z.add 0 (map h l)
  = (if in_dec Nat.eq_dec i l then h i else 0)
    + (if in_dec Nat.eq_dec k l then h k else 0).
Proof.
  intros Hnd Hik. induction l as [| x l IH]; intros Hzero; [reflexivity |].
  apply NoDup_cons in Hnd. destruct Hnd as [Hx Hnd].
  rewrite list_elem_of_In in Hx.
  cbn [map fold_right].
  rewrite (IH Hnd) by (intros j Hj; apply Hzero; right; exact Hj).
  destruct (in_dec Nat.eq_dec i (x :: l)) as [Hi | Hi];
    destruct (in_dec Nat.eq_dec k (x :: l)) as [Hk | Hk];
    destruct (in_dec Nat.eq_dec i l) as [Hi' | Hi'];
    destruct (in_dec Nat.eq_dec k l) as [Hk' | Hk'];
    simpl in Hi, Hk;
    try (exfalso; tauto);
    try (destruct Hi as [-> | Hi]; [| tauto]);
    try (destruct Hk as [-> | Hk]; [| tauto]);
    try (exfalso; tauto); try lia.
  all: try (rewrite (Hzero x) by (simpl; tauto || congruence); lia).
  all: rewrite (Hzero x); [lia | left; reflexivity | |]; intros ->; tauto.
Qed.

Lemma seq_NoDup_17 : NoDup (seq 0 17).
Proof. apply NoDup_ListNoDup, List.seq_NoDup. Qed.

Lemma digit_at_bounds (s : str) (i : nat) :
  Forall ascii_digit s -> (i < length s)%nat -> 0 <= digit_at s i <= 9.
Proof.
  intros Hd Hi. pose proof (proj1 (Forall_nth ascii_digit 0%N s) Hd i Hi) as H.
  unfold digit_at, ascii_digit in *. lia.
Qed.

Lemma digit_at_lookup (a b : str) (i j : nat) :
  a !! i = b !! j -> (i < length a)%nat -> digit_at a i = digit_at b j.
Proof.
  intros H Hi. unfold digit_at. rewrite !nth_lookup, H. reflexivity.
Qed.

Lemma digit_at_differs (a b : str) (i j : nat) :
  a !! i <> b !! j -> (i < length a)%nat -> (j < length b)%nat ->
  digit_at a i <> digit_at b j.
Proof.
  intros H Hi Hj. unfold digit_at. rewrite !nth_lookup.
  destruct (a !! i) as [x |] eqn:Hx; [| apply lookup_ge_None in Hx; lia].
  destruct (b !! j) as [y |] eqn:Hy; [| apply lookup_ge_None in Hy; lia].
  simpl. intros Heq. apply H. f_equal. lia.
Qed.

Lemma swap_table :
  forallb (fun i =>
     forallb (fun k =>
        forallb (fun delta =>
           Bool.eqb (swap_unseen i k delta)
                    ((i =? k)%nat || (k =? i + 10)%nat || (i =? k + 10)%nat))
          digit_differences)
       (seq 0 17))
    (seq 0 17) = true.
Proof. vm_compute. reflexivity. Qed.

Lemma digit_difference_listed (delta : Z) :
  -9 <= delta <= 9 -> delta <> 0 -> In delta digit_differences.
Proof.
  intros Hd Hnz. unfold digit_differences. simpl.
  assert (delta = -9 \/ delta = -8 \/ delta = -7 \/ delta = -6 \/ delta = -5
          \/ delta = -4 \/ delta = -3 \/ delta = -2 \/ delta = -1 \/ delta = 1
          \/ delta = 2 \/ delta = 3 \/ delta = 4 \/ delta = 5 \/ delta = 6
          \/ delta = 7 \/ delta = 8 \/ delta = 9) by lia.
  intuition auto.
Qed.

Lemma swap_unseen_iff (i k : nat) (delta : Z) :
  (i < 17)%nat -> (k < 17)%nat -> -9 <= delta <= 9 -> delta <> 0 ->
  (swap_unseen i k delta = true <-> (i = k \/ k = i + 10 \/ i = k + 10)%nat).
Proof.
  intros Hi Hk Hd Hnz. pose proof swap_table as Ht.
  rewrite forallb_forall in Ht. specialize (Ht i ltac:(apply in_seq; lia)).
  rewrite forallb_forall in Ht. specialize (Ht k ltac:(apply in_seq; lia)).
  rewrite forallb_forall in Ht.
  specialize (Ht delta (digit_difference_listed delta Hd Hnz)).
  apply Bool.eqb_prop in Ht. rewrite Ht.
  rewrite !orb_true_iff, !Nat.eqb_eq. tauto.
Qed.

Lemma weight_table :
  forallb (fun i =>
     forallb (fun delta => negb ((delta * nth i coefficients 0) mod 11 =? 0))
       digit_differences)
    (seq 0 17) = true.
Proof. vm_compute. reflexivity. Qed.

Lemma weighted_difference_seen (i : nat) (delta : Z) :
  (i < 17)%nat -> -9 <= delta <= 9 -> delta <> 0 ->
  (delta * nth i coefficients 0) mod 11 <> 0.
Proof.
  intros Hi Hd Hnz. pose proof weight_table as Ht.
  rewrite forallb_forall in Ht. specialize (Ht i ltac:(apply in_seq; lia)).
  rewrite forallb_forall in Ht.
  specialize (Ht delta (digit_difference_listed delta Hd Hnz)).
  apply negb_true_iff, Z.eqb_neq in Ht. exact Ht.
Qed.

(** X12. Replacing one digit of a 17 digit string by a different digit
    always changes the check character. *)
Theorem single_digit_error_detected (a b : str) (i : nat) :
  length a = 17%nat -> Forall ascii_digit a ->
  length b = 17%nat -> Forall ascii_digit b ->
  (i < 17)%nat -> a !! i <> b !! i ->
  (forall j, j <> i -> a !! j = b !! j) ->
  compute_check_code a <> compute_check_code b.
Proof.
  intros Hla Hda Hlb Hdb Hi Hdiff Hsame Heq.
  apply (same_check_code_iff a b Hla Hda Hlb Hdb) in Heq.
  unfold check_total in Heq. rewrite sum_map_sub in Heq.
  rewrite (sum_two_positions _ i 17 (seq 0 17) seq_NoDup_17 ltac:(lia)) in Heq.
  - destruct (in_dec Nat.eq_dec i (seq 0 17)) as [_ | Hn];
      [| exfalso; apply Hn; apply in_seq; lia].
    destruct (in_dec Nat.eq_dec 17%nat (seq 0 17)) as [Hin | _];
      [apply in_seq in Hin; lia |].
    rewrite Z.add_0_r, <- Z.mul_sub_distr_r in Heq.
    pose proof (digit_at_bounds a i Hda ltac:(lia)).
    pose proof (digit_at_bounds b i Hdb ltac:(lia)).
    pose proof (digit_at_differs a b i i Hdiff ltac:(lia) ltac:(lia)).
    revert Heq. apply weighted_difference_seen; lia.
  - intros j Hj Hji _. apply in_seq in Hj.
    rewrite (digit_at_lookup a b j j (Hsame j Hji)) by lia. lia.
Qed.

Lemma single_digit_error_detected_witness :
  compute_check_code (u8 "11010519491231002")
  <> compute_check_code (u8 "11010519491231902").
Proof.
  apply (single_digit_error_detected _ _ 14);
    try (vm_compute; repeat constructor; discriminate);
    try reflexivity; try lia; try discriminate.
  intros j Hj.
  do 14 (destruct j as [| j]; [vm_compute; reflexivity |]).
  destruct j as [| j]; [contradiction |]. vm_compute. reflexivity.
Defined.

(** X13. Exchanging two different digits of a 17 digit string changes the
    check character, except when the two positions are exactly ten apart:
    such an exchange never changes it. *)
Theorem transposition_detected_unless_ten_apart (a b : str) (i k : nat) :
  length a = 17%nat -> Forall ascii_digit a ->
  length b = 17%nat -> Forall ascii_digit b ->
  (i < k < 17)%nat -> a !! i <> a !! k ->
  b !! i = a !! k -> b !! k = a !! i ->
  (forall j, j <> i -> j <> k -> a !! j = b !! j) ->
  (compute_check_code a = compute_check_code b <-> k = (i + 10)%nat).
Proof.
  intros Hla Hda Hlb Hdb Hik Hdiff Hbi Hbk Hsame.
  rewrite (same_check_code_iff a b Hla Hda Hlb Hdb).
  unfold check_total. rewrite sum_map_sub.
  rewrite (sum_two_positions _ i k (seq 0 17) seq_NoDup_17 ltac:(lia)).
  - destruct (in_dec Nat.eq_dec i (seq 0 17)) as [_ | Hn];
      [| exfalso; apply Hn; apply in_seq; lia].
    destruct (in_dec Nat.eq_dec k (seq 0 17)) as [_ | Hn];
      [| exfalso; apply Hn; apply in_seq; lia].
    rewrite (digit_at_lookup b a i k Hbi) by lia.
    rewrite (digit_at_lookup b a k i Hbk) by lia.
    pose proof (digit_at_bounds a i Hda ltac:(lia)).
    pose proof (digit_at_bounds a k Hda ltac:(lia)).
    pose proof (digit_at_differs a a i k Hdiff ltac:(lia) ltac:(lia)).
    pose proof (swap_unseen_iff i k (digit_at a k - digit_at a i)
                  ltac:(lia) ltac:(lia) ltac:(lia) ltac:(lia)) as Hsw.
    unfold swap_unseen in Hsw. rewrite Z.eqb_eq in Hsw.
    replace (digit_at a k * nth i coefficients 0 - digit_at a i * nth i coefficients 0
             + (digit_at a i * nth k coefficients 0 - digit_at a k * nth k coefficients 0))
      with ((nth i coefficients 0 - nth k coefficients 0)
            * (digit_at a k - digit_at a i)) by lia.
    rewrite Hsw. lia.
  - intros j Hj Hji Hjk. apply in_seq in Hj.
    rewrite (digit_at_lookup a b j j (Hsame j Hji Hjk)) by lia. lia.
Qed.

Lemma transposition_detected_unless_ten_apart_witness :
  compute_check_code (u8 "11010519491231002")
  = compute_check_code (u8 "11310519491201002") <-> 12%nat = (2 + 10)%nat.
Proof.
  apply (transposition_detected_unless_ten_apart
           (u8 "11010519491231002") (u8 "11310519491201002") 2 12);
    try (vm_compute; repeat constructor; discriminate);
    try reflexivity; try lia; try discriminate.
  intros j Hj Hk.
  do 2 (destruct j as [| j]; [vm_compute; reflexivity |]).
  destruct j as [| j]; [contradiction |].
  do 9 (destruct j as [| j]; [vm_compute; reflexivity |]).
  destruct j as [| j]; [contradiction |]. vm_compute. reflexivity.
Defined.

(** ** How much of its argument [compute_check_code] reads *)

Lemma weighted_sum_take (s : str) :
  forall n a total, (a + n <= 17)%nat ->
    weighted_sum s (seq a n) total = weighted_sum (take 17 s) (seq a n) total.
Proof.
  induction n as [| n IH]; intros a total Hle; [reflexivity |].
  cbn [seq weighted_sum]. unfold index.
  rewrite lookup_take_lt by lia.
  destruct (s !! a) as [c |]; [| reflexivity]. cbn [bind].
  destruct (int [c]) as [d | e]; [| reflexivity]. cbn [bind].
  destruct (item coefficients (Z.of_nat a)) as [k | e]; [| reflexivity].
  cbn [bind]. apply IH. lia.
Qed.

Lemma weighted_sum_short (s : str) :
  Forall ascii_digit s ->
  forall n a total, (a <= length s)%nat -> (length s < a + n)%nat ->
    (a + n <= 17)%nat ->
    weighted_sum s (seq a n) total = Raise IndexError.
Proof.
  intros Hdig. induction n as [| n IH]; intros a total Ha Hs H17; [lia |].
  cbn [seq weighted_sum].
  destruct (decide (a = length s)) as [-> | Hne].
  - unfold index. rewrite lookup_ge_None_2 by lia. reflexivity.
  - rewrite index_in_range by lia. cbn [bind].
    rewrite int_ascii_digit
      by (apply (proj1 (Forall_nth ascii_digit 0%N s) Hdig); lia).
    cbn [bind].
    rewrite (item_in_range coefficients (Z.of_nat a) 0)
      by (unfold coefficients; simpl length; lia).
    cbn [bind]. apply IH; lia.
Qed.

(** X14. [compute_check_code] reads the first 17 characters and no more:
    what follows them is ignored, and a string of fewer than 17 ASCII digits,
    the empty string included, raises [IndexError]. *)
Theorem compute_check_code_reads_17 (s : str) :
  compute_check_code s = compute_check_code (take 17 s)
  /\ (Forall ascii_digit s -> (length s < 17)%nat ->
      compute_check_code s = Raise IndexError).
Proof.
  unfold compute_check_code. split.
  - rewrite (weighted_sum_take s 17 0 0) by lia. reflexivity.
  - intros Hdig Hlen.
    rewrite (weighted_sum_short s Hdig 17 0 0) by lia. reflexivity.
Qed.

Lemma compute_check_code_reads_17_witness :
  compute_check_code (u8 "1101051949") = Raise IndexError.
Proof.
  apply (proj2 (compute_check_code_reads_17 (u8 "1101051949"))).
  - vm_compute. repeat constructor; discriminate.
  - vm_compute. lia.
Defined.

(** ** The animal of a year *)

Lemma zodiacs_distinct (r1 r2 : Z) :
  0 <= r1 < 12 -> 0 <= r2 < 12 ->
  nth (Z.to_nat r1) zodiacs [] = nth (Z.to_nat r2) zodiacs [] -> r1 = r2.
Proof.
  intros H1 H2.
  assert (C1 : r1 = 0 \/ r1 = 1 \/ r1 = 2 \/ r1 = 3 \/ r1 = 4 \/ r1 = 5 \/ r1 = 6
               \/ r1 = 7 \/ r1 = 8 \/ r1 = 9 \/ r1 = 10 \/ r1 = 11) by lia.
  assert (C2 : r2 = 0 \/ r2 = 1 \/ r2 = 2 \/ r2 = 3 \/ r2 = 4 \/ r2 = 5 \/ r2 = 6
               \/ r2 = 7 \/ r2 = 8 \/ r2 = 9 \/ r2 = 10 \/ r2 = 11) by lia.
  repeat (destruct C1 as [-> | C1]);
    repeat (destruct C2 as [-> | C2]); subst;
    intros H; vm_compute in H; first [reflexivity | discriminate H].
Qed.

(** X15. [get_chinese_zodiac] returns one of the twelve animals for every
    integer year, also before 1900, and two years have the same animal
    exactly when they differ by a multiple of 12. *)
Theorem chinese_zodiac_cycle (y y' : Z) :
  (exists animal, get_chinese_zodiac y = Ok animal /\ In animal zodiacs)
  /\ (get_chinese_zodiac y = get_chinese_zodiac y' <-> (y - y') mod 12 = 0).
Proof.
  split; [apply get_chinese_zodiac_Ok |].
  rewrite !get_chinese_zodiac_value. unfold animal_of.
  pose proof (Z.mod_pos_bound (y - 1900) 12 ltac:(lia)) as H1.
  pose proof (Z.mod_pos_bound (y' - 1900) 12 ltac:(lia)) as H2.
  split.
  - intros H. injection H as H. apply zodiacs_distinct in H; [| lia | lia].
    replace (y - y') with ((y - 1900) - (y' - 1900)) by lia.
    rewrite Zminus_mod, H, Z.sub_diag. reflexivity.
  - intros H. do 3 f_equal.
    replace (y - y') with ((y - 1900) - (y' - 1900)) in H by lia.
    rewrite Zminus_mod in H.
    apply Z.mod_divide in H; [| lia]. destruct H as [q Hq].
    assert (q = 0) by lia. lia.
Qed.

(** ** More on region resolution *)

(** X16. [get_region_detail] looks up the province key, the city key and the
    code itself and nothing else: two directories that agree on these three
    keys give the same result. *)
Theorem get_region_detail_reads_three_keys (code : str)
    (region_codes other_codes : gmap str str) :
  Forall (fun k => k = province_key code \/ k = city_key code \/ k = code)
         (lookups (region_walk code region_codes))
  /\ (region_codes !! province_key code = other_codes !! province_key code ->
      region_codes !! city_key code = other_codes !! city_key code ->
      region_codes !! code = other_codes !! code ->
      get_region_detail code region_codes = get_region_detail code other_codes).
Proof.
  split.
  - unfold region_walk. fold (province_key code). fold (city_key code).
    destruct (truthy (region_codes !! province_key code)); simpl;
      [| repeat constructor; tauto].
    destruct (negb (str_eqb (city_key code) (province_key code))); simpl;
      repeat constructor; tauto.
  - intros Hp Hc Hd. unfold get_region_detail, region_walk.
    fold (province_key code). fold (city_key code).
    rewrite Hp, Hc, Hd. reflexivity.
Qed.

Lemma get_region_detail_reads_three_keys_witness :
  get_region_detail (u8 "110105") beijing
  = get_region_detail (u8 "110105") (<[u8 "310000" := u8 "上海市"]> beijing).
Proof.
  apply (proj2 (get_region_detail_reads_three_keys (u8 "110105") beijing
                  (<[u8 "310000" := u8 "上海市"]> beijing)));
    vm_compute; reflexivity.
Defined.

(** X17. A code that is its own city key (it ends in "00") shows the city
    segment twice, once for the city and once for the district lookup; a
    code that is its own province key shows the province name followed by
    the last segment of that name. *)
Theorem region_level_codes_repeat (code : str) (region_codes : gmap str str)
    (province : str) :
  region_codes !! province_key code = Some province -> province <> [] ->
  (forall entry,
      city_key code = code -> code <> province_key code ->
      region_codes !! code = Some entry -> entry <> [] ->
      get_region_detail code region_codes
      = [province; last_item (split slash entry); last_item (split slash entry)])
  /\ (city_key code = code -> province_key code = code ->
      get_region_detail code region_codes
      = [province; last_item (split slash province)]).
Proof.
  intros Hp Hne. unfold get_region_detail, region_walk.
  fold (province_key code). fold (city_key code).
  rewrite Hp. destruct province as [| x province]; [contradiction |].
  cbn [truthy]. split.
  - intros entry Hc Hcp Hd Hent. rewrite Hc, Hd.
    destruct entry as [| y entry]; [contradiction |]. cbn [truthy].
    unfold str_eqb. rewrite bool_decide_eq_false_2 by exact Hcp.
    reflexivity.
  - intros Hc Hpk. rewrite Hc, Hpk. rewrite Hpk in Hp.
    rewrite str_eqb_refl, Hp. reflexivity.
Qed.

Lemma region_level_codes_repeat_witness :
  get_region_detail (u8 "110100") beijing
  = [u8 "北京市"; last_item (split slash (u8 "北京市/市辖区"));
     last_item (split slash (u8 "北京市/市辖区"))]
  /\ get_region_detail (u8 "110000") beijing
     = [u8 "北京市"; last_item (split slash (u8 "北京市"))].
Proof.
  split.
  - apply (proj1 (region_level_codes_repeat (u8 "110100") beijing (u8 "北京市")
                    ltac:(vm_compute; reflexivity) ltac:(vm_compute; discriminate)));
      vm_compute; first [reflexivity | discriminate].
  - apply (proj2 (region_level_codes_repeat (u8 "110000") beijing (u8 "北京市")
                    ltac:(vm_compute; reflexivity) ltac:(vm_compute; discriminate)));
      vm_compute; reflexivity.
Defined.

Lemma split_nonempty (sep : char) (s : str) : split sep s <> [].
Proof.
  destruct s as [| c s]; cbn [split]; [discriminate |].
  destruct (c =? sep)%N; [discriminate |].
  destruct (split sep s); discriminate.
Qed.

Lemma split_without_separator (sep : char) (s : str) :
  ~ In sep s -> split sep s = [s].
Proof.
  induction s as [| c s IH]; intros Hn; [reflexivity |].
  cbn [split]. destruct (N.eqb_spec c sep) as [-> | Hne].
  - exfalso. apply Hn. left. reflexivity.
  - rewrite IH by (intros H; apply Hn; right; exact H). reflexivity.
Qed.

Lemma last_cons_nonempty (x : str) (l : list str) :
  l <> [] -> List.last (x :: l) [] = List.last l [].
Proof. destruct l; [contradiction | reflexivity]. Qed.

Lemma split_two_parts (sep : char) (a b : str) :
  exists w ws, split sep (a ++ sep :: b) = w :: ws /\ ws <> []
               /\ List.last ws [] = List.last (split sep b) [].
Proof.
  induction a as [| c a (w & ws & Hs & Hne & Hl)].
  - cbn [app split]. rewrite N.eqb_refl.
    exists [], (split sep b). repeat split. apply split_nonempty.
  - cbn [app split]. rewrite Hs.
    destruct (c =? sep)%N.
    + exists [], (w :: ws). repeat split; [discriminate |].
      rewrite last_cons_nonempty by exact Hne. exact Hl.
    + exists (c :: w), ws. repeat split; assumption.
Qed.

(** What [entry.split('/')[-1]] is: the entry itself when it holds no '/',
    and otherwise what follows its last '/'. *)
Lemma last_segment (entry prefix name : str) :
  ~ In slash name ->
  entry = name \/ entry = prefix ++ slash :: name ->
  last_item (split slash entry) = name.
Proof.
  intros Hn [-> | ->]; unfold last_item.
  - rewrite split_without_separator by exact Hn. reflexivity.
  - destruct (split_two_parts slash prefix name) as (w & ws & -> & Hne & Hl).
    rewrite last_cons_nonempty by exact Hne. rewrite Hl.
    rewrite split_without_separator by exact Hn. reflexivity.
Qed.

(** X18. When the province is known and the code itself has a non-empty
    entry, the last component of the result is what follows the last '/' of
    that entry: the whole entry when it holds no '/', and the empty string
    when it ends in '/'. *)
Theorem district_is_last_segment (code : str) (region_codes : gmap str str)
    (province entry prefix name : str) :
  region_codes !! province_key code = Some province -> province <> [] ->
  region_codes !! code = Some entry -> entry <> [] ->
  ~ In slash name ->
  entry = name \/ entry = prefix ++ slash :: name ->
  List.last (get_region_detail code region_codes) [] = name.
Proof.
  intros Hp Hne Hd Hent Hn Hshape.
  unfold get_region_detail, region_walk.
  fold (province_key code). fold (city_key code).
  rewrite Hp, Hd.
  destruct province as [| x province]; [contradiction |].
  destruct entry as [| y entry]; [contradiction |]. cbn [truthy].
  rewrite <- (last_segment (y :: entry) prefix name Hn Hshape).
  destruct (negb (str_eqb (city_key code) (province_key code)));
    [destruct (truthy (region_codes !! city_key code)) |]; reflexivity.
Qed.

Lemma district_is_last_segment_witness :
  List.last (get_region_detail (u8 "110105") beijing) [] = u8 "朝阳区".
Proof.
  apply (district_is_last_segment (u8 "110105") beijing (u8 "北京市")
           (u8 "北京市/市辖区/朝阳区") (u8 "北京市/市辖区") (u8 "朝阳区")).
  - vm_compute. reflexivity.
  - vm_compute. discriminate.
  - vm_compute. reflexivity.
  - vm_compute. discriminate.
  - vm_compute. intros [H | [H | [H | []]]]; discriminate.
  - right. vm_compute. reflexivity.
Defined.

(** ** Loading the directory *)

Lemma split_at_parts (p : char -> bool) (s w : str) :
  In w (split_at p s) -> Forall (fun c => p c = false) w.
Proof.
  revert w. induction s as [| c s IH]; intros w; cbn [split_at].
  - intros [<- | []]. constructor.
  - destruct (p c) eqn:Hc.
    + intros [<- | H]; [constructor | exact (IH w H)].
    + destruct (split_at p s) as [| x xs] eqn:Hs.
      * intros [<- | []]. repeat constructor. exact Hc.
      * intros [<- | H].
        -- constructor; [exact Hc | apply IH; left; reflexivity].
        -- apply IH. right. exact H.
Qed.

(** The fields [split()] returns are not empty and hold no whitespace. *)
Lemma split_whitespace_fields (s w : str) :
  In w (split_whitespace s) ->
  w <> [] /\ Forall (fun c => isspace c = false) w.
Proof.
  unfold split_whitespace. intros H.
  apply list_elem_of_In, list_elem_of_filter in H. destruct H as [Hne Hin].
  split; [intros ->; discriminate |].
  apply (split_at_parts isspace s). apply list_elem_of_In. exact Hin.
Qed.

Lemma load_line_lookup (region_codes : gmap str str) (line k : str) :
  load_line region_codes line !! k
  = match split_whitespace (strip line) with
    | [code; name] => if decide (code = k) then Some name else region_codes !! k
    | _ => region_codes !! k
    end.
Proof.
  unfold load_line.
  destruct (split_whitespace (strip line)) as [| code [| name [| ? ?]]];
    try reflexivity.
  apply lookup_insert.
Qed.

(** An entry of the directory built from some lines was either there before
    or is the two fields of one of the lines. *)
Lemma fold_load_entries (lines : list str) :
  forall (start : gmap str str) (k v : str),
    fold_left load_line lines start !! k = Some v ->
    start !! k = Some v
    \/ exists line, In line lines /\ split_whitespace (strip line) = [k; v].
Proof.
  induction lines as [| line lines IH]; intros start k v H; [left; exact H |].
  cbn [fold_left] in H. apply IH in H. destruct H as [H | (l & Hl & Hs)].
  - rewrite load_line_lookup in H.
    destruct (split_whitespace (strip line)) as [| code [| name [| ? ?]]] eqn:Hp;
      try (left; exact H).
    destruct (decide (code = k)) as [-> | Hne]; [| left; exact H].
    injection H as ->. right. exists line. split; [left; reflexivity | exact Hp].
  - right. exists l. split; [right; exact Hl | exact Hs].
Qed.

Lemma load_region_data_entries_nonempty (file : option (list str)) (k v : str) :
  load_region_data file !! k = Some v -> k <> [] /\ v <> [].
Proof.
  destruct file as [lines |]; cbn [load_region_data];
    [| rewrite lookup_empty; discriminate].
  intros H. apply fold_load_entries in H.
  destruct H as [H | (line & Hin & Hs)]; [rewrite lookup_empty in H; discriminate |].
  split.
  - apply (split_whitespace_fields (strip line) k). rewrite Hs. left. reflexivity.
  - apply (split_whitespace_fields (strip line) v). rewrite Hs. right. left. reflexivity.
Qed.

(** X19. Every entry of a loaded directory comes from a line of the file
    with exactly two fields, so neither its code nor its name is empty or
    holds whitespace; a missing file loads as the empty directory. *)
Theorem load_region_data_entries (file : option (list str)) (k v : str) :
  load_region_data file !! k = Some v ->
  (exists lines line,
      file = Some lines /\ In line lines
      /\ split_whitespace (strip line) = [k; v])
  /\ k <> [] /\ v <> []
  /\ Forall (fun c => isspace c = false) k
  /\ Forall (fun c => isspace c = false) v.
Proof.
  destruct file as [lines |]; cbn [load_region_data];
    [| rewrite lookup_empty; discriminate].
  intros H. apply fold_load_entries in H.
  destruct H as [H | (line & Hin & Hs)]; [rewrite lookup_empty in H; discriminate |].
  split; [exists lines, line; repeat split; assumption |].
  destruct (split_whitespace_fields (strip line) k) as [Hk1 Hk2];
    [rewrite Hs; left; reflexivity |].
  destruct (split_whitespace_fields (strip line) v) as [Hv1 Hv2];
    [rewrite Hs; right; left; reflexivity |].
  repeat split; assumption.
Qed.

Lemma load_region_data_entries_witness :
  u8 "110000" <> [] /\ Forall (fun c => isspace c = false) (u8 "北京市").
Proof.
  destruct (load_region_data_entries
              (Some [u8 "110000 北京市"; u8 ""; u8 "110100  北京市/市辖区 "])
              (u8 "110000") (u8 "北京市")) as (_ & Hk & _ & _ & Hv).
  - vm_compute. reflexivity.
  - split; assumption.
Defined.

Lemma fold_load_untouched (lines : list str) (k : str) :
  (forall line v, In line lines -> split_whitespace (strip line) <> [k; v]) ->
  forall start : gmap str str,
    fold_left load_line lines start !! k = start !! k.
Proof.
  induction lines as [| line lines IH]; intros Hno start; [reflexivity |].
  cbn [fold_left].
  rewrite IH by (intros l v Hl; apply Hno; right; exact Hl).
  rewrite load_line_lookup.
  destruct (split_whitespace (strip line)) as [| code [| name [| ? ?]]] eqn:Hp;
    try reflexivity.
  destruct (decide (code = k)) as [-> | Hne]; [| reflexivity].
  exfalso. apply (Hno line name); [left; reflexivity | exact Hp].
Qed.

(** X20. The last line that carries a code decides its name: when a line
    has the two fields [k] and [v] and no later line has [k] as the first of
    two fields, the loaded directory maps [k] to [v]; a code that no line
    carries is absent. *)
Theorem load_region_data_last_line_wins (before after : list str)
    (line k v : str) :
  (split_whitespace (strip line) = [k; v] ->
   (forall line' v', In line' after -> split_whitespace (strip line') <> [k; v']) ->
   load_region_data (Some (before ++ line :: after)) !! k = Some v)
  /\ ((forall line' v', In line' (before ++ line :: after) ->
                        split_whitespace (strip line') <> [k; v']) ->
      load_region_data (Some (before ++ line :: after)) !! k = None).
Proof.
  cbn [load_region_data]. split.
  - intros Hs Hno. rewrite fold_left_app. cbn [fold_left].
    rewrite (fold_load_untouched after k Hno).
    rewrite load_line_lookup, Hs. rewrite decide_True by reflexivity. reflexivity.
  - intros Hno. rewrite (fold_load_untouched _ k Hno). apply lookup_empty.
Qed.

Lemma load_region_data_last_line_wins_witness :
  load_region_data
    (Some ([u8 "110000 旧名"] ++ u8 "110000 北京市" :: [u8 "110100 北京市/市辖区"]))
  !! u8 "110000" = Some (u8 "北京市").
Proof.
  apply (proj1 (load_region_data_last_line_wins [u8 "110000 旧名"]
                  [u8 "110100 北京市/市辖区"] (u8 "110000 北京市")
                  (u8 "110000") (u8 "北京市"))).
  - vm_compute. reflexivity.
  - intros line' v' [<- | []]. vm_compute. discriminate.
Defined.

Lemma get_region_detail_known_province (code : str) (region_codes : gmap str str)
    (province : str) :
  region_codes !! province_key code = Some province -> province <> [] ->
  exists rest, get_region_detail code region_codes = province :: rest.
Proof.
  intros Hp Hne. unfold get_region_detail.
  destruct (components (region_walk code region_codes)) as [details |] eqn:Hw.
  - destruct (region_walk_components _ _ _ Hw) as (p & rest & Hp' & _ & -> & _).
    rewrite Hp in Hp'. injection Hp' as <-. exists (map snd rest). reflexivity.
  - exfalso. unfold region_walk in Hw. fold (province_key code) in Hw.
    rewrite Hp in Hw. destruct province; [contradiction |]. cbn [truthy] in Hw.
    destruct (negb (str_eqb _ _)); discriminate.
Qed.

(** X21. With a directory loaded from a file, a province key that is
    present is never taken for a missing one: the result starts with the
    name the file gives for it.  With a missing file every code resolves to
    ["未知省份"]. *)
Theorem loaded_directory_resolves (file : option (list str)) (code : str) :
  (forall province,
      load_region_data file !! province_key code = Some province ->
      exists rest,
        get_region_detail code (load_region_data file) = province :: rest)
  /\ get_region_detail code (load_region_data None) = [unknown_province].
Proof.
  split.
  - intros province Hp.
    destruct (load_region_data_entries_nonempty file _ _ Hp) as [_ Hne].
    exact (get_region_detail_known_province code _ province Hp Hne).
  - unfold get_region_detail, region_walk. cbn [load_region_data].
    rewrite lookup_empty. reflexivity.
Qed.

Lemma loaded_directory_resolves_witness :
  exists rest,
    get_region_detail (u8 "110105") (load_region_data (Some [u8 "110000 北京市"]))
    = u8 "北京市" :: rest.
Proof.
  apply (proj1 (loaded_directory_resolves (Some [u8 "110000 北京市"]) (u8 "110105"))).
  vm_compute. reflexivity.
Defined.

(** X22. When the directory file is missing, every result that reached
    region resolution (a valid one, or one with the invalid-birth-date
    message) has the address "未知省份", and every other result keeps the
    initial address "未知". *)
Theorem missing_file_address (current_date : date) (s : str) (r : info) :
  parse_id_info current_date s (load_region_data None) = Ok r ->
  (valid r = true \/ error r = err_birth_date -> address r = unknown_province)
  /\ (valid r = false -> error r <> err_birth_date -> address r = u8 "未知").
Proof.
  intros Hp.
  assert (Haddr : forall code,
             join (u8 " ") (get_region_detail code (load_region_data None))
             = unknown_province).
  { intros code. unfold get_region_detail, region_walk. cbn [load_region_data].
    rewrite lookup_empty. reflexivity. }
  destruct (parse_id_info_paths current_date s (load_region_data None))
    as [(msg & H & _ & Hmsg)
       | [(id & _ & _ & H)
         | [(id & birth & c & digit & v & animal & _ & _ & _ & _ & _ & _ & H)
           | [H _]]]];
    rewrite H in Hp; try discriminate; injection Hp as <-; simpl.
  - split; [| intros _ _; reflexivity].
    intros [Hv | He]; [discriminate |]. exfalso.
    destruct Hmsg as [-> | [-> | [-> | [-> | (_ & c & ->)]]]]; discriminate.
  - split; [intros _; apply Haddr | intros _ Hne; contradiction].
  - split; [intros _; apply Haddr | intros Hv; discriminate].
Qed.

Lemma missing_file_address_witness :
  address (decoded new_year_2024 (mkdate 1990 3 7) unknown_province
             (u8 "男") (u8 "马") (u8 "0") initial_info) = unknown_province.
Proof.
  apply (proj1 (missing_file_address new_year_2024 (u8 "110105199003078510") _
                  ltac:(vm_compute; reflexivity))).
  left. reflexivity.
Defined.

(** ** The century of the 15 character form *)

Lemma decimal_value_range (c : char) (d : Z) :
  decimal_value c = Some d -> 0 <= d <= 9.
Proof.
  unfold decimal_value. destruct (c <? 128)%N.
  - destruct ((48 <=? c)%N && (c <=? 57)%N) eqn:Hd; [| discriminate].
    intros H. injection H as <-. apply andb_prop in Hd. destruct Hd as [Hlo Hhi].
    apply N.leb_le in Hlo. apply N.leb_le in Hhi. lia.
  - destruct (find _ unicode_decimal_zeros) as [z |] eqn:Hz; [| discriminate].
    cbn [option_map]. intros H. injection H as <-.
    apply find_some in Hz. destruct Hz as [_ Hb].
    apply andb_prop in Hb. destruct Hb as [Hlo Hhi].
    apply N.leb_le in Hlo. apply N.ltb_lt in Hhi. lia.
Qed.

Lemma re_digit_value (c : char) :
  re_digit c = true -> exists d, decimal_value c = Some d /\ isspace c = false.
Proof.
  unfold re_digit. intros H. apply bool_decide_eq_true in H. destruct H as [d Hd].
  exists d. split; [exact Hd |].
  apply isdigit_char_unchanged. unfold isdigit_char. rewrite Hd. reflexivity.
Qed.

(** [int] on "19" followed by two decimal digits. *)
Lemma int_19 (a b : char) (da db : Z) :
  decimal_value a = Some da -> decimal_value b = Some db -> isspace b = false ->
  int [49; 57; a; b]%N = Ok (1900 + 10 * da + db).
Proof.
  intros Ha Hb Hs. unfold int.
  change [49; 57; a; b]%N with (49%N :: [57%N; a] ++ [b]).
  rewrite (strip_fixed 49%N b [57%N; a] eq_refl Hs).
  cbn [app int_digits].
  change (decimal_value 49%N) with (Some 1).
  change (decimal_value 57%N) with (Some 9).
  cbv iota beta. rewrite Ha. cbv iota beta. rewrite Hb. cbv iota beta.
  f_equal. lia.
Qed.

(** A date that [strptime] reads from "19" and six more characters lies in
    the twentieth century. *)
Lemma strptime_19 (a b : char) (rest : str) (birth : date) :
  strptime_Ymd (49%N :: 57%N :: a :: b :: rest) = Ok birth ->
  1900 <= year birth <= 1999.
Proof.
  unfold strptime_Ymd. cbn [re_match re_Y match_atoms].
  change (re_digit 49%N) with true. change (re_digit 57%N) with true.
  cbv iota beta.
  destruct (re_digit a) eqn:Ha; [| discriminate].
  destruct (re_digit b) eqn:Hb; [| discriminate].
  destruct (re_digit_value a Ha) as (da & Hda & _).
  destruct (re_digit_value b Hb) as (db & Hdb & Hsb).
  pose proof (decimal_value_range a da Hda) as Hra.
  pose proof (decimal_value_range b db Hdb) as Hrb.
  match goal with
  | [ |- context [match ?x with Some _ => _ | None => None end] ] =>
      destruct x as [[ms r] |]
  end; [| discriminate].
  destruct ms as [| m [| d [| ? ?]]]; try discriminate.
  destruct r; [| discriminate].
  rewrite (int_19 a b da db Hda Hdb Hsb). cbn [bind].
  intros H.
  apply bind_Ok_inv in H. destruct H as (mv & _ & H).
  apply bind_Ok_inv in H. destruct H as (dv & _ & H).
  unfold make_date in H. destruct (date_ok _); [| discriminate].
  injection H as <-. simpl. lia.
Qed.

(** X23. A 15 character input is always dated in the twentieth century:
    when the trimmed, uppercased input has 15 characters and carries a birth
    date, the year of that date is between 1900 and 1999. *)
Theorem fifteen_digits_born_in_1900s (s : str) (birth : date) :
  length (upper (strip s)) = 15%nat ->
  birth_of s = Some birth ->
  1900 <= year birth <= 1999.
Proof.
  intros Hlen. unfold birth_of.
  destruct (isdigit (upper (strip s))) eqn:Hd.
  - destruct (compute_check_code
                (take 6 (upper (strip s)) ++ u8 "19" ++ drop 6 (upper (strip s))))
      as [r | e] eqn:Hc.
    + destruct (compute_check_code_Ok _ _ Hc) as (c & -> & _).
      rewrite (normalize_15_digits s _ c initial_info eq_refl Hlen Hd Hc).
      destruct (upper (strip s)) as [| c0 [| c1 [| c2 [| c3 [| c4 [| c5 [| a [| b rest]]]]]]]];
        try (simpl in Hlen; lia).
      change (slice 6 14 ((take 6 (c0 :: c1 :: c2 :: c3 :: c4 :: c5 :: a :: b :: rest)
                           ++ u8 "19" ++ drop 6 (c0 :: c1 :: c2 :: c3 :: c4 :: c5 :: a :: b :: rest))
                          ++ [c]))
        with (49%N :: 57%N :: a :: b :: take 4 (rest ++ [c])).
      destruct (strptime_Ymd _) as [b' | e] eqn:Hb; [| discriminate].
      intros H. injection H as <-. exact (strptime_19 _ _ _ _ Hb).
    + rewrite (normalize_15_raise s _ e initial_info eq_refl Hlen Hd Hc).
      discriminate.
  - rewrite (normalize_15_other s _ initial_info eq_refl Hlen Hd). discriminate.
Qed.

Lemma fifteen_digits_born_in_1900s_witness :
  1900 <= year (mkdate 1949 12 31) <= 1999.
Proof.
  apply (fifteen_digits_born_in_1900s (u8 "110105491231002")).
  - vm_compute. reflexivity.
  - vm_compute. reflexivity.
Defined.

(** ** The birth date of a number of ASCII digits *)

Lemma digit_strings_complete (n : nat) (s : str) :
  length s = n -> Forall ascii_digit s -> In s (digit_strings n).
Proof.
  revert s. induction n as [| n IH]; intros s Hlen Hdig.
  - destruct s; [left; reflexivity | discriminate].
  - destruct s as [| c s]; [discriminate |].
    cbn [digit_strings]. apply in_flat_map. exists c. split.
    + exact (ascii_digit_cases c (Forall_inv Hdig)).
    + apply in_map. apply IH; [simpl in Hlen; lia | exact (Forall_inv_tail Hdig)].
Qed.

Lemma year_digits_table : forallb year_digits_agree (digit_strings 4) = true.
Proof. vm_compute. reflexivity. Qed.

Lemma month_day_digits_table :
  forallb month_day_digits_agree (digit_strings 4) = true.
Proof. vm_compute. reflexivity. Qed.

Lemma re_digit_ascii_digit (c : char) : ascii_digit c -> re_digit c = true.
Proof. intros H. each_digit H. Qed.

Lemma re_match_year (groups : list (list (list cls))) (y1 y2 y3 y4 : char)
    (rest : str) :
  re_digit y1 = true -> re_digit y2 = true ->
  re_digit y3 = true -> re_digit y4 = true ->
  re_match (re_Y :: groups) (y1 :: y2 :: y3 :: y4 :: rest)
  = match re_match groups rest with
    | Some (ms, r) => Some ([y1; y2; y3; y4] :: ms, r)
    | None => None
    end.
Proof.
  intros H1 H2 H3 H4. cbn [re_match re_Y match_atoms].
  rewrite H1, H2, H3, H4.
  destruct (re_match groups rest) as [[ms r] |]; reflexivity.
Qed.

Lemma strptime_by_reading (y1 y2 y3 y4 : char) (md : str) (yv : Z) :
  re_digit y1 = true -> re_digit y2 = true ->
  re_digit y3 = true -> re_digit y4 = true ->
  int [y1; y2; y3; y4] = Ok yv ->
  strptime_Ymd (y1 :: y2 :: y3 :: y4 :: md)
  = match month_day_reading md with
    | Some (m, d) => make_date yv m d
    | None => Raise ValueError
    end.
Proof.
  intros H1 H2 H3 H4 Hyv. unfold strptime_Ymd, month_day_reading.
  rewrite (re_match_year _ _ _ _ _ _ H1 H2 H3 H4).
  destruct (re_match [re_m; re_d] md) as [[ms r] |]; [| reflexivity].
  destruct ms as [| m [| d [| ? ?]]]; try reflexivity.
  destruct r; [| reflexivity].
  rewrite Hyv. cbn [bind].
  destruct (int m) as [mv | e1] eqn:Hm; cbn [bind];
    [| rewrite (int_raises_ValueError _ _ Hm); reflexivity].
  destruct (int d) as [dv | e2] eqn:Hd; cbn [bind];
    [reflexivity | rewrite (int_raises_ValueError _ _ Hd); reflexivity].
Qed.

Lemma make_date_out_of_range (y m d : Z) :
  month_day_in_range m d = false -> make_date y m d = Raise ValueError.
Proof.
  unfold make_date, month_day_in_range. intros H.
  destruct (date_ok (mkdate y m d)) eqn:Hok; [| reflexivity].
  apply date_ok_bounds in Hok. cbn [year month day] in Hok.
  destruct Hok as (_ & Hm & Hd). exfalso.
  replace (1 <=? m) with true in H by (symmetry; apply Z.leb_le; lia).
  replace (m <=? 12) with true in H by (symmetry; apply Z.leb_le; lia).
  replace (1 <=? d) with true in H by (symmetry; apply Z.leb_le; lia).
  replace (d <=? 31) with true in H by (symmetry; apply Z.leb_le; lia).
  discriminate.
Qed.

(** On eight ASCII digits [strptime] is [datetime.date] on the year, month
    and day they spell; [%Y] prints the year digits back from 1000 on, and
    [%m], [%d] print the month and day digits back. *)
Lemma strptime_Ymd_ascii (d8 : str) :
  length d8 = 8%nat -> Forall ascii_digit d8 ->
  strptime_Ymd d8
  = make_date (year (spelled_date d8)) (month (spelled_date d8))
              (day (spelled_date d8))
  /\ (1000 <= year (spelled_date d8) ->
      str_of_int (year (spelled_date d8)) = take 4 d8)
  /\ (date_ok (spelled_date d8) = true ->
      format_0d 2 (month (spelled_date d8)) = slice 4 6 d8
      /\ format_0d 2 (day (spelled_date d8)) = slice 6 8 d8).
Proof.
  intros Hlen Hdig.
  destruct d8 as [| y1 [| y2 [| y3 [| y4 md]]]]; try discriminate.
  assert (Hy : Forall ascii_digit [y1; y2; y3; y4]).
  { change [y1; y2; y3; y4] with (take 4 (y1 :: y2 :: y3 :: y4 :: md)).
    apply Forall_take. exact Hdig. }
  assert (Hmd : Forall ascii_digit md).
  { change md with (drop 4 (y1 :: y2 :: y3 :: y4 :: md)).
    apply Forall_drop. exact Hdig. }
  assert (Hlmd : length md = 4%nat) by (simpl in Hlen; lia).
  pose proof year_digits_table as Ty. rewrite forallb_forall in Ty.
  specialize (Ty _ (digit_strings_complete 4 [y1; y2; y3; y4] eq_refl Hy)).
  pose proof month_day_digits_table as Tm. rewrite forallb_forall in Tm.
  specialize (Tm _ (digit_strings_complete 4 md Hlmd Hmd)).
  unfold spelled_date, slice. cbn [take drop Nat.sub year month day].
  rewrite !take_0.
  replace (take 2 (drop 0 md)) with (take 2 md) by reflexivity.
  assert (Hd2 : take 2 (drop 2 md) = drop 2 md).
  { apply take_ge. rewrite length_drop. lia. }
  rewrite Hd2.
  unfold year_digits_agree in Ty.
  destruct (int [y1; y2; y3; y4]) as [yv |] eqn:Hyv; [| discriminate].
  apply andb_prop in Ty. destruct Ty as [Tyv Tyf]. apply Z.eqb_eq in Tyv.
  subst yv.
  inversion Hy as [| ? ? D1 Hy1]; subst.
  inversion Hy1 as [| ? ? D2 Hy2]; subst.
  inversion Hy2 as [| ? ? D3 Hy3]; subst.
  inversion Hy3 as [| ? ? D4 _]; subst.
  rewrite (strptime_by_reading y1 y2 y3 y4 md _
             (re_digit_ascii_digit _ D1) (re_digit_ascii_digit _ D2)
             (re_digit_ascii_digit _ D3) (re_digit_ascii_digit _ D4) Hyv).
  unfold month_day_digits_agree in Tm. cbv zeta in Tm.
  destruct (month_day_in_range (digits_value (take 2 md)) (digits_value (drop 2 md)))
    eqn:Hrange.
  - apply andb_prop in Tm. destruct Tm as [Tm Tf2].
    apply andb_prop in Tm. destruct Tm as [Tm Tf1].
    apply bool_decide_eq_true in Tm. apply bool_decide_eq_true in Tf1.
    apply bool_decide_eq_true in Tf2. rewrite Tm.
    split; [reflexivity |]. split.
    + intros Hbig.
      destruct (Z.leb_spec 1000 (digits_value [y1; y2; y3; y4])) as [_ | Hlt];
        [| lia].
      apply bool_decide_eq_true in Tyf. exact Tyf.
    + intros _. split; assumption.
  - apply bool_decide_eq_true in Tm. rewrite Tm.
    split; [symmetry; apply make_date_out_of_range; exact Hrange |]. split.
    + intros Hbig.
      destruct (Z.leb_spec 1000 (digits_value [y1; y2; y3; y4])) as [_ | Hlt];
        [| lia].
      apply bool_decide_eq_true in Tyf. exact Tyf.
    + intros Hok. exfalso. apply date_ok_bounds in Hok.
      cbn [year month day] in Hok. destruct Hok as (_ & Hm & Hd).
      unfold month_day_in_range in Hrange.
      replace (1 <=? digits_value (take 2 md)) with true in Hrange
        by (symmetry; apply Z.leb_le; lia).
      replace (digits_value (take 2 md) <=? 12) with true in Hrange
        by (symmetry; apply Z.leb_le; lia).
      replace (1 <=? digits_value (drop 2 md)) with true in Hrange
        by (symmetry; apply Z.leb_le; lia).
      replace (digits_value (drop 2 md) <=? 31) with true in Hrange
        by (symmetry; apply Z.leb_le; lia).
      discriminate.
Qed.

Lemma slice_6_14_length (id : str) :
  length id = 18%nat -> length (slice 6 14 id) = 8%nat.
Proof.
  intros H. unfold slice. rewrite length_take, length_drop, H. reflexivity.
Qed.

Lemma parse_valid_number (current_date : date) (id : str) (c : char)
    (region_codes : gmap str str) :
  valid_number id c ->
  parse_id_info current_date id region_codes
  = match strptime_Ymd (slice 6 14 id) with
    | Raise _ =>
        Ok (set_error err_birth_date
              (set_address
                 (join (u8 " ") (get_region_detail (take 6 id) region_codes))
                 initial_info))
    | Ok birth =>
        Ok (decoded current_date birth
              (join (u8 " ") (get_region_detail (take 6 id) region_codes))
              (gender_of (gender_digit id)) (animal_of (year birth))
              (drop 17 id) initial_info)
    end.
Proof.
  intros Hv. rewrite parse_id_info_summary. unfold parse_summary.
  rewrite (normalize_of_valid_number id c initial_info Hv). reflexivity.
Qed.

(** X24. A number with a correct check character whose characters 6 to 13
    are ASCII digits is valid exactly when those digits, read as YYYYMMDD,
    are a calendar date: year from 1 to 9999, month from 1 to 12, day within
    the month, with 29 February in leap years only.  The birth date of a
    valid result is that date. *)
Theorem valid_number_valid_iff_calendar_date (current_date : date) (id : str)
    (c : char) (region_codes : gmap str str) (r : info) :
  valid_number id c ->
  Forall ascii_digit (slice 6 14 id) ->
  parse_id_info current_date id region_codes = Ok r ->
  (valid r = true <-> date_ok (spelled_date (slice 6 14 id)) = true)
  /\ (valid r = true -> birth_of id = Some (spelled_date (slice 6 14 id))).
Proof.
  intros Hv Hdig. rewrite (parse_valid_number _ id c _ Hv).
  unfold birth_of. rewrite (normalize_of_valid_number id c initial_info Hv).
  destruct (strptime_Ymd_ascii (slice 6 14 id)
              (slice_6_14_length id (proj1 Hv)) Hdig) as (Hs & _).
  rewrite Hs. unfold make_date.
  replace (mkdate (year (spelled_date (slice 6 14 id)))
             (month (spelled_date (slice 6 14 id)))
             (day (spelled_date (slice 6 14 id))))
    with (spelled_date (slice 6 14 id)) by reflexivity.
  destruct (date_ok (spelled_date (slice 6 14 id)));
    intros H; injection H as <-; simpl; split;
    first [reflexivity | discriminate | tauto | split; intros; first [reflexivity | discriminate]].
Qed.

Lemma valid_number_valid_iff_calendar_date_witness :
  (valid (set_error err_birth_date
            (set_address (u8 "北京市 市辖区 朝阳区") initial_info)) = true
   <-> date_ok (spelled_date (slice 6 14 (u8 "110105190002290017"))) = true)
  /\ (valid (set_error err_birth_date
               (set_address (u8 "北京市 市辖区 朝阳区") initial_info)) = true ->
      birth_of (u8 "110105190002290017")
      = Some (spelled_date (slice 6 14 (u8 "110105190002290017")))).
Proof.
  apply (valid_number_valid_iff_calendar_date new_year_2024
           (u8 "110105190002290017") 55%N beijing).
  - unfold valid_number. repeat split; vm_compute; reflexivity.
  - vm_compute. repeat constructor; discriminate.
  - vm_compute. reflexivity.
Defined.

(** X25. For such a number with a year from 1000 on, the birth date field of
    a valid result is the eight digits of the number with dashes put in:
    characters 6 to 9, a dash, characters 10 and 11, a dash, characters 12
    and 13. *)
Theorem birth_date_field_is_the_digits (current_date : date) (id : str)
    (c : char) (region_codes : gmap str str) (r : info) :
  valid_number id c ->
  Forall ascii_digit (slice 6 14 id) ->
  parse_id_info current_date id region_codes = Ok r ->
  valid r = true ->
  1000 <= year (spelled_date (slice 6 14 id)) ->
  birth_date r
  = take 4 (slice 6 14 id) ++ u8 "-" ++ slice 4 6 (slice 6 14 id) ++ u8 "-"
    ++ slice 6 8 (slice 6 14 id).
Proof.
  intros Hv Hdig. rewrite (parse_valid_number _ id c _ Hv).
  destruct (strptime_Ymd_ascii (slice 6 14 id)
              (slice_6_14_length id (proj1 Hv)) Hdig) as (Hs & Hy & Hmd).
  rewrite Hs. unfold make_date.
  replace (mkdate (year (spelled_date (slice 6 14 id)))
             (month (spelled_date (slice 6 14 id)))
             (day (spelled_date (slice 6 14 id))))
    with (spelled_date (slice 6 14 id)) by reflexivity.
  destruct (date_ok (spelled_date (slice 6 14 id))) eqn:Hok;
    intros H; injection H as <-; [| intros Hval; discriminate Hval].
  intros _ Hbig. simpl. unfold strftime_Ymd.
  destruct (Hmd eq_refl) as [Hm Hd]. rewrite (Hy Hbig), Hm, Hd. reflexivity.
Qed.

Lemma birth_date_field_is_the_digits_witness :
  birth_date (decoded new_year_2024 (mkdate 1990 3 7)
                (u8 "北京市 市辖区 朝阳区") (u8 "男") (u8 "马") (u8 "0") initial_info)
  = take 4 (slice 6 14 (u8 "110105199003078510")) ++ u8 "-"
    ++ slice 4 6 (slice 6 14 (u8 "110105199003078510")) ++ u8 "-"
    ++ slice 6 8 (slice 6 14 (u8 "110105199003078510")).
Proof.
  apply (birth_date_field_is_the_digits new_year_2024
           (u8 "110105199003078510") 48%N beijing).
  - unfold valid_number. repeat split; vm_compute; reflexivity.
  - vm_compute. repeat constructor; discriminate.
  - vm_compute. reflexivity.
  - reflexivity.
  - vm_compute. discriminate.
Defined.
